(** * DATASUSAnalytics: the text-to-SQL evaluation engine

    A shallow embedding of the evaluation core of the repository:

    - [evaluation/dag/base.py]: the task graph and its scheduler
      ([EvaluationDAG.add_task], [EvaluationDAG.execute]);
    - [evaluation/metrics/base_metrics.py]: [MetricResult],
      [EvaluationContext], [SQLNormalizer], [BaseMetric._safe_evaluate];
    - [evaluation/metrics/exact_match.py]: [ExactMatchMetric];
    - [evaluation/metrics/execution_accuracy.py]: [ExecutionAccuracyMetric];
    - [evaluation/metrics/improved_sql_parser.py] and
      [evaluation/metrics/component_matching.py]: the clause extractor, the
      alias-aware column comparator and [ComponentMatchingMetric];
    - [evaluation/dag/tasks.py]: [aggregate_results].

    Modelling conventions.

    - A Python [str] is a [string]; the model covers ASCII text (a character
      is an [ascii], and the character classes below are the ASCII part of
      Python's).
    - A Python [float] score is an exact rational ([Q]); binary rounding is
      not modelled.
    - A call that may raise returns an [Exc]: [Ret v] or [Raise msg], where
      [msg] is [str(e)] of an exception deriving from [Exception].
    - A [dict] keyed by strings is a [gmap string _]; a [set] of strings a
      [gset string]; a [collections.Counter] a [gmultiset].
    - The third-party libraries ([sqlparse], [networkx], the database driver)
      are not part of the repository: their functions are the [Variable]s of
      the sections that use them, so every theorem holds whatever they
      return.  Two functions of the repository are kept abstract in the
      same way: the difference analysis of Exact Match, which only fills in
      diagnostics, and the regular-expression fallback of the clause
      extractor. *)

From Stdlib Require Import Ascii QArith Qcanon Lqa.
From stdpp Require Import base option list strings gmap gmultiset pretty.

Local Open Scope string_scope.
Local Open Scope list_scope.
Set Warnings "-register-all".

(** * Python values *)

Module Py.

(** The outcome of a Python call: a value, or a raised [Exception] with
    its message. *)
Inductive Exc (A : Type) : Type :=
| Ret (a : A)
| Raise (msg : string).
Arguments Ret {A} a.
Arguments Raise {A} msg.

Definition bind {A B : Type} (c : Exc A) (k : A -> Exc B) : Exc B :=
  match c with
  | Ret a => k a
  | Raise msg => Raise msg
  end.

(** [try: c  except Exception as e: h(str(e))]. *)
Definition try_except {A : Type} (c : Exc A) (h : string -> A) : A :=
  match c with
  | Ret a => a
  | Raise msg => h msg
  end.

(** The values stored in the [details] dictionaries of the metrics. *)
Inductive PyVal : Type :=
| PNone
| PBool (b : bool)
| PInt (z : Z)
| PNum (q : Q)
| PStr (s : string)
| PList (l : list PyVal)
| PDict (d : list (string * PyVal)).

(** Truthiness of an optional string: [None] and [''] are falsy. *)
Definition truthy (s : option string) : bool :=
  match s with
  | None => false
  | Some "" => false
  | Some _ => true
  end.

(** [d.update(other)] on dictionaries kept as association lists in
    insertion order. *)
Fixpoint dict_set (k : string) (v : PyVal) (d : list (string * PyVal))
    : list (string * PyVal) :=
  match d with
  | [] => [(k, v)]
  | (k', v') :: d' =>
      if String.eqb k k' then (k, v) :: d' else (k', v') :: dict_set k v d'
  end.

Definition dict_update (d other : list (string * PyVal)) : list (string * PyVal) :=
  fold_left (fun acc kv => dict_set (fst kv) (snd kv) acc) other d.

Definition opt_str (s : option string) : PyVal :=
  match s with
  | None => PNone
  | Some x => PStr x
  end.

End Py.
Export Py.

(** * Python string primitives *)

Module PyStr.

Definition char_eqb (a b : ascii) : bool := Ascii.eqb a b.

Definition LF : ascii := ascii_of_nat 10.
Definition DQUOTE : ascii := ascii_of_nat 34.

(** [str.isspace] and the regular expression class [\s] on ASCII:
    TAB, LF, VT, FF, CR, FS, GS, RS, US and SPACE. *)
Definition is_space (c : ascii) : bool :=
  let n := nat_of_ascii c in
  ((9 <=? n) && (n <=? 13) || (28 <=? n) && (n <=? 32))%nat.

Definition is_upper (c : ascii) : bool :=
  let n := nat_of_ascii c in ((65 <=? n) && (n <=? 90))%nat.
Definition is_lower (c : ascii) : bool :=
  let n := nat_of_ascii c in ((97 <=? n) && (n <=? 122))%nat.
Definition is_digit (c : ascii) : bool :=
  let n := nat_of_ascii c in ((48 <=? n) && (n <=? 57))%nat.
Definition is_alpha (c : ascii) : bool := is_upper c || is_lower c.

(** The class [\w]: letters, digits and the underscore. *)
Definition is_word (c : ascii) : bool :=
  is_alpha c || is_digit c || char_eqb c "_".

Definition upper_char (c : ascii) : ascii :=
  if is_lower c then ascii_of_nat (nat_of_ascii c - 32) else c.

(** [s.upper()]. *)
Fixpoint upper (s : string) : string :=
  match s with
  | "" => ""
  | String c s' => String (upper_char c) (upper s')
  end.

(** [s.lstrip()]. *)
Fixpoint lstrip (s : string) : string :=
  match s with
  | "" => ""
  | String c s' => if is_space c then lstrip s' else s
  end.

(** Removal of the trailing characters that satisfy [p]:
    [s.rstrip()] for [is_space], [s.rstrip(';')] for the semicolon. *)
Fixpoint rstrip_with (p : ascii -> bool) (s : string) : string :=
  match s with
  | "" => ""
  | String c s' =>
      match rstrip_with p s' with
      | "" => if p c then "" else String c ""
      | t => String c t
      end
  end.

Fixpoint lstrip_with (p : ascii -> bool) (s : string) : string :=
  match s with
  | "" => ""
  | String c s' => if p c then lstrip_with p s' else s
  end.

Definition rstrip (s : string) : string := rstrip_with is_space s.

(** [s.strip()]. *)
Definition strip (s : string) : string := lstrip (rstrip s).

(** [s.strip(chars)]. *)
Definition strip_with (p : ascii -> bool) (s : string) : string :=
  lstrip_with p (rstrip_with p s).

Definition is_semicolon (c : ascii) : bool := char_eqb c ";".

(** [re.sub(r'\s+', ' ', s)]: every maximal run of white space becomes one
    space.  [in_run] tells that the previous character was white space. *)
Fixpoint collapse_ws_from (in_run : bool) (s : string) : string :=
  match s with
  | "" => ""
  | String c s' =>
      if is_space c
      then if in_run then collapse_ws_from true s'
           else String " " (collapse_ws_from true s')
      else String c (collapse_ws_from false s')
  end.

Definition collapse_ws (s : string) : string := collapse_ws_from false s.

(** [s.startswith(p)]. *)
Fixpoint startswith (p s : string) : bool :=
  match p, s with
  | "", _ => true
  | String a p', String b s' => char_eqb a b && startswith p' s'
  | String _ _, "" => false
  end.

(** [s.startswith(p)] up to the case of ASCII letters, which is how a
    literal of a pattern compiled with [re.IGNORECASE] matches. *)
Fixpoint startswith_ci (p s : string) : bool :=
  match p, s with
  | "", _ => true
  | String a p', String b s' =>
      char_eqb (upper_char a) (upper_char b) && startswith_ci p' s'
  | String _ _, "" => false
  end.

Fixpoint drop (n : nat) (s : string) : string :=
  match n, s with
  | O, _ => s
  | S n', String _ s' => drop n' s'
  | S _, "" => ""
  end.

(** [s.endswith(p)]. *)
Definition endswith (p s : string) : bool :=
  startswith (String.rev p) (String.rev s).

(** [p in s] for strings. *)
Fixpoint contains (p s : string) : bool :=
  startswith p s ||
  match s with
  | "" => false
  | String _ s' => contains p s'
  end.

(** [s.replace(old, new)] for a non-empty [old]: the occurrences are
    replaced from left to right and do not overlap.  [skip] counts the
    characters of the current occurrence still to be passed over. *)
Fixpoint replace_from (old new : string) (skip : nat) (s : string) : string :=
  match s with
  | "" => ""
  | String c s' =>
      match skip with
      | S k => replace_from old new k s'
      | O =>
          if startswith old s
          then new +:+ replace_from old new (String.length old - 1) s'
          else String c (replace_from old new 0 s')
      end
  end.

Definition replace (old new s : string) : string := replace_from old new 0 s.

(** [s.split()]: the maximal runs of characters that are not white space.
    [cur] is the word being read. *)
Fixpoint split_ws_from (cur : string) (s : string) : list string :=
  match s with
  | "" => if String.eqb cur "" then [] else [cur]
  | String c s' =>
      if is_space c
      then if String.eqb cur "" then split_ws_from "" s'
           else cur :: split_ws_from "" s'
      else split_ws_from (cur +:+ String c "") s'
  end.

Definition split_ws (s : string) : list string := split_ws_from "" s.

(** [s.split(sep)] for a one-character separator: always at least one
    piece. *)
Fixpoint split_char_from (sep : ascii) (cur : string) (s : string) : list string :=
  match s with
  | "" => [cur]
  | String c s' =>
      if char_eqb c sep then cur :: split_char_from sep "" s'
      else split_char_from sep (cur +:+ String c "") s'
  end.

Definition split_char (sep : ascii) (s : string) : list string :=
  split_char_from sep "" s.

(** [sep.join(parts)]. *)
Fixpoint join (sep : string) (parts : list string) : string :=
  match parts with
  | [] => ""
  | [p] => p
  | p :: rest => p +:+ sep +:+ join sep rest
  end.

(** [''.join(parts)]. *)
Definition concat_all (parts : list string) : string := join "" parts.

(** [s[1:-1]]. *)
Definition slice_1_m1 (s : string) : string :=
  match s with
  | "" => ""
  | String _ s' => String.rev (drop 1 (String.rev s'))
  end.

(** [re.sub(r'^\s*KW\s+', '', s, flags=re.IGNORECASE)] for a keyword [kw]:
    a leading keyword followed by white space is removed together with the
    white space around it; any other string is returned unchanged. *)
Definition remove_leading_keyword (kw s : string) : string :=
  let t := lstrip s in
  if startswith_ci kw t then
    match drop (String.length kw) t with
    | String c r => if is_space c then lstrip r else s
    | "" => s
    end
  else s.

(** [re.findall(r'\d+', s)]: the maximal runs of decimal digits. *)
Fixpoint find_numbers_from (cur : string) (s : string) : list string :=
  match s with
  | "" => if String.eqb cur "" then [] else [cur]
  | String c s' =>
      if is_digit c then find_numbers_from (cur +:+ String c "") s'
      else if String.eqb cur "" then find_numbers_from "" s'
           else cur :: find_numbers_from "" s'
  end.

Definition find_numbers (s : string) : list string := find_numbers_from "" s.

(** [w in (a, b, ...)] for strings. *)
Definition in_list_str (w : string) (l : list string) : bool :=
  existsb (String.eqb w) l.

End PyStr.

(** * base_metrics.py: results, contexts and the metric base class *)

Module Base.

(** [@dataclass MetricResult]. *)
Record MetricResult : Type := mkMetricResult {
  metric_name : string;
  score : Q;
  is_correct : bool;
  details : list (string * PyVal);
  error_message : option string
}.

(** The database handle of a context.  [_execute_query] tells three kinds
    of handle apart with [hasattr]; [conn_id] names the session. *)
Inductive ConnKind : Type :=
| HasExecuteQuery
| HasGetRawConnection
| PlainConnection.

Record Connection : Type := mkConnection {
  conn_kind : ConnKind;
  conn_id : nat
}.

(** [@dataclass EvaluationContext].  The two statements are optional:
    [None] is Python's [None], which [evaluate] accepts besides [str]. *)
Record EvaluationContext : Type := mkContext {
  question_id : string;
  question : string;
  ground_truth_sql : option string;
  predicted_sql : option string;
  database_connection : option Connection;
  tables_info : option (list (string * PyVal))
}.

Section BaseMetric.

(** The state a metric may act on while it evaluates (for Execution
    Accuracy, the database). *)
Context {S : Type}.

(** An inner evaluation function, such as [_evaluate_exact_match]: it
    returns a result or raises, and may change the state. *)
Definition EvaluationFunc : Type :=
  EvaluationContext -> S -> Exc MetricResult * S.

(** [BaseMetric._create_result], with [self.name] as first argument. *)
Definition _create_result (name : string) (score : Q) (is_correct : bool)
    (details : list (string * PyVal)) (error_message : option string)
    : MetricResult :=
  {| metric_name := name;
     score := score;
     is_correct := is_correct;
     details := details;
     error_message := error_message |}.

(** [BaseMetric._safe_evaluate]. *)
Definition _safe_evaluate (name : string) (context : EvaluationContext)
    (evaluation_func : EvaluationFunc) (st : S) : MetricResult * S :=
  match evaluation_func context st with
  | (Ret result, st') => (result, st')
  | (Raise e, st') =>
      (_create_result name 0 false
         [("error", PStr e)]
         (Some ("Error in " +:+ name +:+ ": " +:+ e)),
       st')
  end.

(** A concrete metric: a subclass of [BaseMetric] fixes [self.name] and the
    inner function that its [evaluate] hands to [_safe_evaluate]. *)
Record Metric : Type := mkMetric {
  name : string;
  inner : EvaluationFunc
}.

(** [evaluate], as each of the three metric classes defines it. *)
Definition evaluate (m : Metric) (context : EvaluationContext) (st : S)
    : MetricResult * S :=
  _safe_evaluate (name m) context (inner m) st.

(** An inner function that has no effect on the state. *)
Definition pure_func (f : EvaluationContext -> MetricResult) : EvaluationFunc :=
  fun context st => (Ret (f context), st).

End BaseMetric.

Arguments EvaluationFunc S : clear implicits.
Arguments Metric S : clear implicits.

End Base.
Export Base.

(** * base_metrics.py: SQLNormalizer *)

Module SQLNormalizer.
Import PyStr.

(** The token types of [sqlparse.tokens] that the normalizer and the clause
    extractor tell apart.  [Whitespace], [Keyword] and [Name] stand for
    these types and their subtypes, as in [token.ttype in tokens.Keyword];
    the two comment types stand for themselves, as in
    [token.ttype in (tokens.Comment.Single, tokens.Comment.Multiline)]. *)
Inductive TType : Type :=
| CommentSingle
| CommentMultiline
| Whitespace
| Keyword
| Name
| OtherType.

(** A node of a parsed statement: a plain token with its type and text, or
    a token group (an object with a [tokens] attribute, whose [ttype] is
    [None]). *)
Inductive Token : Type :=
| Leaf (ttype : TType) (value : string)
| Group (tokens : list Token).

(** [sql.Statement]: the list of its top-level tokens. *)
Definition Statement : Type := list Token.

Definition is_comment (t : TType) : bool :=
  match t with
  | CommentSingle | CommentMultiline => true
  | _ => false
  end.

Definition is_whitespace (t : TType) : bool :=
  match t with
  | Whitespace => true
  | _ => false
  end.

(** [SQLNormalizer._normalize_token]. *)
Definition _normalize_token (ttype : TType) (value : string) : string :=
  match ttype with
  | Keyword => upper value
  | Name =>
      if startswith (String DQUOTE "") value && endswith (String DQUOTE "") value
      then String DQUOTE "" +:+ slice_1_m1 value +:+ String DQUOTE ""
      else value
  | _ => value
  end.

(** [normalized and normalized[-1] != ' ']. *)
Definition needs_space (normalized : list string) : bool :=
  match last normalized with
  | None => false
  | Some s => negb (String.eqb s " ")
  end.

(** [SQLNormalizer._normalize_token_group]: the loop over the tokens of a
    group, here for a single node; [go] is the loop, [normalized] the list
    it appends to. *)
Fixpoint _normalize_node (t : Token) : string :=
  match t with
  | Leaf ttype value => _normalize_token ttype value
  | Group tokens =>
      concat_all
        ((fix go (ts : list Token) (normalized : list string) : list string :=
            match ts with
            | [] => normalized
            | token :: ts' =>
                match token with
                | Leaf ttype value =>
                    if is_comment ttype then go ts' normalized
                    else if is_whitespace ttype then
                      go ts' (if needs_space normalized
                              then normalized ++ [" "] else normalized)
                    else go ts' (normalized ++ [_normalize_token ttype value])
                | Group _ =>
                    go ts' (normalized ++ [_normalize_node token])
                end
            end) tokens [])
  end.

Definition _normalize_token_group (tokens : list Token) : string :=
  _normalize_node (Group tokens).

(** [SQLNormalizer._normalize_statement]: the same loop over the top-level
    tokens, then the clean-up of the joined text. *)
Definition _normalize_statement (statement : Statement) : string :=
  let result := strip (_normalize_token_group statement) in
  let result := collapse_ws result in
  rstrip_with is_semicolon result.

(** [re.sub(r'--.*$', '', s, flags=re.MULTILINE)]: from each [--] to the
    end of its line.  [in_comment] tells that a comment is being removed. *)
Fixpoint remove_line_comments (in_comment : bool) (s : string) : string :=
  match s with
  | "" => ""
  | String c s' =>
      if in_comment then
        if char_eqb c LF then String c (remove_line_comments false s')
        else remove_line_comments true s'
      else if startswith "--" s then remove_line_comments true s'
      else String c (remove_line_comments false s')
  end.

(** The states of the scan that removes block comments. *)
Inductive BlockScan : Type :=
| Outside      (* not in a comment *)
| Opening      (* on the star of an opening delimiter *)
| Inside       (* in a comment, looking for the closing delimiter *)
| Closing.     (* on the slash of the closing delimiter *)

(** [re.sub(r'/\*.*?\*/', '', s, flags=re.DOTALL)]: each opening delimiter
    that is closed further on is removed up to the first closing one. *)
Fixpoint remove_block_comments (st : BlockScan) (s : string) : string :=
  match s with
  | "" => ""
  | String c s' =>
      match st with
      | Outside =>
          if startswith "/*" s && contains "*/" (drop 2 s)
          then remove_block_comments Opening s'
          else String c (remove_block_comments Outside s')
      | Opening => remove_block_comments Inside s'
      | Inside =>
          if startswith "*/" s then remove_block_comments Closing s'
          else remove_block_comments Inside s'
      | Closing => remove_block_comments Outside s'
      end
  end.

(** [SQLNormalizer._basic_normalize]. *)
Definition _basic_normalize (sql_query : string) : string :=
  let sql_query := remove_line_comments false sql_query in
  let sql_query := remove_block_comments Outside sql_query in
  let sql_query := collapse_ws (strip sql_query) in
  rstrip_with is_semicolon sql_query.

Section Normalize.

(** [sqlparse.parse]: the statements of a text, or an exception. *)
Variable sqlparse_parse : string -> Exc (list Statement).

(** [sqlparse.parse(sql_query)[0]]; an empty result raises [IndexError]. *)
Definition first_statement (sql_query : string) : Exc Statement :=
  bind (sqlparse_parse sql_query) (fun statements =>
    match statements with
    | parsed :: _ => Ret parsed
    | [] => Raise "tuple index out of range"
    end).

(** [SQLNormalizer.normalize_sql]. *)
Definition normalize_sql (sql_query : string) : string :=
  if String.eqb sql_query "" || String.eqb (strip sql_query) "" then ""
  else
    try_except
      (bind (first_statement sql_query) (fun parsed =>
         Ret (_normalize_statement parsed)))
      (fun _ => _basic_normalize sql_query).

End Normalize.

End SQLNormalizer.

(** * exact_match.py: the Exact Match metric *)

Module ExactMatch.
Import PyStr SQLNormalizer.

Section ExactMatch.

Context {S : Type}.
Variable sqlparse_parse : string -> Exc (list Statement).

(** [ExactMatchMetric._analyze_differences]: the diagnostics added to the
    details of a mismatch (first differing position, differing words,
    common error patterns).  They have no part in the score; the metric is
    stated for whatever they contain, and also for the case they raise. *)
Variable _analyze_differences : string -> string -> Exc (list (string * PyVal)).

Definition EM_NAME : string := "Exact Match (EM)".

(** [ExactMatchMetric._evaluate_exact_match]. *)
Definition _evaluate_exact_match (context : EvaluationContext) : Exc MetricResult :=
  match ground_truth_sql context, predicted_sql context with
  | Some gt, Some pred =>
      if negb (truthy (Some gt)) || negb (truthy (Some pred)) then
        Ret (_create_result EM_NAME 0 false
               [("ground_truth_normalized", PStr "");
                ("predicted_normalized", PStr "");
                ("reason", PStr "Empty or missing SQL query")] None)
      else
        let gt_normalized := normalize_sql sqlparse_parse gt in
        let pred_normalized := normalize_sql sqlparse_parse pred in
        let is_exact_match := String.eqb gt_normalized pred_normalized in
        let details :=
          [("ground_truth_original", PStr gt);
           ("predicted_original", PStr pred);
           ("ground_truth_normalized", PStr gt_normalized);
           ("predicted_normalized", PStr pred_normalized);
           ("match", PBool is_exact_match)] in
        bind (if negb is_exact_match
              then bind (_analyze_differences gt_normalized pred_normalized)
                        (fun analysis => Ret (dict_update details analysis))
              else Ret details)
          (fun details =>
             Ret (_create_result EM_NAME (if is_exact_match then 1 else 0)
                    is_exact_match details None))
  | _, _ =>
      Ret (_create_result EM_NAME 0 false
             [("ground_truth_normalized", PStr "");
              ("predicted_normalized", PStr "");
              ("reason", PStr "Empty or missing SQL query")] None)
  end.

(** [ExactMatchMetric]: the metric object. *)
Definition ExactMatchMetric : Metric S :=
  {| name := EM_NAME;
     inner := fun context st => (_evaluate_exact_match context, st) |}.

End ExactMatch.

End ExactMatch.

(** * execution_accuracy.py: the Execution Accuracy metric *)

Module ExecutionAccuracy.
Import PyStr.

(** A value of a result row as the driver returns it.  A [float] is given by
    the rational it denotes (infinities and NaN are left out); an object
    with an [isoformat] method (date, time, datetime) by the text that
    method returns; any other object by its [str()]. *)
Inductive Value : Type :=
| VNone
| VBool (b : bool)
| VInt (z : Z)
| VFloat (x : Qc)
| VStr (s : string)
| VTemporal (isoformat : string)
| VObject (str : string).

(** A row is a tuple of values. *)
Definition Row : Type := list Value.

(** A normalized value, as a key of a [Counter].  Python compares and
    hashes numbers by their numeric value ([True == 1 == 1.0]), so a number
    is kept as the rational it denotes; two keys are then equal in Python
    exactly when they are equal here. *)
Inductive NValue : Type :=
| NNone
| NNum (x : Qc)
| NStr (s : string).

Definition NRow : Type := list NValue.

#[global] Instance NValue_eq_dec : EqDecision NValue.
Proof. solve_decision. Defined.

Definition NValue_encode (v : NValue) : unit + (Qc + string) :=
  match v with
  | NNone => inl tt
  | NNum x => inr (inl x)
  | NStr s => inr (inr s)
  end.

Definition NValue_decode (e : unit + (Qc + string)) : NValue :=
  match e with
  | inl _ => NNone
  | inr (inl x) => NNum x
  | inr (inr s) => NStr s
  end.

#[global] Instance NValue_countable : Countable NValue.
Proof.
  refine (inj_countable' NValue_encode NValue_decode _).
  intros []; reflexivity.
Defined.

Definition nvalue_to_py (v : NValue) : PyVal :=
  match v with
  | NNone => PNone
  | NNum x => PNum (this x)
  | NStr s => PStr s
  end.

Definition nrow_to_py (r : NRow) : PyVal := PList (map nvalue_to_py r).

(** The distinct elements of a list in the order of their first
    occurrence: the keys of [Counter(l)] in insertion order. *)
Fixpoint distinct_from (seen : list NRow) (l : list NRow) : list NRow :=
  match l with
  | [] => []
  | x :: l' =>
      if bool_decide (x ∈ seen) then distinct_from seen l'
      else x :: distinct_from (x :: seen) l'
  end.

(** [list((a - b).elements())] for the counters of two lists. *)
Definition counter_sub_elements (la lb : list NRow) : list NRow :=
  let a : gmultiset NRow := list_to_set_disj la in
  let b : gmultiset NRow := list_to_set_disj lb in
  flat_map (fun x => replicate (multiplicity x a - multiplicity x b) x)
           (distinct_from [] la).

Section ExecutionAccuracy.

(** [round(value, 10)] on floats. *)
Variable round10 : Qc -> Qc.

(** The database: the state of the server and of the sessions. *)
Variable World : Type.

(** The driver.  [execute_query] is the method of the project's own
    connection class and returns a pair [(results, error)];
    [open_cursor] is [get_raw_connection().cursor()] or [cursor()];
    [cursor_execute] and [cursor_fetchall] are the DB-API calls on that
    cursor.  Each may raise and may change the database. *)
Variable execute_query :
  Connection -> string -> World -> Exc (option (list Row) * option string) * World.
Variable open_cursor : Connection -> World -> Exc unit * World.
Variable cursor_execute : Connection -> string -> World -> Exc unit * World.
Variable cursor_fetchall : Connection -> World -> Exc (list Row) * World.

(** The state the metric acts on: the database, and the statements
    submitted to it so far (the log is only there to state what was, or was
    not, run). *)
Record DbState : Type := mkDbState {
  world : World;
  executed : list string
}.

Definition log_statement (sql : string) (st : DbState) : DbState :=
  {| world := world st; executed := executed st ++ [sql] |}.

Definition with_world {A : Type} (f : World -> A * World) (st : DbState)
    : A * DbState :=
  let (a, w) := f (world st) in (a, {| world := w; executed := executed st |}).

Definition EX_NAME : string := "Execution Accuracy (EX)".

Definition execution_error (e : string) : option (list Row) * option string :=
  (None, Some ("Query execution error: " +:+ e)).

(** The two cursor branches of [_execute_query]: set the statement
    timeout, run the statement, fetch the rows; a statement that returns no
    rows gives the empty list. *)
Definition run_on_cursor (execution_timeout : Z) (sql_query : string)
    (conn : Connection) (st : DbState)
    : (option (list Row) * option string) * DbState :=
  match with_world (open_cursor conn) st with
  | (Raise e, st) => (execution_error e, st)
  | (Ret _, st) =>
      let set_timeout :=
        "SET statement_timeout = " +:+ pretty (execution_timeout * 1000)%Z in
      match with_world (cursor_execute conn set_timeout) (log_statement set_timeout st) with
      | (Raise e, st) => (execution_error e, st)
      | (Ret _, st) =>
          match with_world (cursor_execute conn sql_query) (log_statement sql_query st) with
          | (Raise e, st) => (execution_error e, st)
          | (Ret _, st) =>
              match with_world (cursor_fetchall conn) st with
              | (Ret results, st) => ((Some results, None), st)
              | (Raise _, st) => ((Some [], None), st)
              end
          end
      end
  end.

(** [ExecutionAccuracyMetric._execute_query]. *)
Definition _execute_query (execution_timeout : Z) (sql_query : string)
    (db_connection : Connection) (st : DbState)
    : (option (list Row) * option string) * DbState :=
  match conn_kind db_connection with
  | HasExecuteQuery =>
      match with_world (execute_query db_connection sql_query)
                       (log_statement sql_query st) with
      | (Ret r, st) => (r, st)
      | (Raise e, st) => (execution_error e, st)
      end
  | HasGetRawConnection | PlainConnection =>
      run_on_cursor execution_timeout sql_query db_connection st
  end.

(** [ExecutionAccuracyMetric._normalize_value].  A [bool] is an [int] for
    [isinstance], so it leaves through the numeric branch unchanged. *)
Definition _normalize_value (value : Value) : NValue :=
  match value with
  | VNone => NNone
  | VBool b => NNum (if b then 1 else 0)%Qc
  | VInt z => NNum (Q2Qc (inject_Z z))
  | VFloat x => NNum (round10 x)
  | VStr s => NStr (strip s)
  | VTemporal isoformat => NStr isoformat
  | VObject str => NStr str
  end.

(** [ExecutionAccuracyMetric._normalize_results]. *)
Definition _normalize_results (results : list Row) : list NRow :=
  map (fun row => map _normalize_value row) results.

Definition or_empty (results : option (list Row)) : list Row :=
  match results with
  | None => []
  | Some rows => rows
  end.

(** [ExecutionAccuracyMetric._compare_results]. *)
Definition _compare_results (gt_results pred_results : option (list Row))
    : bool * list (string * PyVal) :=
  let gt_results := or_empty gt_results in
  let pred_results := or_empty pred_results in
  let gt_size := Z.of_nat (length gt_results) in
  let pred_size := Z.of_nat (length pred_results) in
  if negb (length gt_results =? length pred_results)%nat then
    (false, [("size_mismatch", PBool true);
             ("gt_size", PInt gt_size);
             ("pred_size", PInt pred_size);
             ("size_difference", PInt (pred_size - gt_size))])
  else if (length gt_results =? 0)%nat then
    (true, [("both_empty", PBool true);
            ("gt_size", PInt 0);
            ("pred_size", PInt 0)])
  else
    let gt_normalized := _normalize_results gt_results in
    let pred_normalized := _normalize_results pred_results in
    let gt_counter : gmultiset NRow := list_to_set_disj gt_normalized in
    let pred_counter : gmultiset NRow := list_to_set_disj pred_normalized in
    let results_match := bool_decide (gt_counter = pred_counter) in
    let comparison_details :=
      [("gt_size", PInt gt_size);
       ("pred_size", PInt pred_size);
       ("normalized_match", PBool results_match)] in
    if results_match then (results_match, comparison_details)
    else
      let missing_rows := counter_sub_elements gt_normalized pred_normalized in
      let extra_rows := counter_sub_elements pred_normalized gt_normalized in
      let intersection_size := size (gt_counter ∩ pred_counter) in
      let union_size := size (gt_counter ∪ pred_counter) in
      let overlap_ratio :=
        if (0 <? union_size)%nat
        then (inject_Z (Z.of_nat intersection_size) / inject_Z (Z.of_nat union_size))%Q
        else 0%Q in
      (results_match,
       comparison_details ++
       [("missing_rows_count", PInt (Z.of_nat (length missing_rows)));
        ("extra_rows_count", PInt (Z.of_nat (length extra_rows)));
        ("missing_rows_sample", PList (map nrow_to_py (take 5 missing_rows)));
        ("extra_rows_sample", PList (map nrow_to_py (take 5 extra_rows)));
        ("overlap_ratio", PNum overlap_ratio)]).

(** [len(result) if result else 0]. *)
Definition row_count (result : option (list Row)) : Z :=
  Z.of_nat (length (or_empty result)).

Definition is_none {A : Type} (o : option A) : bool :=
  match o with
  | None => true
  | Some _ => false
  end.

(** [ExecutionAccuracyMetric._evaluate_execution]. *)
Definition _evaluate_execution (execution_timeout : Z)
    (context : EvaluationContext) (st : DbState) : Exc MetricResult * DbState :=
  if negb (truthy (ground_truth_sql context)) || negb (truthy (predicted_sql context))
  then
    (Ret (_create_result EX_NAME 0 false
            [("reason", PStr "Empty or missing SQL query");
             ("ground_truth_executed", PBool false);
             ("predicted_executed", PBool false)] None), st)
  else
    match ground_truth_sql context, predicted_sql context, database_connection context with
    | Some gt_sql, Some pred_sql, Some conn =>
        let '((gt_result, gt_error), st) :=
          _execute_query execution_timeout gt_sql conn st in
        let '((pred_result, pred_error), st) :=
          _execute_query execution_timeout pred_sql conn st in
        if truthy gt_error then
          (Ret (_create_result EX_NAME 0 false
                  [("reason", PStr "Ground truth query execution failed");
                   ("ground_truth_error", opt_str gt_error);
                   ("predicted_executed", PBool (is_none pred_error))]
                  (Some ("Ground truth query failed: " +:+ default "" gt_error))), st)
        else if truthy pred_error then
          (Ret (_create_result EX_NAME 0 false
                  [("reason", PStr "Predicted query execution failed");
                   ("predicted_error", opt_str pred_error);
                   ("ground_truth_executed", PBool true);
                   ("ground_truth_rows", PInt (row_count gt_result))]
                  (Some ("Predicted query failed: " +:+ default "" pred_error))), st)
        else
          let (results_match, comparison_details) :=
            _compare_results gt_result pred_result in
          (Ret (_create_result EX_NAME (if results_match then 1 else 0)
                  results_match
                  [("ground_truth_executed", PBool true);
                   ("predicted_executed", PBool true);
                   ("ground_truth_rows", PInt (row_count gt_result));
                   ("predicted_rows", PInt (row_count pred_result));
                   ("results_match", PBool results_match);
                   ("comparison_details", PDict comparison_details)] None), st)
    | _, _, _ =>
        (Ret (_create_result EX_NAME 0 false
                [("reason", PStr "No database connection provided")]
                (Some "Database connection required for execution accuracy")), st)
    end.

(** [ExecutionAccuracyMetric(execution_timeout)]: the metric object. *)
Definition ExecutionAccuracyMetric (execution_timeout : Z) : Metric DbState :=
  {| name := EX_NAME; inner := _evaluate_execution execution_timeout |}.

End ExecutionAccuracy.

End ExecutionAccuracy.

(** * improved_sql_parser.py: ImprovedColumnComparator *)

Module ColumnComparator.
Import PyStr.

(** The pattern character [.]: anything but a line feed. *)
Definition is_dot (c : ascii) : bool := negb (char_eqb c LF).

(** [.*$] against the whole of [s]: the text matched, if any.  Without
    [re.MULTILINE] the end anchor also holds before a final line feed. *)
Fixpoint dot_star_end (s : string) : option string :=
  match s with
  | "" => Some ""
  | String c s' =>
      if char_eqb c LF then (if String.eqb s' "" then Some "" else None)
      else option_map (String c) (dot_star_end s')
  end.

(** [(.+)$]. *)
Definition dot_plus_end (s : string) : option string :=
  match s with
  | "" => None
  | String c s' =>
      if is_dot c then option_map (String c) (dot_star_end s') else None
  end.

(** [\s+(.+)$] with a greedy run of white space: the text of the group. *)
Fixpoint ws_then_group (s : string) : option string :=
  match s with
  | "" => None
  | String c s' =>
      if is_space c then
        match ws_then_group s' with
        | Some g => Some g
        | None => dot_plus_end s'
        end
      else None
  end.

(** [\s+AS\s+(.+)$] at the start of [r], ignoring case. *)
Definition as_clause (r : string) : option string :=
  match r with
  | "" => None
  | String c _ =>
      if is_space c then
        let t := lstrip r in
        if startswith_ci "AS" t then ws_then_group (drop 2 t) else None
      else None
  end.

(** The lazy first group of [^(.+?)\s+AS\s+(.+)$]: [expr] is the text taken
    so far, extended one character at a time until the rest matches. *)
Fixpoint as_match_from (expr : string) (r : string) : option (string * string) :=
  match as_clause r with
  | Some alias => Some (expr, alias)
  | None =>
      match r with
      | "" => None
      | String c r' =>
          if is_dot c then as_match_from (expr +:+ String c "") r' else None
      end
  end.

(** [re.match(r'^(.+?)\s+AS\s+(.+)$', item, re.IGNORECASE)]: the two
    groups. *)
Definition as_match (item : string) : option (string * string) :=
  match item with
  | "" => None
  | String c r => if is_dot c then as_match_from (String c "") r else None
  end.

(** [re.match(r'^[a-zA-Z_][a-zA-Z0-9_]*$', w)]. *)
Fixpoint identifier_rest (s : string) : bool :=
  match s with
  | "" => true
  | String c s' =>
      if is_word c then identifier_rest s'
      else char_eqb c LF && String.eqb s' ""
  end.

Definition is_identifier (w : string) : bool :=
  match w with
  | "" => false
  | String c s' => (is_alpha c || char_eqb c "_") && identifier_rest s'
  end.

(** [re.match(r'.+\([^)]*\)$', w)]. *)
Fixpoint call_args_end (s : string) : bool :=
  match s with
  | "" => false
  | String c s' =>
      if char_eqb c ")"
      then String.eqb s' "" || String.eqb s' (String LF "")
      else call_args_end s'
  end.

Definition call_tail (s : string) : bool :=
  match s with
  | "" => false
  | String c s' => char_eqb c "(" && call_args_end s'
  end.

Fixpoint call_from (s : string) : bool :=
  call_tail s ||
  match s with
  | "" => false
  | String c s' => is_dot c && call_from s'
  end.

Definition looks_like_call (w : string) : bool :=
  match w with
  | "" => false
  | String c s' => is_dot c && call_from s'
  end.

(** The words that are never taken for an implicit alias. *)
Definition NOT_AN_ALIAS : list string :=
  ["FROM"; "WHERE"; "GROUP"; "ORDER"; "HAVING"; "LIMIT"; "AND"; "OR"; "NOT";
   "IN"; "EXISTS"; "LIKE"; "BETWEEN"; "IS"; "NULL"; "TRUE"; "FALSE";
   "ASC"; "DESC"; "DISTINCT"; "ALL"; "ANY"; "SOME"].

(** The function names of [_normalize_expression], in the order of the
    alternation. *)
Definition FUNCTION_NAMES : list string :=
  ["count"; "sum"; "avg"; "min"; "max"; "extract"].

(** [\b] after the first [n] characters of [s], which end in a word
    character. *)
Definition boundary_after (n : nat) (s : string) : bool :=
  match drop n s with
  | "" => true
  | String c _ => negb (is_word c)
  end.

(** The length of the function name that [(count|sum|...)\b] matches at the
    start of [s], ignoring case. *)
Definition function_name_at (s : string) : option nat :=
  String.length <$>
    find (fun n => startswith_ci n s && boundary_after (String.length n) s)
         FUNCTION_NAMES.

(** [re.sub(r'\b(count|sum|avg|min|max|extract)\b', upper, s, IGNORECASE)].
    [prev_word] tells that the previous character is a word character;
    [skip] counts the characters of the current match still to upper-case. *)
Fixpoint upper_function_names (prev_word : bool) (skip : nat) (s : string) : string :=
  match s with
  | "" => ""
  | String c s' =>
      match skip with
      | S k => String (upper_char c) (upper_function_names (is_word c) k s')
      | O =>
          match (if prev_word then None else function_name_at s) with
          | Some n =>
              String (upper_char c) (upper_function_names (is_word c) (n - 1) s')
          | None => String c (upper_function_names (is_word c) 0 s')
          end
      end
  end.

(** [ImprovedColumnComparator._normalize_expression]. *)
Definition _normalize_expression (expression : string) : string :=
  let expr := strip expression in
  let expr := upper_function_names false 0 expr in
  collapse_ws expr.

(** The mark that stands for "this item has some alias". *)
Definition ALIAS_MARK : string := " AS <alias>".

(** [ImprovedColumnComparator._create_normalized_expression]: the alias
    itself is dropped. *)
Definition _create_normalized_expression (expression alias : string) : string :=
  _normalize_expression expression +:+ ALIAS_MARK.

(** [ImprovedColumnComparator._normalize_select_item]. *)
Definition _normalize_select_item (item : string) : string :=
  let item := strip item in
  match as_match item with
  | Some (expression, alias) =>
      _create_normalized_expression (strip expression) (strip alias)
  | None =>
      let words := split_ws item in
      match last words with
      | Some potential_alias =>
          if (2 <=? length words)%nat
             && is_identifier potential_alias
             && negb (in_list_str (upper potential_alias) NOT_AN_ALIAS)
             && negb (looks_like_call potential_alias)
          then _create_normalized_expression
                 (join " " (removelast words)) potential_alias
          else _normalize_expression item
      | None => _normalize_expression item
      end
  end.

(** [ImprovedColumnComparator.extract_select_items]. *)
Definition extract_select_items (select_clause : string) : list string :=
  if String.eqb (strip select_clause) "" then []
  else
    let clause := remove_leading_keyword "SELECT" (strip select_clause) in
    flat_map (fun item =>
                let item := strip item in
                if String.eqb item "" then []
                else [_normalize_select_item item])
             (split_char "," clause).

(** [max(a, b)] on scores. *)
Definition qmax (a b : Q) : Q := if Qle_bool b a then a else b.

(** [ImprovedColumnComparator._compare_individual_items]. *)
Definition _compare_individual_items (gt_item pred_item : string) : Q :=
  if String.eqb gt_item pred_item then 1%Q
  else
    let gt_has_alias := contains ALIAS_MARK gt_item in
    let pred_has_alias := contains ALIAS_MARK pred_item in
    if gt_has_alias && pred_has_alias then
      let gt_base := replace ALIAS_MARK "" gt_item in
      let pred_base := replace ALIAS_MARK "" pred_item in
      if String.eqb gt_base pred_base then 1%Q else 0%Q
    else if gt_has_alias && negb pred_has_alias then
      let gt_base := replace ALIAS_MARK "" gt_item in
      if String.eqb gt_base pred_item then 0.7%Q else 0%Q
    else if negb gt_has_alias && pred_has_alias then
      let pred_base := replace ALIAS_MARK "" pred_item in
      if String.eqb gt_item pred_base then 0.7%Q else 0%Q
    else
      if String.eqb gt_item pred_item then 1%Q else 0%Q.

(** [len(a & b) / len(a | b) if len(a | b) > 0 else 0.0] for two sets of
    strings: the Jaccard index. *)
Definition jaccard (a b : gset string) : Q :=
  let intersection := size (a ∩ b) in
  let union := size (a ∪ b) in
  if (0 <? union)%nat
  then (inject_Z (Z.of_nat intersection) / inject_Z (Z.of_nat union))%Q
  else 0%Q.

(** The inner loop of [_calculate_flexible_similarity]: the best match of
    one reference item among the predicted items. *)
Definition best_match (gt_item : string) (pred_normalized : list string) : Q :=
  fold_left (fun best pred_item =>
               qmax best (_compare_individual_items gt_item pred_item))
            pred_normalized 0%Q.

(** The outer loop: the sum of the best matches. *)
Definition total_similarity (gt_normalized pred_normalized : list string) : Q :=
  fold_left (fun total gt_item => (total + best_match gt_item pred_normalized)%Q)
            gt_normalized 0%Q.

(** [ImprovedColumnComparator._calculate_flexible_similarity]. *)
Definition _calculate_flexible_similarity
    (gt_normalized pred_normalized : list string) : Q :=
  if negb (length gt_normalized =? length pred_normalized)%nat then
    jaccard (list_to_set gt_normalized) (list_to_set pred_normalized)
  else
    match gt_normalized with
    | [] => 0%Q
    | _ => (total_similarity gt_normalized pred_normalized
            / inject_Z (Z.of_nat (length gt_normalized)))%Q
    end.

(** The dictionary that [compare_select_items] returns. *)
Record Comparison : Type := mkComparison {
  jaccard_similarity : Q;
  gt_items : list string;
  pred_items : list string;
  gt_normalized : list string;
  pred_normalized : list string;
  exact_match : bool
}.

Definition is_nil {A : Type} (l : list A) : bool :=
  match l with
  | [] => true
  | _ => false
  end.

(** [ImprovedColumnComparator.compare_select_items]. *)
Definition compare_select_items (gt_items pred_items : list string) : Comparison :=
  let gt_normalized := map _normalize_select_item gt_items in
  let pred_normalized := map _normalize_select_item pred_items in
  if is_nil gt_normalized && is_nil pred_normalized then
    mkComparison 1 gt_items pred_items gt_normalized pred_normalized true
  else if is_nil gt_normalized || is_nil pred_normalized then
    mkComparison 0 gt_items pred_items gt_normalized pred_normalized false
  else
    let jaccard :=
      _calculate_flexible_similarity gt_normalized pred_normalized in
    mkComparison jaccard gt_items pred_items gt_normalized pred_normalized
                 (Qeq_bool jaccard 1).

End ColumnComparator.

(** * improved_sql_parser.py: ImprovedSQLParser *)

Module SQLParser.
Import PyStr SQLNormalizer.

(** The clause texts of one statement: a [dict] from clause name to text. *)
Abbreviation Components := (gmap string string).

(** [ImprovedSQLParser._empty_components]. *)
Definition _empty_components : Components :=
  list_to_map
    [("select", ""); ("from", ""); ("where", ""); ("group_by", "");
     ("having", ""); ("order_by", ""); ("limit", ""); ("joins", "")].

(** [parsed.flatten()]: the plain tokens of a statement, in order. *)
Fixpoint flatten (t : Token) : list (TType * string) :=
  match t with
  | Leaf ttype value => [(ttype, value)]
  | Group tokens => flat_map flatten tokens
  end.

Definition is_keyword (t : TType) : bool :=
  match t with
  | Keyword => true
  | _ => false
  end.

(** The clause a top-level keyword opens, if it opens one. *)
Definition clause_of_keyword (token_upper : string) : option string :=
  if String.eqb token_upper "SELECT" then Some "select"
  else if String.eqb token_upper "FROM" then Some "from"
  else if String.eqb token_upper "WHERE" then Some "where"
  else if in_list_str token_upper ["GROUP"; "GROUP BY"] then Some "group_by"
  else if String.eqb token_upper "HAVING" then Some "having"
  else if in_list_str token_upper ["ORDER"; "ORDER BY"] then Some "order_by"
  else if String.eqb token_upper "LIMIT" then Some "limit"
  else if in_list_str token_upper ["JOIN"; "INNER"; "LEFT"; "RIGHT"; "FULL"; "CROSS"]
  then Some "joins"
  else None.

(** The variables of the loop of [_advanced_component_extraction]. *)
Record Scan : Type := mkScan {
  components : Components;
  current_component : option string;
  paren_depth : Z
}.

(** One turn of that loop. *)
Definition scan_token (st : Scan) (token : TType * string) : Scan :=
  let (ttype, value) := token in
  if is_whitespace ttype then st
  else
    let paren_depth :=
      if String.eqb value "(" then (paren_depth st + 1)%Z
      else if String.eqb value ")" then (paren_depth st - 1)%Z
      else paren_depth st in
    if (paren_depth =? 0)%Z && is_keyword ttype then
      let current :=
        match clause_of_keyword (upper value) with
        | Some c => Some c
        | None => current_component st
        end in
      mkScan (components st) current paren_depth
    else
      match current_component st with
      | Some c =>
          match components st !! c with
          | Some text =>
              let text' :=
                if String.eqb text "" then value else text +:+ " " +:+ value in
              mkScan (<[c := text']> (components st)) (Some c) paren_depth
          | None => mkScan (components st) (Some c) paren_depth
          end
      | None => mkScan (components st) None paren_depth
      end.

Definition nonempty (s : option string) : bool := truthy s.

Section Parser.

Variable sqlparse_parse : string -> Exc (list Statement).

(** [ImprovedSQLParser._regex_component_extraction]: the fallback that
    cuts the statement at clause keywords with regular expressions. *)
Variable _regex_component_extraction : string -> Components.

(** [ImprovedSQLParser._advanced_component_extraction]. *)
Definition _advanced_component_extraction (sql_query : string) : Exc Components :=
  bind (first_statement sqlparse_parse sql_query) (fun parsed =>
    let final :=
      fold_left scan_token (flatten (Group parsed))
                (mkScan _empty_components None 0) in
    Ret (strip <$> components final)).

(** [ImprovedSQLParser.extract_components]. *)
Definition extract_components (sql_query : string) : Components :=
  if String.eqb sql_query "" || String.eqb (strip sql_query) "" then
    _empty_components
  else
    match _advanced_component_extraction sql_query with
    | Ret components =>
        if nonempty (components !! "select")
           || nonempty (components !! "from")
           || nonempty (components !! "where")
        then components
        else _regex_component_extraction sql_query
    | Raise _ => _regex_component_extraction sql_query
    end.

End Parser.

End SQLParser.

(** * component_matching.py: the Component Matching metric *)

Module ComponentMatching.
Import PyStr SQLNormalizer SQLParser ColumnComparator.

(** [self.clause_weights], in the order of the dictionary. *)
Definition clause_weights : list (string * Q) :=
  [("select", 0.25%Q); ("from", 0.20%Q); ("where", 0.20%Q); ("joins", 0.15%Q);
   ("group_by", 0.10%Q); ("order_by", 0.05%Q); ("having", 0.03%Q);
   ("limit", 0.02%Q)].

(** [\w+\s*$] at the start of [t]. *)
Definition word_then_end (t : string) : bool :=
  match t with
  | "" => false
  | String c _ =>
      is_word c && String.eqb (lstrip (lstrip_with is_word t)) ""
  end.

(** [\s+(AS\s+)?\w+\s*$] at the start of [r], ignoring case. *)
Definition alias_tail (r : string) : bool :=
  match r with
  | "" => false
  | String c _ =>
      is_space c &&
      (let t := lstrip r in
       (startswith_ci "AS" t &&
        match drop 2 t with
        | "" => false
        | String d _ as u => is_space d && word_then_end (lstrip u)
        end)
       || word_then_end t)
  end.

(** [re.sub(r'\s+(AS\s+)?\w+\s*$', '', table, flags=re.IGNORECASE)]: the
    text before the leftmost place where the pattern matches. *)
Fixpoint remove_table_alias (table : string) : string :=
  if alias_tail table then ""
  else
    match table with
    | "" => ""
    | String c table' => String c (remove_table_alias table')
    end.

Definition is_quote (c : ascii) : bool :=
  char_eqb c DQUOTE || char_eqb c "'" || char_eqb c "`".

(** [ComponentMatchingMetric._extract_table_names]. *)
Definition _extract_table_names (from_clause : string) : list string :=
  if String.eqb (strip from_clause) "" then []
  else
    let clause := remove_leading_keyword "FROM" (strip from_clause) in
    flat_map (fun table =>
                let table := strip table in
                if String.eqb table "" then []
                else
                  let table := remove_table_alias table in
                  let table := strip table in
                  [strip_with is_quote table])
             (split_char "," clause).

(** [\s+(AND|OR)\s+] at the start of [s], ignoring case: the length of the
    match and the text of the group. *)
Definition and_or_at (s : string) : option (nat * string) :=
  match s with
  | "" => None
  | String c _ =>
      if is_space c then
        let t := lstrip s in
        let lead := (String.length s - String.length t)%nat in
        let after (n : nat) : option (nat * string) :=
          match drop n t with
          | "" => None
          | String d _ as u =>
              if is_space d
              then Some ((lead + n + (String.length u - String.length (lstrip u)))%nat,
                         String.substring 0 n t)
              else None
          end in
        if startswith_ci "AND" t then after 3%nat
        else if startswith_ci "OR" t then after 2%nat
        else None
      else None
  end.

(** [re.split(r'\s+(AND|OR)\s+', clause, flags=re.IGNORECASE)]: the texts
    between the separators, with the separators themselves in between.
    [cur] is the text being read, [skip] counts the characters of the
    current separator still to be passed over. *)
Fixpoint split_and_or (cur : string) (skip : nat) (s : string) : list string :=
  match s with
  | "" => [cur]
  | String c s' =>
      match skip with
      | S k => split_and_or cur k s'
      | O =>
          match and_or_at s with
          | Some (n, sep) => cur :: sep :: split_and_or "" (n - 1) s'
          | None => split_and_or (cur +:+ String c "") 0 s'
          end
      end
  end.

(** A clause score together with its entry in [component_details]. *)
Definition Scored : Type := Q * list (string * PyVal).

Definition str_list (l : list string) : PyVal := PList (map PStr l).

Definition comparison_details (c : Comparison) : list (string * PyVal) :=
  [("jaccard_similarity", PNum (jaccard_similarity c));
   ("gt_items", str_list (gt_items c));
   ("pred_items", str_list (pred_items c));
   ("gt_normalized", str_list (gt_normalized c));
   ("pred_normalized", str_list (pred_normalized c));
   ("exact_match", PBool (exact_match c))].

Definition blank (s : string) : bool := String.eqb (strip s) "".

(** The Jaccard index of two lists read as sets, with the details that
    [_evaluate_from_clause] and [_evaluate_where_clause] report. *)
Definition set_overlap (gt_key pred_key : string) (gt_list pred_list : list string)
    : Scored :=
  let gt_set : gset string := list_to_set gt_list in
  let pred_set : gset string := list_to_set pred_list in
  if bool_decide (gt_set = ∅) && bool_decide (pred_set = ∅) then
    (1%Q, [("match", PStr "both_empty_after_parsing")])
  else if bool_decide (gt_set = ∅) || bool_decide (pred_set = ∅) then
    (0%Q, [("match", PStr "one_empty_after_parsing")])
  else
    let intersection := size (gt_set ∩ pred_set) in
    let union := size (gt_set ∪ pred_set) in
    let score := jaccard gt_set pred_set in
    (score,
     [(gt_key, str_list gt_list);
      (pred_key, str_list pred_list);
      ("intersection_count", PInt (Z.of_nat intersection));
      ("union_count", PInt (Z.of_nat union));
      ("jaccard_similarity", PNum score)]).

(** [ComponentMatchingMetric._evaluate_select_clause]. *)
Definition _evaluate_select_clause (gt_select pred_select : string) : Scored :=
  if blank gt_select && blank pred_select then
    (1%Q, [("match", PStr "both_empty")])
  else if blank gt_select || blank pred_select then
    (0%Q, [("match", PStr "one_empty");
           ("gt_select", PStr gt_select);
           ("pred_select", PStr pred_select)])
  else
    let gt_columns := extract_select_items gt_select in
    let pred_columns := extract_select_items pred_select in
    let comparison := compare_select_items gt_columns pred_columns in
    (jaccard_similarity comparison, comparison_details comparison).

(** [ComponentMatchingMetric._evaluate_from_clause]. *)
Definition _evaluate_from_clause (gt_from pred_from : string) : Scored :=
  if blank gt_from && blank pred_from then
    (1%Q, [("match", PStr "both_empty")])
  else if blank gt_from || blank pred_from then
    (0%Q, [("match", PStr "one_empty")])
  else
    set_overlap "gt_tables" "pred_tables"
      (_extract_table_names gt_from) (_extract_table_names pred_from).

(** [ComponentMatchingMetric._evaluate_limit_clause]. *)
Definition _evaluate_limit_clause (gt_limit pred_limit : string) : Scored :=
  if blank gt_limit && blank pred_limit then
    (1%Q, [("match", PStr "both_empty")])
  else if blank gt_limit || blank pred_limit then
    (0%Q, [("match", PStr "one_empty")])
  else
    let gt_numbers := find_numbers gt_limit in
    let pred_numbers := find_numbers pred_limit in
    let same := bool_decide (gt_numbers = pred_numbers) in
    ((if same then 1 else 0)%Q,
     [("gt_numbers", str_list gt_numbers);
      ("pred_numbers", str_list pred_numbers);
      ("match", PBool same)]).

Section Metric.

Context {S : Type}.
Variable sqlparse_parse : string -> Exc (list Statement).
Variable _regex_component_extraction : string -> Components.

(** [ComponentMatchingMetric._extract_conditions]. *)
Definition _extract_conditions (where_clause : string) : list string :=
  if String.eqb (strip where_clause) "" then []
  else
    let clause := remove_leading_keyword "WHERE" (strip where_clause) in
    flat_map (fun part =>
                if in_list_str (upper part) ["AND"; "OR"] then []
                else
                  let normalized := normalize_sql sqlparse_parse (strip part) in
                  if String.eqb normalized "" then [] else [normalized])
             (split_and_or "" 0 clause).

(** [ComponentMatchingMetric._evaluate_where_clause]. *)
Definition _evaluate_where_clause (gt_where pred_where : string) : Scored :=
  if blank gt_where && blank pred_where then
    (1%Q, [("match", PStr "both_empty")])
  else if blank gt_where || blank pred_where then
    (0%Q, [("match", PStr "one_empty")])
  else
    set_overlap "gt_conditions" "pred_conditions"
      (_extract_conditions gt_where) (_extract_conditions pred_where).

(** [ComponentMatchingMetric._evaluate_generic_clause]. *)
Definition _evaluate_generic_clause (gt_clause pred_clause : string) : Scored :=
  if blank gt_clause && blank pred_clause then
    (1%Q, [("match", PStr "both_empty")])
  else if blank gt_clause || blank pred_clause then
    (0%Q, [("match", PStr "one_empty")])
  else
    let gt_normalized := normalize_sql sqlparse_parse gt_clause in
    let pred_normalized := normalize_sql sqlparse_parse pred_clause in
    let same := String.eqb gt_normalized pred_normalized in
    ((if same then 1 else 0)%Q,
     [("gt_normalized", PStr gt_normalized);
      ("pred_normalized", PStr pred_normalized);
      ("exact_match", PBool same)]).

(** [ComponentMatchingMetric._evaluate_joins_clause]. *)
Definition _evaluate_joins_clause (gt_joins pred_joins : string) : Scored :=
  _evaluate_generic_clause gt_joins pred_joins.

(** [ComponentMatchingMetric._evaluate_component]. *)
Definition _evaluate_component (component_name gt_component pred_component : string)
    : Scored :=
  if String.eqb component_name "select" then
    _evaluate_select_clause gt_component pred_component
  else if String.eqb component_name "from" then
    _evaluate_from_clause gt_component pred_component
  else if String.eqb component_name "where" then
    _evaluate_where_clause gt_component pred_component
  else if String.eqb component_name "joins" then
    _evaluate_joins_clause gt_component pred_component
  else if in_list_str component_name ["group_by"; "order_by"; "having"] then
    _evaluate_generic_clause gt_component pred_component
  else if String.eqb component_name "limit" then
    _evaluate_limit_clause gt_component pred_component
  else
    _evaluate_generic_clause gt_component pred_component.

Definition CM_NAME : string := "Component Matching (CM)".

(** [components.get(component_name, '')]. *)
Definition get_component (components : Components) (component_name : string) : string :=
  default "" (components !! component_name).

(** The first loop of [_evaluate_components]: the score and the details of
    every clause, in the order of [clause_weights]. *)
Definition evaluate_all (gt_components pred_components : Components)
    : list (string * Scored) :=
  map (fun cw : string * Q =>
         let component_name := fst cw in
         (component_name,
          _evaluate_component component_name
            (get_component gt_components component_name)
            (get_component pred_components component_name)))
      clause_weights.

(** [component_scores[comp]]. *)
Fixpoint score_of (comp : string) (scored : list (string * Scored)) : Q :=
  match scored with
  | [] => 0%Q
  | entry :: rest =>
      if String.eqb comp (fst entry) then fst (snd entry)
      else score_of comp rest
  end.

(** [sum(component_scores[comp] * weight for comp, weight in
    self.clause_weights.items())]. *)
Definition weighted_sum (scored : list (string * Scored)) : Q :=
  fold_left (fun acc cw => (acc + score_of (fst cw) scored * snd cw)%Q)
            clause_weights 0%Q.

Definition components_to_py (c : Components) : PyVal :=
  PDict (map (fun kv => (fst kv, PStr (snd kv))) (map_to_list c)).

(** [ComponentMatchingMetric._evaluate_components]. *)
Definition _evaluate_components (context : EvaluationContext) : MetricResult :=
  match ground_truth_sql context, predicted_sql context with
  | Some gt, Some pred =>
      if negb (truthy (Some gt)) || negb (truthy (Some pred)) then
        _create_result CM_NAME 0 false
          [("reason", PStr "Empty or missing SQL query");
           ("component_scores", PDict [])] None
      else
        let gt_components :=
          extract_components sqlparse_parse _regex_component_extraction gt in
        let pred_components :=
          extract_components sqlparse_parse _regex_component_extraction pred in
        let scored := evaluate_all gt_components pred_components in
        let overall_score := weighted_sum scored in
        let is_correct := Qle_bool 0.8 overall_score in
        _create_result CM_NAME overall_score is_correct
          [("overall_score", PNum overall_score);
           ("component_scores",
            PDict (map (fun e => (fst e, PNum (fst (snd e)))) scored));
           ("component_details",
            PDict (map (fun e => (fst e, PDict (snd (snd e)))) scored));
           ("ground_truth_components", components_to_py gt_components);
           ("predicted_components", components_to_py pred_components);
           ("clause_weights",
            PDict (map (fun cw => (fst cw, PNum (snd cw))) clause_weights))]
          None
  | _, _ =>
      _create_result CM_NAME 0 false
        [("reason", PStr "Empty or missing SQL query");
         ("component_scores", PDict [])] None
  end.

(** [ComponentMatchingMetric]: the metric object. *)
Definition ComponentMatchingMetric : Metric S :=
  {| name := CM_NAME; inner := pure_func _evaluate_components |}.

End Metric.

End ComponentMatching.

(** * dag/tasks.py: aggregate_results *)

Module Aggregation.

(** One entry of [question_results['metrics']]. *)
Record QuestionMetric : Type := mkQuestionMetric {
  qm_score : Q;
  qm_is_correct : bool;
  qm_error : option string
}.

(** One element of [detailed_results], with the keys that
    [aggregate_results] reads. *)
Record QuestionResult : Type := mkQuestionResult {
  difficulty : string;
  agent_success : bool;
  metrics : list (string * QuestionMetric)
}.

Record AgentStats : Type := mkAgentStats {
  success_count : Z;
  failure_count : Z;
  total_time : Q
}.

(** The dictionary that [evaluate_questions] returns. *)
Record EvaluateQuestions : Type := mkEvaluateQuestions {
  detailed_results : list QuestionResult;
  agent_stats : AgentStats;
  metric_scores : list (string * list Q);
  total_questions : Z
}.

(** One entry of [aggregated_metrics]. *)
Record MetricStats : Type := mkMetricStats {
  average_score : Q;
  accuracy : Q;
  perfect_matches : Z;
  total_evaluated : Z
}.

(** [sum(scores)]. *)
Definition sum_scores (scores : list Q) : Q := fold_left Qplus scores 0%Q.

(** [sum(1 for s in scores if p(s))]. *)
Definition count_if {A : Type} (p : A -> bool) (l : list A) : Z :=
  Z.of_nat (length (filter (fun x => p x = true) l)).

Definition len {A : Type} (l : list A) : Z := Z.of_nat (length l).

(** The body of the loop over [metric_scores.items()]. *)
Definition metric_stats (scores : list Q) : MetricStats :=
  match scores with
  | [] => mkMetricStats 0 0 0 0
  | _ =>
      let avg_score := (sum_scores scores / inject_Z (len scores))%Q in
      let accuracy :=
        (inject_Z (count_if (fun s => Qle_bool 0.8 s) scores)
         / inject_Z (len scores))%Q in
      let perfect := count_if (fun s => Qeq_bool s 1) scores in
      mkMetricStats avg_score accuracy perfect (len scores)
  end.

(** The statistics of one metric within one difficulty level. *)
Record DifficultyMetric : Type := mkDifficultyMetric {
  dm_correct : Z;
  dm_total : Z;
  dm_scores : list Q
}.

Record DifficultyStats : Type := mkDifficultyStats {
  d_total : Z;
  d_agent_success : Z;
  d_metrics : gmap string DifficultyMetric
}.

(** The innermost loop of the difficulty breakdown: one metric result of
    one question. *)
Definition add_metric (acc : gmap string DifficultyMetric)
    (entry : string * QuestionMetric) : gmap string DifficultyMetric :=
  let (metric_name, metric_result) := entry in
  let old := default (mkDifficultyMetric 0 0 []) (acc !! metric_name) in
  <[metric_name :=
      mkDifficultyMetric
        (if qm_is_correct metric_result then dm_correct old + 1 else dm_correct old)%Z
        (dm_total old + 1)%Z
        (dm_scores old ++ [qm_score metric_result])]> acc.

(** The loop over [results] of the difficulty breakdown. *)
Definition add_question (difficulties : gmap string DifficultyStats)
    (r : QuestionResult) : gmap string DifficultyStats :=
  let old := default (mkDifficultyStats 0 0 ∅) (difficulties !! difficulty r) in
  let counted := mkDifficultyStats (d_total old + 1)%Z (d_agent_success old) (d_metrics old) in
  <[difficulty r :=
      if agent_success r then
        mkDifficultyStats (d_total counted) (d_agent_success counted + 1)%Z
          (fold_left add_metric (metrics r) (d_metrics counted))
      else counted]> difficulties.

Record Summary : Type := mkSummary {
  s_total_questions : Z;
  agent_success_rate : Q;
  agent_failure_rate : Q;
  total_execution_time : Q;
  avg_execution_time : Q
}.

(** The dictionary that [aggregate_results] returns (without its
    [timestamp], a reading of the clock). *)
Record Aggregate : Type := mkAggregate {
  summary : Summary;
  aggregated_metrics : list (string * MetricStats);
  difficulty_breakdown : gmap string DifficultyStats
}.

(** [aggregate_results]. *)
Definition aggregate_results (evaluate_questions : EvaluateQuestions) : Aggregate :=
  let results := detailed_results evaluate_questions in
  let stats := agent_stats evaluate_questions in
  let total := total_questions evaluate_questions in
  let per_total (x : Q) : Q :=
    if (0 <? total)%Z then (x / inject_Z total)%Q else 0%Q in
  {| summary :=
       {| s_total_questions := total;
          agent_success_rate := per_total (inject_Z (success_count stats));
          agent_failure_rate := per_total (inject_Z (failure_count stats));
          total_execution_time := total_time stats;
          avg_execution_time := per_total (total_time stats) |};
     aggregated_metrics :=
       map (fun entry : string * list Q => (fst entry, metric_stats (snd entry)))
           (metric_scores evaluate_questions);
     difficulty_breakdown := fold_left add_question results ∅ |}.

End Aggregation.

(** * dag/base.py: EvaluationDAG *)

Module Dag.

Section Dag.

(** The values tasks produce and consume ([Any]), with Python's [None]. *)
Variable Data : Type.
Variable py_none : Data.

(** [@dataclass TaskResult], without the two readings of the clock
    ([execution_time_ms], [timestamp]). *)
Record TaskResult : Type := mkTaskResult {
  task_name : string;
  success : bool;
  data : Data;
  error : option string
}.

(** [@dataclass TaskDefinition].  [func] is called with keyword arguments:
    it receives the dictionary of its inputs, and returns or raises. *)
Record TaskDefinition : Type := mkTaskDefinition {
  name : string;
  func : gmap string Data -> Exc Data;
  depends_on : list string;
  description : option string
}.

(** [nx.DiGraph]: the nodes and the edges, in the order they were added. *)
Record DiGraph : Type := mkDiGraph {
  nodes : list string;
  edges : list (string * string)
}.

Definition add_node (n : string) (g : DiGraph) : DiGraph :=
  if bool_decide (n ∈ nodes g) then g
  else mkDiGraph (nodes g ++ [n]) (edges g).

Definition add_edge (u v : string) (g : DiGraph) : DiGraph :=
  let g := add_node v (add_node u g) in
  if bool_decide ((u, v) ∈ edges g) then g
  else mkDiGraph (nodes g) (edges g ++ [(u, v)]).

(** The fields of an [EvaluationDAG]. *)
Record EvaluationDAG : Type := mkDAG {
  dag_name : string;
  graph : DiGraph;
  tasks : gmap string TaskDefinition;
  results : gmap string TaskResult
}.

(** [EvaluationDAG.__init__]. *)
Definition new_dag (name : string) : EvaluationDAG :=
  mkDAG name (mkDiGraph [] []) ∅ ∅.

(** The first dependency that is not a registered task. *)
Definition missing_dependency (dag : EvaluationDAG) (depends_on : list string)
    : option string :=
  find (fun dep => bool_decide (tasks dag !! dep = None)) depends_on.

(** [EvaluationDAG.add_task]; the two [ValueError]s are the [Raise]s. *)
Definition add_task (dag : EvaluationDAG) (name : string)
    (func : gmap string Data -> Exc Data) (depends_on : option (list string))
    (description : option string) : Exc EvaluationDAG :=
  if bool_decide (is_Some (tasks dag !! name)) then
    Raise ("Task '" +:+ name +:+ "' already exists in DAG")
  else
    let depends_on := default [] depends_on in
    match missing_dependency dag depends_on with
    | Some dep =>
        Raise ("Dependency '" +:+ dep +:+ "' not found for task '" +:+ name +:+ "'")
    | None =>
        Ret {| dag_name := dag_name dag;
               graph := fold_left (fun g dep => add_edge dep name g) depends_on
                                  (add_node name (graph dag));
               tasks := <[name := mkTaskDefinition name func depends_on description]>
                          (tasks dag);
               results := results dag |}
    end.

(** The two functions of [networkx] the scheduler relies on. *)
Variable is_directed_acyclic_graph : DiGraph -> bool.
Variable topological_sort : DiGraph -> list string.

(** [EvaluationDAG.validate]. *)
Definition validate (dag : EvaluationDAG) : bool :=
  is_directed_acyclic_graph (graph dag).

(** [EvaluationDAG.get_execution_order]. *)
Definition get_execution_order (dag : EvaluationDAG) : list string :=
  topological_sort (graph dag).

(** What a run has done so far: [self.results], and the tasks whose
    function has been called, in order (the second is only there to state
    which functions a run calls). *)
Record Run : Type := mkRun {
  run_results : gmap string TaskResult;
  invoked : list string
}.

Definition dependency_failure (task_name dep_name : string) : TaskResult :=
  {| task_name := task_name;
     success := false;
     data := py_none;
     error := Some ("Dependency '" +:+ dep_name +:+ "' failed") |}.

(** One turn of the loop [for dep_name in task_def.depends_on].  Its
    [continue] goes on with the next dependency. *)
Definition visit_dependency (task_name : string)
    (st : gmap string Data * gmap string TaskResult) (dep_name : string)
    : gmap string Data * gmap string TaskResult :=
  let (task_inputs, results) := st in
  match results !! dep_name with
  | Some dep_result =>
      if success dep_result
      then (<[dep_name := data dep_result]> task_inputs, results)
      else (task_inputs,
            <[task_name := dependency_failure task_name dep_name]> results)
  | None => (task_inputs, results)
  end.

(** The [try] statement that calls the task and records its outcome. *)
Definition call_task (task_def : TaskDefinition) (task_name : string)
    (task_inputs : gmap string Data) (results : gmap string TaskResult)
    : gmap string TaskResult :=
  match func task_def task_inputs with
  | Ret result_data =>
      <[task_name := {| task_name := task_name; success := true;
                        data := result_data; error := None |}]> results
  | Raise error_msg =>
      <[task_name := {| task_name := task_name; success := false;
                        data := py_none; error := Some error_msg |}]> results
  end.

(** The body of the loop [for task_name in execution_order]. *)
Definition execute_task (tasks : gmap string TaskDefinition)
    (initial_data : gmap string Data) (run : Run) (task_name : string) : Exc Run :=
  match tasks !! task_name with
  | None => Raise ("'" +:+ task_name +:+ "'")
  | Some task_def =>
      let (task_inputs, results) :=
        fold_left (visit_dependency task_name) (depends_on task_def)
                  (initial_data, run_results run) in
      Ret {| run_results := call_task task_def task_name task_inputs results;
             invoked := invoked run ++ [task_name] |}
  end.

(** The loop over the execution order. *)
Fixpoint execute_order (tasks : gmap string TaskDefinition)
    (initial_data : gmap string Data) (order : list string) (run : Run) : Exc Run :=
  match order with
  | [] => Ret run
  | task_name :: rest =>
      bind (execute_task tasks initial_data run task_name)
           (execute_order tasks initial_data rest)
  end.

(** [EvaluationDAG.execute]: the results it returns (and stores in
    [self.results]), with the list of the tasks it called. *)
Definition execute (dag : EvaluationDAG) (initial_data : option (gmap string Data))
    : Exc Run :=
  if negb (validate dag) then Raise "Cannot execute invalid DAG"
  else
    let initial_data := default ∅ initial_data in
    execute_order (tasks dag) initial_data (get_execution_order dag)
                  (mkRun ∅ []).

(** [graph.successors(n)]: the heads of the edges that leave [n], in the
    order the edges were added; a node that is not in the graph raises
    [NetworkXError]. *)
Definition successors (g : DiGraph) (n : string) : Exc (list string) :=
  if bool_decide (n ∈ nodes g)
  then Ret (map snd (filter (fun e => fst e = n) (edges g)))
  else Raise ("The node " +:+ n +:+ " is not in the digraph.").

(** The dictionary that [get_task_info] returns.  The four keys that are
    only present for an executed task are the optional [info_result]; of
    these, the two readings of the clock are left out. *)
Record TaskInfo : Type := mkTaskInfo {
  info_name : string;
  info_description : option string;
  info_dependencies : list string;
  info_dependents : list string;
  info_executed : bool;
  info_result : option (bool * option string)
}.

(** [EvaluationDAG.get_task_info]. *)
Definition get_task_info (dag : EvaluationDAG) (task_name : string) : Exc TaskInfo :=
  match tasks dag !! task_name with
  | None => Raise ("Task '" +:+ task_name +:+ "' not found")
  | Some task_def =>
      bind (successors (graph dag) task_name) (fun dependents =>
        Ret {| info_name := task_name;
               info_description := description task_def;
               info_dependencies := depends_on task_def;
               info_dependents := dependents;
               info_executed := bool_decide (is_Some (results dag !! task_name));
               info_result :=
                 (fun result => (success result, error result))
                 <$> results dag !! task_name |})
  end.

End Dag.

End Dag.

(** * dag/pipeline.py: the evaluation pipeline *)

Module Pipeline.
Import Dag.

(** Calls that may raise, in sequence. *)
#[export] Instance Exc_ret : MRet Exc := fun A a => Ret a.
#[export] Instance Exc_bind : MBind Exc := fun A B k c => bind c k.

Section Pipeline.

Context {Data : Type}.

(** The task functions of [tasks.py]; each is called with keyword
    arguments. *)
Variables load_configuration load_ground_truth initialize_database
  initialize_metrics initialize_agent evaluate_questions aggregate_results
  generate_report save_results cleanup_resources : gmap string Data -> Exc Data.

(** [create_evaluation_pipeline]: ten calls of [add_task] on a new
    pipeline; a [ValueError] of any of them leaves the function. *)
Definition create_evaluation_pipeline : Exc (EvaluationDAG Data) :=
  dag ← Ret (new_dag Data "Text-to-SQL Evaluation Pipeline");
  dag ← add_task Data dag "load_configuration" load_configuration
          (Some []) (Some "Load application and LLM configuration");
  dag ← add_task Data dag "load_ground_truth" load_ground_truth
          (Some []) (Some "Load ground truth questions from JSON");
  dag ← add_task Data dag "initialize_database" initialize_database
          (Some ["load_configuration"])
          (Some "Initialize PostgreSQL database connection");
  dag ← add_task Data dag "initialize_metrics" initialize_metrics
          (Some ["load_configuration"])
          (Some "Initialize EM, CM, and EX metrics");
  dag ← add_task Data dag "initialize_agent" initialize_agent
          (Some ["load_configuration"])
          (Some "Initialize LangGraph agent orchestrator");
  dag ← add_task Data dag "evaluate_questions" evaluate_questions
          (Some ["load_ground_truth"; "initialize_metrics"; "initialize_agent";
                 "initialize_database"])
          (Some "Evaluate all questions with agent and metrics");
  dag ← add_task Data dag "aggregate_results" aggregate_results
          (Some ["evaluate_questions"])
          (Some "Aggregate results and calculate statistics");
  dag ← add_task Data dag "generate_report" generate_report
          (Some ["aggregate_results"; "evaluate_questions"])
          (Some "Generate human-readable evaluation report");
  dag ← add_task Data dag "save_results" save_results
          (Some ["evaluate_questions"; "aggregate_results"; "generate_report";
                 "load_configuration"; "initialize_agent"; "initialize_database"])
          (Some "Save results to JSON and print report");
  dag ← add_task Data dag "cleanup_resources" cleanup_resources
          (Some ["initialize_database"; "save_results"])
          (Some "Close database connections and cleanup");
  Ret dag.

(** [create_sample_evaluation_pipeline]: the same pipeline under another
    name. *)
Definition create_sample_evaluation_pipeline (sample_size : Z)
    : Exc (EvaluationDAG Data) :=
  dag ← create_evaluation_pipeline;
  Ret {| dag_name := "Text-to-SQL Sample Evaluation (n=" +:+ pretty sample_size +:+ ")";
         graph := graph Data dag;
         tasks := tasks Data dag;
         results := results Data dag |}.

End Pipeline.

End Pipeline.

(** * execution_accuracy.py: ExecutionAccuracyWithRetry *)

Module Retry.
Import PyStr ExecutionAccuracy.

Definition lower_char (c : ascii) : ascii :=
  if is_upper c then ascii_of_nat (nat_of_ascii c + 32) else c.

(** [s.lower()]. *)
Fixpoint lower (s : string) : string :=
  match s with
  | "" => ""
  | String c s' => String (lower_char c) (lower s')
  end.

(** The words that mark an error as not worth a retry. *)
Definition NON_TRANSIENT : list string :=
  ["syntax error"; "column"; "table"; "function"; "does not exist"].

(** [any(keyword in error.lower() for keyword in [...])]. *)
Definition non_transient (error : string) : bool :=
  existsb (fun keyword => contains keyword (lower error)) NON_TRANSIENT.

Section Retry.

Variable World : Type.
Variable execute_query :
  Connection -> string -> World -> Exc (option (list Row) * option string) * World.
Variable open_cursor : Connection -> World -> Exc unit * World.
Variable cursor_execute : Connection -> string -> World -> Exc unit * World.
Variable cursor_fetchall : Connection -> World -> Exc (list Row) * World.

(** The loop [for attempt in range(self.max_retries + 1)] of
    [ExecutionAccuracyWithRetry._execute_query], with the number of turns
    that are left and the variable [last_error]; each turn calls the
    [_execute_query] of the base class. *)
Fixpoint attempt_loop (execution_timeout : Z) (turns : nat)
    (last_error : option string) (sql_query : string) (db_connection : Connection)
    (st : DbState World) : (option (list Row) * option string) * DbState World :=
  match turns with
  | O => ((None, last_error), st)
  | Datatypes.S turns' =>
      let '((result, error), st) :=
        _execute_query World execute_query open_cursor cursor_execute
          cursor_fetchall execution_timeout sql_query db_connection st in
      match error with
      | None => ((result, None), st)
      | Some e =>
          if non_transient e then ((None, Some e), st)
          else attempt_loop execution_timeout turns' (Some e) sql_query
                 db_connection st
      end
  end.

(** [ExecutionAccuracyWithRetry._execute_query]. *)
Definition _execute_query_with_retry (execution_timeout max_retries : Z)
    (sql_query : string) (db_connection : Connection) (st : DbState World)
    : (option (list Row) * option string) * DbState World :=
  attempt_loop execution_timeout (Z.to_nat (max_retries + 1)) None
    sql_query db_connection st.

End Retry.

End Retry.

(** * dag/tasks.py: _evaluate_questions_sequential *)

Module Questions.
Import PyStr.

(** One entry of the ground truth: the keys [id], [question], [query] and
    [difficulty]. *)
Record Question : Type := mkQuestion {
  q_id : string;
  q_question : string;
  q_query : string;
  q_difficulty : string
}.

(** What [agent.process_query] returns: a [dict], of which the loop reads
    [sql_query] (here [None] for a value without a [strip] method, such as
    Python's [None]; a missing key reads as the empty string) and the truth
    of [success]; or any other object, of which it reads [str()]. *)
Inductive AgentResult : Type :=
| AgentDict (sql_query : option string) (success : bool)
| AgentOther (text : string).

(** One element of [detailed_results], without [agent_execution_time], a
    reading of the clock. *)
Record DetailedResult : Type := mkDetailedResult {
  question_id : string;
  difficulty : string;
  question : string;
  ground_truth_sql : string;
  predicted_sql : string;
  agent_success : bool;
  metrics : list (string * Aggregation.QuestionMetric)
}.

(** A [dict] with string keys, in insertion order: [d.get(k)], and
    [d[k] = f(d.get(k))], which keeps the place of a key that is there. *)
Fixpoint alist_get {V : Type} (k : string) (d : list (string * V)) : option V :=
  match d with
  | [] => None
  | (k', v) :: d' => if String.eqb k k' then Some v else alist_get k d'
  end.

Fixpoint alist_update {V : Type} (k : string) (f : option V -> V)
    (d : list (string * V)) : list (string * V) :=
  match d with
  | [] => [(k, f None)]
  | (k', v) :: d' =>
      if String.eqb k k' then (k', f (Some v)) :: d'
      else (k', v) :: alist_update k f d'
  end.

(** [bool(s.strip())]. *)
Definition nonblank (s : string) : bool := negb (String.eqb (strip s) "").

Section Sequential.

(** The state of the agent and the state the metrics act on. *)
Context {A S : Type}.

(** [agent.process_query]. *)
Variable process_query : string -> A -> Exc AgentResult * A.

(** What the readings of the clock add to [total_time] for one question. *)
Variable time_added : Question -> A -> Q.

(** The [try] statement of the loop: the predicted SQL that is evaluated,
    and whether the question counts as a success of the agent.  A [dict]
    with a true [success] and an [sql_query] without [strip] raises
    [AttributeError], which the [except] clause turns into a failure. *)
Definition predict (question_data : Question) (a : A) : (string * bool) * A :=
  match process_query (q_question question_data) a with
  | (Ret (AgentDict (Some predicted_sql) agent_success), a') =>
      if agent_success && nonblank predicted_sql
      then ((predicted_sql, true), a') else (("", false), a')
  | (Ret (AgentDict None agent_success), a') => (("", false), a')
  | (Ret (AgentOther text), a') =>
      if nonblank text && nonblank text
      then ((text, true), a') else (("", false), a')
  | (Raise _, a') => (("", false), a')
  end.

(** One turn of the loop [for metric in metrics]: the entry of the metric
    in [question_results['metrics']], and its score appended to
    [metric_scores] when there is a prediction.  [evaluate] of a [Metric]
    returns a result, as the metrics of this package do through
    [_safe_evaluate]; the [except] clause of this loop, for a metric that
    raises, is not modelled. *)
Definition evaluate_metric (context : EvaluationContext) (predicted_sql : string)
    (acc : (list (string * Aggregation.QuestionMetric) * list (string * list Q)) * S)
    (metric : Metric S)
    : (list (string * Aggregation.QuestionMetric) * list (string * list Q)) * S :=
  let '((question_metrics, metric_scores), st) := acc in
  let (result, st) := evaluate metric context st in
  ((alist_update (name metric)
      (fun _ => Aggregation.mkQuestionMetric (score result) (is_correct result)
                  (error_message result))
      question_metrics,
    if nonblank predicted_sql
    then alist_update (name metric)
           (fun scores => default [] scores ++ [score result]) metric_scores
    else metric_scores),
   st).

(** The variables of the loop over the questions. *)
Record Progress : Type := mkProgress {
  results : list DetailedResult;
  metric_scores : list (string * list Q);
  success_count : Z;
  failure_count : Z;
  total_time : Q
}.

(** One turn of the loop over the questions. *)
Definition evaluate_question (metrics : list (Metric S))
    (db_connection : option Connection)
    (acc : Progress * (A * S)) (question_data : Question) : Progress * (A * S) :=
  let '(progress, (a, st)) := acc in
  let '((predicted_sql, counted), a') := predict question_data a in
  let context :=
    {| Base.question_id := q_id question_data;
       Base.question := q_question question_data;
       Base.ground_truth_sql := Some (q_query question_data);
       Base.predicted_sql := Some predicted_sql;
       database_connection := db_connection;
       tables_info := None |} in
  let '((question_metrics, scores), st') :=
    fold_left (evaluate_metric context predicted_sql) metrics
              (([], metric_scores progress), st) in
  ({| results :=
        results progress ++
        [{| question_id := q_id question_data;
            difficulty := q_difficulty question_data;
            question := q_question question_data;
            ground_truth_sql := q_query question_data;
            predicted_sql := predicted_sql;
            agent_success := nonblank predicted_sql;
            metrics := question_metrics |}];
      metric_scores := scores;
      success_count := if counted then success_count progress + 1
                       else success_count progress;
      failure_count := if counted then failure_count progress
                       else failure_count progress + 1;
      total_time := total_time progress + time_added question_data a |},
   (a', st')).

(** [{metric.name: [] for metric in metrics}]. *)
Definition empty_scores (metrics : list (Metric S)) : list (string * list Q) :=
  fold_left (fun d metric => alist_update (name metric) (fun _ => []) d) metrics [].

(** [_evaluate_questions_sequential]: the dictionary it returns, here with
    the full [detailed_results], and the states it leaves. *)
Definition _evaluate_questions_sequential (questions : list Question)
    (metrics : list (Metric S)) (db_connection : option Connection)
    (a : A) (st : S) : Progress * (A * S) :=
  fold_left (evaluate_question metrics db_connection) questions
            (mkProgress [] (empty_scores metrics) 0 0 0, (a, st)).

(** The part of an element of [detailed_results] that [aggregate_results]
    reads. *)
Definition read_by_aggregation (r : DetailedResult) : Aggregation.QuestionResult :=
  {| Aggregation.difficulty := difficulty r;
     Aggregation.agent_success := agent_success r;
     Aggregation.metrics := metrics r |}.

(** The input of [aggregate_results] that the loop produces for
    [questions]. *)
Definition evaluation (questions : list Question) (progress : Progress)
    : Aggregation.EvaluateQuestions :=
  {| Aggregation.detailed_results := map read_by_aggregation (results progress);
     Aggregation.agent_stats :=
       Aggregation.mkAgentStats (success_count progress) (failure_count progress)
         (total_time progress);
     Aggregation.metric_scores := metric_scores progress;
     Aggregation.total_questions := Aggregation.len questions |}.

End Sequential.

End Questions.


(** * The metrics of the pipeline, and the vocabulary of their properties *)

Section Metrics.
Import SQLNormalizer SQLParser ExecutionAccuracy.

Variable sqlparse_parse : string -> Exc (list Statement).
Variable _analyze_differences : string -> string -> Exc (list (string * PyVal)).
Variable _regex_component_extraction : string -> Components.
Variable round10 : Qc -> Qc.
Variable World : Type.
Variable execute_query :
  Connection -> string -> World -> Exc (option (list Row) * option string) * World.
Variable open_cursor : Connection -> World -> Exc unit * World.
Variable cursor_execute : Connection -> string -> World -> Exc unit * World.
Variable cursor_fetchall : Connection -> World -> Exc (list Row) * World.

(** The three metrics that [evaluate_questions] runs on every example, over
    the state of the database. *)
Definition exact_match_metric : Metric (DbState World) :=
  ExactMatch.ExactMatchMetric sqlparse_parse _analyze_differences.

Definition component_matching_metric : Metric (DbState World) :=
  ComponentMatching.ComponentMatchingMetric sqlparse_parse
    _regex_component_extraction.

Definition execution_accuracy_metric (execution_timeout : Z)
    : Metric (DbState World) :=
  ExecutionAccuracyMetric round10 World execute_query open_cursor
    cursor_execute cursor_fetchall execution_timeout.

(** Both statements are present and non-empty, and normalize to the same
    string. *)
Definition statements_match (context : EvaluationContext) : Prop :=
  exists gt pred,
    ground_truth_sql context = Some gt /\
    predicted_sql context = Some pred /\
    gt ≠ "" /\ pred ≠ "" /\
    normalize_sql sqlparse_parse gt = normalize_sql sqlparse_parse pred.

(** The score of clause [component_name] for a reference and a predicted
    statement. *)
Definition clause_score (gt pred component_name : string) : Q :=
  (ComponentMatching._evaluate_component sqlparse_parse component_name
     (ComponentMatching.get_component
        (extract_components sqlparse_parse _regex_component_extraction gt)
        component_name)
     (ComponentMatching.get_component
        (extract_components sqlparse_parse _regex_component_extraction pred)
        component_name)).1.

End Metrics.

(** Two contexts that differ at most in the question (its identifier and
    its text) and in the table information. *)
Definition same_statements (c1 c2 : EvaluationContext) : Prop :=
  ground_truth_sql c1 = ground_truth_sql c2 /\
  predicted_sql c1 = predicted_sql c2 /\
  database_connection c1 = database_connection c2.


(** The sum of a list of scores. *)
Definition Qsum (l : list Q) : Q := foldr Qplus 0%Q l.







(** What [call_task] records for a task called on [task_inputs]. *)
Definition outcome {Data : Type} (py_none : Data)
    (task_def : Dag.TaskDefinition Data) (task_name : string)
    (task_inputs : gmap string Data) : Dag.TaskResult Data :=
  match Dag.func Data task_def task_inputs with
  | Ret result_data => Dag.mkTaskResult Data task_name true result_data None
  | Raise error_msg =>
      Dag.mkTaskResult Data task_name false py_none (Some error_msg)
  end.

(** A parser reads a text as a given statement, or fails on it. *)
Definition parses_as_or_raises
    (parse : string -> Exc (list SQLNormalizer.Statement))
    (sql : string) (statement : SQLNormalizer.Statement) : Prop :=
  (exists rest, parse sql = Ret (statement :: rest)) \/
  (exists e, parse sql = Raise e).

(** * Sample inputs *)

Module Samples.
Import SQLNormalizer.

(** A two-task pipeline: [load_data] raises, [generate_report] depends on
    it and would return a report. *)
Definition load_data (inputs : gmap string (option string)) : Exc (option string) :=
  Raise "connection refused".

Definition generate_report (inputs : gmap string (option string))
    : Exc (option string) :=
  Ret (Some "report").

Definition pipeline : Exc (Dag.EvaluationDAG (option string)) :=
  bind (Dag.add_task _ (Dag.new_dag _ "Evaluation Pipeline")
          "load_data" load_data None None)
       (fun dag =>
          Dag.add_task _ dag "generate_report" generate_report
            (Some ["load_data"]) None).

Definition pipeline_dag : Dag.EvaluationDAG (option string) :=
  try_except pipeline (fun _ => Dag.new_dag _ "Evaluation Pipeline").

(** The tokens of a few statements, as [sqlparse] groups them: a name is
    an identifier group, names separated by commas an identifier list. *)
Definition select_1_terminated : Statement :=
  [Leaf Keyword "SELECT"; Leaf Whitespace " "; Leaf OtherType "1";
   Leaf Whitespace " "; Leaf OtherType ";"].

Definition select_1_space : Statement :=
  [Leaf Keyword "SELECT"; Leaf Whitespace " "; Leaf OtherType "1";
   Leaf Whitespace " "].

Definition select_a_from_t : Statement :=
  [Leaf Keyword "SELECT"; Leaf Whitespace " "; Group [Leaf Name "a"];
   Leaf Whitespace " "; Leaf Keyword "FROM"; Leaf Whitespace " ";
   Group [Leaf Name "t"]].

Definition select_a_b_from_t : Statement :=
  [Leaf Keyword "SELECT"; Leaf Whitespace " ";
   Group [Group [Leaf Name "a"]; Leaf OtherType ","; Leaf Whitespace " ";
          Group [Leaf Name "b"]];
   Leaf Whitespace " "; Leaf Keyword "FROM"; Leaf Whitespace " ";
   Group [Leaf Name "t"]].

(** What [sqlparse.parse] returns on these statements; the sample raises on
    any other text. *)
Definition sqlparse_sample (sql : string) : Exc (list Statement) :=
  if String.eqb sql "SELECT 1 ;" then Ret [select_1_terminated]
  else if String.eqb sql "SELECT 1 " then Ret [select_1_space]
  else if String.eqb sql "SELECT a FROM t" then Ret [select_a_from_t]
  else if String.eqb sql "SELECT a, b FROM t" then Ret [select_a_b_from_t]
  else Raise "not in the sample".

Definition no_analysis (gt pred : string) : Exc (list (string * PyVal)) :=
  Ret [].

Definition failing_analysis (gt pred : string) : Exc (list (string * PyVal)) :=
  Raise "analysis failed".

Definition no_regex_extraction (sql : string) : SQLParser.Components :=
  SQLParser._empty_components.

(** A database with one table, seen through the project's connection
    class: the reference statement returns its two rows in one order, any
    other statement returns them in the other order. *)
Definition reference_rows : list ExecutionAccuracy.Row :=
  [[ExecutionAccuracy.VInt 1; ExecutionAccuracy.VStr "a"];
   [ExecutionAccuracy.VInt 2; ExecutionAccuracy.VStr "b"]].

Definition predicted_rows : list ExecutionAccuracy.Row :=
  [[ExecutionAccuracy.VInt 2; ExecutionAccuracy.VStr "b"];
   [ExecutionAccuracy.VInt 1; ExecutionAccuracy.VStr "a"]].

Definition table_execute_query (conn : Connection) (sql : string) (w : unit)
    : Exc (option (list ExecutionAccuracy.Row) * option string) * unit :=
  (Ret (if String.eqb sql "SELECT id, name FROM t ORDER BY id"
        then (Some reference_rows, None)
        else (Some predicted_rows, None)), w).

Definition no_cursor (conn : Connection) (w : unit) : Exc unit * unit :=
  (Raise "not a DB-API connection", w).

Definition no_execute (conn : Connection) (sql : string) (w : unit) : Exc unit * unit :=
  (Raise "not a DB-API connection", w).

Definition no_fetchall (conn : Connection) (w : unit)
    : Exc (list ExecutionAccuracy.Row) * unit :=
  (Raise "not a DB-API connection", w).

Definition same_float (x : Qc) : Qc := x.

(** The three metrics on that database. *)
Definition EM : Metric (ExecutionAccuracy.DbState unit) :=
  exact_match_metric sqlparse_sample no_analysis unit.

Definition EM_failing_analysis : Metric (ExecutionAccuracy.DbState unit) :=
  exact_match_metric sqlparse_sample failing_analysis unit.

Definition CM : Metric (ExecutionAccuracy.DbState unit) :=
  component_matching_metric sqlparse_sample no_regex_extraction unit.

Definition EX : Metric (ExecutionAccuracy.DbState unit) :=
  execution_accuracy_metric same_float unit table_execute_query
    no_cursor no_execute no_fetchall 60.

Definition fresh_state : ExecutionAccuracy.DbState unit :=
  ExecutionAccuracy.mkDbState unit tt [].

Definition table_connection : option Connection :=
  Some (mkConnection HasExecuteQuery 0).

Definition context (question_id question gt pred : string)
    (conn : option Connection) : EvaluationContext :=
  {| question_id := question_id;
     question := question;
     ground_truth_sql := Some gt;
     predicted_sql := Some pred;
     database_connection := conn;
     tables_info := None |}.

(** The same two statements under two different questions. *)
Definition rows_in_order (conn : option Connection) : EvaluationContext :=
  context "q7" "List the ids and names"
    "SELECT id, name FROM t ORDER BY id"
    "SELECT id, name FROM t ORDER BY id DESC" conn.

Definition rows_in_order_again (conn : option Connection) : EvaluationContext :=
  context "q8" "Which rows does the table hold?"
    "SELECT id, name FROM t ORDER BY id"
    "SELECT id, name FROM t ORDER BY id DESC" conn.


Definition same_statement : EvaluationContext :=
  context "q1" "What is one?" "SELECT 1 ;" "SELECT 1 ;" None.

Definition space_before_terminator : EvaluationContext :=
  context "q2" "What is one?" "SELECT 1 ;" "SELECT 1 " None.



End Samples.


(** * The vocabulary of the further properties *)

Section DagVocabulary.

Context {Data : Type}.

(** A pipeline as the public interface builds it: a new one, extended by
    calls of [add_task] that returned. *)
Inductive built : Dag.EvaluationDAG Data -> Prop :=
| built_new (name : string) : built (Dag.new_dag Data name)
| built_add (dag : Dag.EvaluationDAG Data) (name : string)
    (func : gmap string Data -> Exc Data) (depends_on : option (list string))
    (description : option string) (dag' : Dag.EvaluationDAG Data) :
    built dag ->
    Dag.add_task Data dag name func depends_on description = Ret dag' ->
    built dag'.

(** [u] comes before [v] in a list. *)
Definition before (l : list string) (u v : string) : Prop :=
  exists i j : nat, l !! i = Some u /\ l !! j = Some v /\ (i < j)%nat.

(** The edge relation of a graph. *)
Definition edge (g : Dag.DiGraph) (u v : string) : Prop := (u, v) ∈ Dag.edges g.

(** The keyword arguments of a task, read off the results of a run: the
    initial data, then the data of every dependency that succeeded, under
    the name of the dependency. *)
Definition inputs_from (initial_data : gmap string Data)
    (results : gmap string (Dag.TaskResult Data)) (depends_on : list string)
    : gmap string Data :=
  fold_left (fun task_inputs dep_name =>
               match results !! dep_name with
               | Some dep_result =>
                   if Dag.success Data dep_result
                   then <[dep_name := Dag.data Data dep_result]> task_inputs
                   else task_inputs
               | None => task_inputs
               end)
            depends_on initial_data.

(** An execution order in which no task comes before one of its
    dependencies. *)
Definition respects_dependencies (tasks : gmap string (Dag.TaskDefinition Data))
    (order : list string) : Prop :=
  forall (done : list string) (task_name : string) (todo : list string)
         (task_def : Dag.TaskDefinition Data),
    order = done ++ task_name :: todo ->
    tasks !! task_name = Some task_def ->
    forall dep_name, dep_name ∈ Dag.depends_on Data task_def ->
      dep_name ∉ task_name :: todo.

End DagVocabulary.

Section DagConsistency.

Context {Data : Type}.

(** The graph of a pipeline agrees with its task definitions: the nodes
    are the registered tasks, each once; the edges lead from the declared
    dependencies of a task to the task; and every edge leads from a node to
    one that was added later. *)
Definition consistent (dag : Dag.EvaluationDAG Data) : Prop :=
  let g := Dag.graph Data dag in
  NoDup (Dag.nodes g) /\
  (forall n, n ∈ Dag.nodes g <-> is_Some (Dag.tasks Data dag !! n)) /\
  (forall u v, edge g u v <->
     exists task_def, Dag.tasks Data dag !! v = Some task_def /\
                      u ∈ Dag.depends_on Data task_def) /\
  (forall u v, edge g u v -> before (Dag.nodes g) u v).

End DagConsistency.

(** An order of the tasks of a graph in which every edge leads forward:
    what [nx.topological_sort] returns for a graph without cycles. *)
Definition topological_order (g : Dag.DiGraph) (order : list string) : Prop :=
  order ≡ₚ Dag.nodes g /\ forall u v, edge g u v -> before order u v.

(** Two values of a result row that differ only in ways the comparison of
    Execution Accuracy does not see: white space around a text, and a
    boolean given as the integer 1 or 0. *)
Inductive similar : ExecutionAccuracy.Value -> ExecutionAccuracy.Value -> Prop :=
| similar_same (v : ExecutionAccuracy.Value) : similar v v
| similar_text (s s' : string) :
    PyStr.strip s = PyStr.strip s' ->
    similar (ExecutionAccuracy.VStr s) (ExecutionAccuracy.VStr s')
| similar_bool_int (b : bool) :
    similar (ExecutionAccuracy.VBool b)
            (ExecutionAccuracy.VInt (if b then 1 else 0))
| similar_int_bool (b : bool) :
    similar (ExecutionAccuracy.VInt (if b then 1 else 0))
            (ExecutionAccuracy.VBool b).

(** The vocabulary of the difficulty breakdown: the questions of one
    difficulty; the results that one metric has for the questions of one
    difficulty that the agent answered; and the tally of a list of metric
    results. *)
Definition of_difficulty (d : string) (r : Aggregation.QuestionResult) : bool :=
  String.eqb (Aggregation.difficulty r) d.

Definition metric_results_of (d metric_name : string)
    (results : list Aggregation.QuestionResult) : list Aggregation.QuestionMetric :=
  flat_map (fun r =>
              if of_difficulty d r && Aggregation.agent_success r
              then map snd (filter (fun entry => fst entry = metric_name)
                                   (Aggregation.metrics r))
              else [])
           results.

Definition tally (l : list Aggregation.QuestionMetric)
    : option Aggregation.DifficultyMetric :=
  match l with
  | [] => None
  | _ => Some (Aggregation.mkDifficultyMetric
                 (Aggregation.count_if Aggregation.qm_is_correct l)
                 (Aggregation.len l)
                 (map Aggregation.qm_score l))
  end.

(** What the breakdown holds for the difficulty [d] after the results
    [results]. *)
Definition breakdown_of (d : string) (results : list Aggregation.QuestionResult)
    (entry : option Aggregation.DifficultyStats) : Prop :=
  match entry with
  | None => Aggregation.count_if (of_difficulty d) results = 0%Z
  | Some stats =>
      Aggregation.d_total stats = Aggregation.count_if (of_difficulty d) results /\
      (0 < Aggregation.count_if (of_difficulty d) results)%Z /\
      Aggregation.d_agent_success stats
      = Aggregation.count_if
          (fun r => of_difficulty d r && Aggregation.agent_success r) results /\
      forall metric_name,
        Aggregation.d_metrics stats !! metric_name
        = tally (metric_results_of d metric_name results)
  end.

(** * Further sample inputs *)

Module MoreSamples.

(** A connection of the project's class to a database without the table
    of the statements: every statement fails. *)
Definition failing_execute_query (conn : Connection) (sql : string) (w : unit)
    : Exc (option (list ExecutionAccuracy.Row) * option string) * unit :=
  (Ret (None, Some "no such table: t"), w).

Definition EX_no_table : Metric (ExecutionAccuracy.DbState unit) :=
  execution_accuracy_metric Samples.same_float unit failing_execute_query
    Samples.no_cursor Samples.no_execute Samples.no_fetchall 60.

(** A plain DB-API connection: the cursor opens, every statement but
    [SELECT broken] runs, and the rows fetched are the reference rows. *)
Definition raw_connection : Connection := mkConnection PlainConnection 1.

Definition cursor (conn : Connection) (w : unit) : Exc unit * unit := (Ret tt, w).

Definition cursor_execute (conn : Connection) (sql : string) (w : unit)
    : Exc unit * unit :=
  (if String.eqb sql "SELECT broken" then Raise "syntax error at or near broken"
   else Ret tt, w).

Definition cursor_fetchall (conn : Connection) (w : unit)
    : Exc (list ExecutionAccuracy.Row) * unit :=
  (Ret Samples.reference_rows, w).

(** A connection of the project's class to a server that is busy at
    first: the state counts the statements received, and the first two are
    turned down. *)
Definition busy_execute_query (conn : Connection) (sql : string) (received : nat)
    : Exc (option (list ExecutionAccuracy.Row) * option string) * nat :=
  (Ret (if (received <? 2)%nat then (None, Some "server busy")
        else (Some Samples.reference_rows, None)),
   Datatypes.S received).

Definition busy_cursor (conn : Connection) (w : nat) : Exc unit * nat :=
  (Raise "not a DB-API connection", w).

Definition busy_execute (conn : Connection) (sql : string) (w : nat) : Exc unit * nat :=
  (Raise "not a DB-API connection", w).

Definition busy_fetchall (conn : Connection) (w : nat)
    : Exc (list ExecutionAccuracy.Row) * nat :=
  (Raise "not a DB-API connection", w).

End MoreSamples.

(** The scores that the metric named [metric_name] has in the results of
    the questions the agent answered, in order. *)
Definition scores_of (metric_name : string)
    (results : list Questions.DetailedResult) : list Q :=
  flat_map (fun r =>
              if Questions.agent_success r
              then match Questions.alist_get metric_name (Questions.metrics r) with
                   | Some question_metric => [Aggregation.qm_score question_metric]
                   | None => []
                   end
              else [])
           results.

(** What holds of the variables of the loop of
    [_evaluate_questions_sequential] after the questions [questions]. *)
Definition evaluated {S : Type} (metrics : list (Metric S))
    (questions : list Questions.Question) (progress : Questions.Progress) : Prop :=
  map Questions.question_id (Questions.results progress)
  = map Questions.q_id questions /\
  Questions.success_count progress
  = Aggregation.count_if Questions.agent_success (Questions.results progress) /\
  (Questions.success_count progress + Questions.failure_count progress
   = Aggregation.len questions)%Z /\
  (forall r, r ∈ Questions.results progress ->
     Questions.agent_success r = Questions.nonblank (Questions.predicted_sql r) /\
     map fst (Questions.metrics r) = map name metrics) /\
  (forall metric_name, metric_name ∈ map name metrics ->
     Questions.alist_get metric_name (Questions.metric_scores progress)
     = Some (scores_of metric_name (Questions.results progress))).

Module QuestionSamples.

(** An agent that answers the question [What is one?] and fails on any
    other question; its state counts the questions it was asked. *)
Definition process_query (question : string) (asked : nat)
    : Exc Questions.AgentResult * nat :=
  (if String.eqb question "What is one?"
   then Ret (Questions.AgentDict (Some "SELECT 1 ;") true)
   else Ret (Questions.AgentDict None false),
   Datatypes.S asked).

Definition no_time (question_data : Questions.Question) (asked : nat) : Q := 0.

Definition two_questions : list Questions.Question :=
  [Questions.mkQuestion "q1" "What is one?" "SELECT 1 ;" "easy";
   Questions.mkQuestion "q2" "How many rows are there?" "SELECT a FROM t" "hard"].

Definition two_metrics : list (Metric (ExecutionAccuracy.DbState unit)) :=
  [Samples.EM; Samples.CM].

End QuestionSamples.

(** * Properties of the scheduler *)

Section DagFacts.
Import Dag.

Context {Data : Type} (py_none : Data).

Local Abbreviation outcome := (outcome py_none).

Lemma call_task_lookup task_def task_name task_inputs results :
  call_task Data py_none task_def task_name task_inputs results !! task_name
  = Some (outcome task_def task_name task_inputs).
Proof.
  unfold call_task, outcome.
  destruct (func Data task_def task_inputs); apply lookup_insert_eq.
Qed.

Lemma call_task_lookup_ne task_def task_name task_inputs results other :
  other ≠ task_name ->
  call_task Data py_none task_def task_name task_inputs results !! other
  = results !! other.
Proof.
  intros Hne. unfold call_task.
  destruct (func Data task_def task_inputs); by rewrite lookup_insert_ne.
Qed.

Lemma visit_dependencies_lookup_ne task_name deps st other :
  other ≠ task_name ->
  snd (fold_left (visit_dependency Data py_none task_name) deps st) !! other
  = snd st !! other.
Proof.
  intros Hne. revert st.
  induction deps as [|dep deps IH]; intros [inputs results]; [done|].
  simpl. rewrite IH. unfold visit_dependency.
  destruct (results !! dep) as [r|]; [|done].
  destruct (success Data r); simpl; [done|].
  by rewrite lookup_insert_ne.
Qed.

(** One turn of the scheduler: the task is called, whatever the state of
    its dependencies, and what is recorded for it is the outcome of that
    call; the results of the other tasks are left as they were. *)
Lemma execute_task_spec tasks initial_data run task_name run' :
  execute_task Data py_none tasks initial_data run task_name = Ret run' ->
  invoked Data run' = invoked Data run ++ [task_name] /\
  (exists task_def task_inputs,
     tasks !! task_name = Some task_def /\
     run_results Data run' !! task_name
     = Some (outcome task_def task_name task_inputs)) /\
  (forall other, other ≠ task_name ->
     run_results Data run' !! other = run_results Data run !! other).
Proof.
  unfold execute_task. destruct (tasks !! task_name) as [task_def|]; [|done].
  destruct (fold_left _ _ _) as [task_inputs results] eqn:Hfold.
  intros [= <-]. simpl. split; [done|]. split.
  - exists task_def, task_inputs. split; [done|]. apply call_task_lookup.
  - intros other Hne. rewrite call_task_lookup_ne by done.
    pose proof (visit_dependencies_lookup_ne task_name (depends_on Data task_def)
                  (initial_data, run_results Data run) other Hne) as H.
    by rewrite Hfold in H.
Qed.

(** A whole run over an order without repetition: every task of the order
    is called, and the result the run returns for it is the outcome of its
    own call. *)
Lemma execute_order_spec tasks initial_data order :
  forall run run',
  NoDup order ->
  execute_order Data py_none tasks initial_data order run = Ret run' ->
  invoked Data run' = invoked Data run ++ order /\
  (forall task_name, task_name ∈ order ->
     exists task_def task_inputs,
       tasks !! task_name = Some task_def /\
       run_results Data run' !! task_name
       = Some (outcome task_def task_name task_inputs)) /\
  (forall other, other ∉ order ->
     run_results Data run' !! other = run_results Data run !! other).
Proof.
  induction order as [|t order IH]; intros run run' Hnd Hrun; simpl in Hrun.
  - injection Hrun as <-. rewrite app_nil_r. split; [done|].
    split; [intros ? H; by apply elem_of_nil in H|done].
  - apply NoDup_cons in Hnd as [Hnotin Hnd].
    destruct (execute_task Data py_none tasks initial_data run t) as [run1|]
      eqn:Hstep; [|done].
    simpl in Hrun.
    apply execute_task_spec in Hstep as (Hinv1 & (td & ins & Htd & Hres1) & Hother1).
    destruct (IH run1 run' Hnd Hrun) as (Hinv & Hin & Hother).
    split; [by rewrite Hinv, Hinv1, <-app_assoc|]. split.
    + intros task_name [->|Hmem]%elem_of_cons.
      * exists td, ins. split; [done|]. by rewrite Hother.
      * by apply Hin.
    + intros other [Hne Hnotin']%not_elem_of_cons.
      rewrite Hother by done. by apply Hother1.
Qed.

(** For every task graph and every run that [execute] completes over an
    order without repetition: every task is called, also a task with a
    failed dependency, and its entry in the returned mapping is the outcome
    of that call. *)
Lemma execute_calls_every_task is_dag topo
    (dag : EvaluationDAG Data) initial_data run :
  NoDup (get_execution_order Data topo dag) ->
  execute Data py_none is_dag topo dag initial_data = Ret run ->
  invoked Data run = get_execution_order Data topo dag /\
  forall task_name, task_name ∈ get_execution_order Data topo dag ->
    exists task_def task_inputs,
      tasks Data dag !! task_name = Some task_def /\
      run_results Data run !! task_name
      = Some (outcome task_def task_name task_inputs).
Proof.
  intros Hnd. unfold execute.
  destruct (negb (validate Data is_dag dag)); [done|].
  intros Hrun. apply execute_order_spec in Hrun as (Hinv & Hin & _); [|done].
  split; [done|]. exact Hin.
Qed.

End DagFacts.


(** C1 (as the code behaves): on the pipeline [Samples.pipeline_dag], where
    [load_data] fails and [generate_report] depends on it, [execute] still
    calls [generate_report], and the mapping it
    returns holds for [generate_report] the successful result of that call,
    not a dependency-failure record.  The specification asks for the
    opposite: a failed result with a dependency-failure error, and no
    call. *)
Theorem execute_calls_task_with_failed_dependency :
  forall (is_dag : Dag.DiGraph -> bool) (topo : Dag.DiGraph -> list string),
  is_dag (Dag.graph _ Samples.pipeline_dag) = true ->
  topo (Dag.graph _ Samples.pipeline_dag) = ["load_data"; "generate_report"] ->
  exists run,
    Dag.execute _ None is_dag topo Samples.pipeline_dag None = Ret run /\
    Dag.invoked _ run = ["load_data"; "generate_report"] /\
    Dag.run_results _ run !! "load_data"
    = Some (Dag.mkTaskResult _ "load_data" false None (Some "connection refused")) /\
    Dag.run_results _ run !! "generate_report"
    = Some (Dag.mkTaskResult _ "generate_report" true (Some "report") None).
Proof.
  intros is_dag topo Hdag Htopo.
  unfold Dag.execute, Dag.validate, Dag.get_execution_order.
  rewrite Hdag, Htopo. simpl negb. cbv iota.
  eexists. split; [vm_compute; reflexivity|].
  repeat split; vm_compute; reflexivity.
Qed.

(** The pipeline is a well-formed graph: both [add_task] calls succeed, and
    the graph they build has the edge from [load_data] to
    [generate_report]; with the order in which the tasks were added, the
    run is the one of the theorem. *)
Lemma execute_calls_task_with_failed_dependency_witness :
  Dag.graph _ Samples.pipeline_dag
  = Dag.mkDiGraph ["load_data"; "generate_report"]
                  [("load_data", "generate_report")] /\
  exists run,
    Dag.execute _ None (fun _ => true) (Dag.nodes) Samples.pipeline_dag None = Ret run /\
    Dag.invoked _ run = ["load_data"; "generate_report"] /\
    Dag.run_results _ run !! "load_data"
    = Some (Dag.mkTaskResult _ "load_data" false None (Some "connection refused")) /\
    Dag.run_results _ run !! "generate_report"
    = Some (Dag.mkTaskResult _ "generate_report" true (Some "report") None).
Proof.
  split; [vm_compute; reflexivity|].
  apply (execute_calls_task_with_failed_dependency (fun _ => true) Dag.nodes);
    vm_compute; reflexivity.
Defined.


(** * Properties of the metric base class *)

(** C7: [evaluate] always returns a [MetricResult] (it is a total
    function into results, not into [Exc]): what the inner function returns
    is handed on, and if the inner function raises, the result has score
    0.0, [is_correct] false and the message of the exception in its error
    message (and in its details).  This holds for every metric object, so
    for the three of the repository. *)
Theorem evaluate_never_raises :
  forall (S : Type) (m : Metric S) (context : EvaluationContext) (st : S),
    (forall result st',
       inner m context st = (Ret result, st') ->
       evaluate m context st = (result, st')) /\
    (forall e st',
       inner m context st = (Raise e, st') ->
       evaluate m context st
       = ({| metric_name := name m;
             score := 0;
             is_correct := false;
             details := [("error", PStr e)];
             error_message := Some ("Error in " +:+ name m +:+ ": " +:+ e) |},
          st')).
Proof.
  intros S m context st. unfold evaluate, _safe_evaluate.
  split; intros ? ? ->; reflexivity.
Qed.


(** Exact Match with a difference analysis that raises, on two statements
    that do not match: the exception reaches [_safe_evaluate]. *)
Lemma evaluate_never_raises_witness :
  inner Samples.EM_failing_analysis Samples.space_before_terminator
        Samples.fresh_state
  = (Raise "analysis failed", Samples.fresh_state) /\
  evaluate Samples.EM_failing_analysis Samples.space_before_terminator
           Samples.fresh_state
  = ({| metric_name := "Exact Match (EM)";
        score := 0;
        is_correct := false;
        details := [("error", PStr "analysis failed")];
        error_message := Some "Error in Exact Match (EM): analysis failed" |},
     Samples.fresh_state).
Proof.
  split; [vm_compute; reflexivity|].
  apply (proj2 (evaluate_never_raises _ Samples.EM_failing_analysis
                  Samples.space_before_terminator Samples.fresh_state)).
  vm_compute; reflexivity.
Defined.


(** * Properties of Exact Match *)

Section ExactMatchFacts.
Import SQLNormalizer ExactMatch.

Context {S : Type}.
Variable sqlparse_parse : string -> Exc (list Statement).
Variable _analyze_differences : string -> string -> Exc (list (string * PyVal)).

Local Abbreviation normalize := (normalize_sql sqlparse_parse).
Local Abbreviation exact_match :=
  (@ExactMatchMetric S sqlparse_parse _analyze_differences).

Lemma truthy_Some s : truthy (Some s) = negb (String.eqb s "").
Proof. by destruct s. Qed.

(** The two outcomes of Exact Match. *)
Lemma exact_match_cases (context : EvaluationContext) (st : S) :
  let result := (evaluate exact_match context st).1 in
  (score result = 1%Q /\ is_correct result = true /\
   statements_match sqlparse_parse context) \/
  (score result = 0%Q /\ is_correct result = false /\
   ¬ statements_match sqlparse_parse context).
Proof.
  destruct context as [qid q gt pred conn ti].
  unfold evaluate, _safe_evaluate, ExactMatchMetric, _evaluate_exact_match,
    statements_match;
    cbn [inner name ground_truth_sql predicted_sql].
  destruct gt as [[|c gt]|], pred as [[|d pred]|];
    try (cbn; right; split; [done|]; split; [done|];
         intros (?&?&?&?&?&?&?); congruence).
  cbn [truthy negb orb].
  destruct (String.eqb_spec (normalize (String c gt)) (normalize (String d pred)))
    as [Heq|Hne]; cbn.
  - left. split; [done|]. split; [done|]. by eexists _, _.
  - right. destruct (_analyze_differences _ _); cbn;
      (split; [done|]; split; [done|];
       intros (?&?&[= <-]&[= <-]&?&?&?); congruence).
Qed.

(** C2: the score of Exact Match is 1.0 exactly when both statements are
    present and non-empty and normalize to the same string; it is 0.0
    otherwise, in particular when a statement is missing or empty; and
    [is_correct] is [score == 1.0]. *)
Theorem exact_match_score :
  forall (context : EvaluationContext) (st : S),
    let result := (evaluate exact_match context st).1 in
    (score result = 1%Q <->
       exists gt pred,
         ground_truth_sql context = Some gt /\
         predicted_sql context = Some pred /\
         gt ≠ "" /\ pred ≠ "" /\
         normalize gt = normalize pred) /\
    (score result = 1%Q \/ score result = 0%Q) /\
    (truthy (ground_truth_sql context) = false \/
     truthy (predicted_sql context) = false ->
     score result = 0%Q /\ is_correct result = false) /\
    is_correct result = Qeq_bool (score result) 1.
Proof.
  intros context st result.
  destruct (exact_match_cases context st) as [(Hs & Hc & Hm)|(Hs & Hc & Hm)];
    fold result in Hs, Hc; rewrite Hs, Hc.
  - split; [by split|]. split; [by left|]. split; [|done].
    destruct Hm as (gt & pred & Hgt & Hpred & Hg & Hp & _).
    rewrite Hgt, Hpred. intros [H|H]; by destruct gt, pred.
  - split; [split; [discriminate|done]|]. split; [by right|]. done.
Qed.

End ExactMatchFacts.

(** A statement compared with itself: score 1.0. *)
Lemma exact_match_score_witness :
  score (evaluate Samples.EM Samples.same_statement Samples.fresh_state).1 = 1%Q.
Proof.
  apply (proj2 (proj1 (exact_match_score Samples.sqlparse_sample
                         Samples.no_analysis Samples.same_statement
                         Samples.fresh_state))).
  exists "SELECT 1 ;", "SELECT 1 ;".
  repeat split; (reflexivity || discriminate).
Defined.


(** * Properties of Execution Accuracy *)

(** Two lists have the same [Counter] exactly when one is a permutation of
    the other. *)
Lemma elements_list_to_set_disj `{Countable A} (l : list A) :
  elements (list_to_set_disj l : gmultiset A) ≡ₚ l.
Proof.
  induction l as [|x l IH]; simpl.
  - by rewrite gmultiset_elements_empty.
  - rewrite gmultiset_elements_disj_union, gmultiset_elements_singleton.
    simpl. by rewrite IH.
Qed.

Lemma counter_eq_permutation `{Countable A} (l1 l2 : list A) :
  (list_to_set_disj l1 : gmultiset A) = list_to_set_disj l2 <-> l1 ≡ₚ l2.
Proof.
  split; [|by intros ->].
  intros Heq. rewrite <-(elements_list_to_set_disj l1), Heq.
  apply elements_list_to_set_disj.
Qed.

Section ExecutionAccuracyFacts.
Import ExecutionAccuracy.

Variable round10 : Qc -> Qc.
Variable World : Type.
Variable execute_query :
  Connection -> string -> World -> Exc (option (list Row) * option string) * World.
Variable open_cursor : Connection -> World -> Exc unit * World.
Variable cursor_execute : Connection -> string -> World -> Exc unit * World.
Variable cursor_fetchall : Connection -> World -> Exc (list Row) * World.

Local Abbreviation execution_accuracy :=
  (execution_accuracy_metric round10 World execute_query open_cursor
     cursor_execute cursor_fetchall).
Local Abbreviation normalize_rows := (_normalize_results round10).

(** C10: with two non-empty statements and no database connection,
    Execution Accuracy returns score 0.0, [is_correct] false and the error
    message that a connection is required; the database and the log of
    submitted statements are as before, so neither statement was run. *)
Theorem execution_accuracy_requires_connection :
  forall (execution_timeout : Z) (context : EvaluationContext) (st : DbState World),
    truthy (ground_truth_sql context) = true ->
    truthy (predicted_sql context) = true ->
    database_connection context = None ->
    evaluate (execution_accuracy execution_timeout) context st
    = ({| metric_name := "Execution Accuracy (EX)";
          score := 0;
          is_correct := false;
          details := [("reason", PStr "No database connection provided")];
          error_message :=
            Some "Database connection required for execution accuracy" |},
       st).
Proof.
  intros timeout [qid q gt pred conn ti] st Hgt Hpred Hconn.
  simpl in Hgt, Hpred, Hconn. subst conn.
  unfold evaluate, _safe_evaluate, execution_accuracy_metric,
    ExecutionAccuracyMetric, _evaluate_execution.
  cbn [inner name ground_truth_sql predicted_sql database_connection].
  rewrite Hgt, Hpred. cbn [negb orb].
  destruct gt, pred; reflexivity.
Qed.

Lemma normalize_results_length rows :
  length (normalize_rows rows) = length rows.
Proof. apply length_map. Qed.

(** The verdict of [_compare_results] is multiset equality of the
    normalized rows. *)
Lemma compare_results_spec (gt_results pred_results : option (list Row)) :
  (_compare_results round10 gt_results pred_results).1 = true <->
  normalize_rows (or_empty pred_results) ≡ₚ normalize_rows (or_empty gt_results).
Proof.
  unfold _compare_results.
  set (R := or_empty gt_results). set (P := or_empty pred_results).
  destruct (Nat.eqb_spec (length R) (length P)) as [Hlen|Hlen]; cbn [negb fst].
  - destruct (Nat.eqb_spec (length R) 0) as [HR|HR]; cbn [fst].
    + assert (R = []) as -> by by apply nil_length_inv.
      assert (P = []) as -> by (apply nil_length_inv; congruence).
      done.
    + destruct (bool_decide _) eqn:Hdec; cbn [fst].
      * apply bool_decide_eq_true in Hdec. apply counter_eq_permutation in Hdec.
        split; [by intros _|done].
      * apply bool_decide_eq_false in Hdec.
        split; [done|]. intros Hperm. destruct Hdec.
        by apply counter_eq_permutation.
  - split; [done|].
    intros Hperm%Permutation_length.
    rewrite !normalize_results_length in Hperm. congruence.
Qed.

(** C3: when both statements have run without error, Execution Accuracy
    reports a match exactly when the normalized predicted rows are a
    permutation of the normalized reference rows.  The score is 1.0 on a
    match and 0.0 otherwise, [is_correct] is the match; lists of different
    lengths never match, two empty lists do, and a list never matches
    itself with one more row. *)
Theorem execution_accuracy_compares_multisets :
  forall (execution_timeout : Z) (context : EvaluationContext)
         (st st1 st2 : DbState World) (gt_sql pred_sql : string)
         (conn : Connection)
         (gt_result pred_result : option (list Row))
         (gt_error pred_error : option string),
    ground_truth_sql context = Some gt_sql -> gt_sql ≠ "" ->
    predicted_sql context = Some pred_sql -> pred_sql ≠ "" ->
    database_connection context = Some conn ->
    _execute_query World execute_query open_cursor cursor_execute cursor_fetchall
      execution_timeout gt_sql conn st = ((gt_result, gt_error), st1) ->
    _execute_query World execute_query open_cursor cursor_execute cursor_fetchall
      execution_timeout pred_sql conn st1 = ((pred_result, pred_error), st2) ->
    truthy gt_error = false ->
    truthy pred_error = false ->
    let result := (evaluate (execution_accuracy execution_timeout) context st).1 in
    let R := normalize_rows (or_empty gt_result) in
    let P := normalize_rows (or_empty pred_result) in
    (score result = 1%Q <-> P ≡ₚ R) /\
    (score result = 0%Q <-> ¬ P ≡ₚ R) /\
    (is_correct result = true <-> P ≡ₚ R) /\
    (length (or_empty gt_result) ≠ length (or_empty pred_result) ->
     score result = 0%Q) /\
    (or_empty gt_result = [] -> or_empty pred_result = [] -> score result = 1%Q) /\
    (forall row, P = row :: R \/ R = row :: P -> score result = 0%Q).
Proof.
  intros timeout [qid q gt pred c ti] st st1 st2 gt_sql pred_sql conn
    gt_result pred_result gt_error pred_error.
  intros Hg Hgt Hp Hpred Hc Hrun1 Hrun2 He1 He2 result R P.
  cbn [ground_truth_sql predicted_sql database_connection] in Hg, Hp, Hc.
  subst gt pred c.
  assert (result
          = _create_result EX_NAME
              (if (_compare_results round10 gt_result pred_result).1 then 1 else 0)
              (_compare_results round10 gt_result pred_result).1
              (details result) None) as Hresult.
  { unfold result, evaluate, _safe_evaluate, execution_accuracy_metric,
      ExecutionAccuracyMetric, _evaluate_execution.
    cbn [inner name ground_truth_sql predicted_sql database_connection].
    rewrite !truthy_Some.
    destruct (String.eqb_spec gt_sql ""); [done|].
    destruct (String.eqb_spec pred_sql ""); [done|].
    cbn [negb orb]. rewrite Hrun1, Hrun2, He1, He2.
    destruct (_compare_results round10 gt_result pred_result); reflexivity. }
  pose proof (compare_results_spec gt_result pred_result) as Hspec.
  fold R P in Hspec.
  assert (score result = 1%Q <-> P ≡ₚ R) as Hone.
  { rewrite Hresult. cbn [score _create_result].
    destruct (_compare_results round10 gt_result pred_result).1;
      [tauto|]. split; [discriminate|]. intros HP. by apply Hspec in HP. }
  assert (score result = 0%Q <-> ¬ P ≡ₚ R) as Hzero.
  { rewrite Hresult. cbn [score _create_result].
    destruct (_compare_results round10 gt_result pred_result).1.
    - split; [discriminate|]. intros HP. destruct HP. by apply Hspec.
    - split; [|done]. intros _ HP. by apply Hspec in HP. }
  split; [done|]. split; [done|]. split.
  { rewrite Hresult. cbn [is_correct _create_result]. done. }
  split.
  { intros Hlen. apply Hzero. intros HP%Permutation_length.
    unfold P, R in HP. rewrite !normalize_results_length in HP. congruence. }
  split.
  { intros HR HP. apply Hone. unfold P, R. by rewrite HR, HP. }
  intros row [HP|HR]; apply Hzero; intros Hperm%Permutation_length.
  - rewrite HP in Hperm. simpl in Hperm. lia.
  - rewrite HR in Hperm. simpl in Hperm. lia.
Qed.

End ExecutionAccuracyFacts.


Lemma execution_accuracy_requires_connection_witness :
  evaluate Samples.EX (Samples.rows_in_order None) Samples.fresh_state
  = ({| metric_name := "Execution Accuracy (EX)";
        score := 0;
        is_correct := false;
        details := [("reason", PStr "No database connection provided")];
        error_message :=
          Some "Database connection required for execution accuracy" |},
     Samples.fresh_state).
Proof.
  apply (execution_accuracy_requires_connection Samples.same_float unit
           Samples.table_execute_query Samples.no_cursor Samples.no_execute
           Samples.no_fetchall 60 (Samples.rows_in_order None)
           Samples.fresh_state); reflexivity.
Defined.

(** The rows of the reference in another order: a match, with score 1.0. *)
Lemma execution_accuracy_compares_multisets_witness :
  score (evaluate Samples.EX (Samples.rows_in_order Samples.table_connection)
           Samples.fresh_state).1
  = 1%Q.
Proof.
  eapply (proj1 (execution_accuracy_compares_multisets Samples.same_float unit
           Samples.table_execute_query Samples.no_cursor Samples.no_execute
           Samples.no_fetchall 60
           (Samples.rows_in_order Samples.table_connection) Samples.fresh_state
           _ _ _ _ _ _ _ _ _
           eq_refl _ eq_refl _ eq_refl eq_refl eq_refl eq_refl eq_refl)).
  apply perm_swap.
  Unshelve. all: discriminate.
Defined.


(** * The question is informational *)

Section Noninterference.
Import SQLNormalizer SQLParser ExecutionAccuracy.

Variable sqlparse_parse : string -> Exc (list Statement).
Variable _analyze_differences : string -> string -> Exc (list (string * PyVal)).
Variable _regex_component_extraction : string -> Components.
Variable round10 : Qc -> Qc.
Variable World : Type.
Variable execute_query :
  Connection -> string -> World -> Exc (option (list Row) * option string) * World.
Variable open_cursor : Connection -> World -> Exc unit * World.
Variable cursor_execute : Connection -> string -> World -> Exc unit * World.
Variable cursor_fetchall : Connection -> World -> Exc (list Row) * World.

Local Abbreviation exact_match_metric :=
  (exact_match_metric sqlparse_parse _analyze_differences World).
Local Abbreviation component_matching_metric :=
  (component_matching_metric sqlparse_parse _regex_component_extraction World).
Local Abbreviation execution_accuracy_metric :=
  (execution_accuracy_metric round10 World execute_query open_cursor
     cursor_execute cursor_fetchall).

Lemma exact_match_ignores_question c1 c2 st :
  same_statements c1 c2 ->
  evaluate exact_match_metric c1 st = evaluate exact_match_metric c2 st.
Proof.
  destruct c1, c2. intros (Hgt & Hpred & Hconn). simpl in *. subst.
  reflexivity.
Qed.

Lemma component_matching_ignores_question c1 c2 st :
  same_statements c1 c2 ->
  evaluate component_matching_metric c1 st
  = evaluate component_matching_metric c2 st.
Proof.
  destruct c1, c2. intros (Hgt & Hpred & Hconn). simpl in *. subst.
  reflexivity.
Qed.

Lemma execution_accuracy_ignores_question timeout c1 c2 st :
  same_statements c1 c2 ->
  evaluate (execution_accuracy_metric timeout) c1 st
  = evaluate (execution_accuracy_metric timeout) c2 st.
Proof.
  destruct c1, c2. intros (Hgt & Hpred & Hconn). simpl in *. subst.
  reflexivity.
Qed.

(** C9: two runs from the same state of the database, on contexts with the
    same reference statement, predicted statement and database handle,
    give the same score and the same [is_correct], for each of the three
    metrics, whatever the question identifiers and texts are. *)
Theorem question_is_informational :
  forall (execution_timeout : Z) (c1 c2 : EvaluationContext) (st : DbState World),
    ground_truth_sql c1 = ground_truth_sql c2 ->
    predicted_sql c1 = predicted_sql c2 ->
    database_connection c1 = database_connection c2 ->
    Forall (fun m : Metric (DbState World) =>
              score (evaluate m c1 st).1 = score (evaluate m c2 st).1 /\
              is_correct (evaluate m c1 st).1 = is_correct (evaluate m c2 st).1)
           [exact_match_metric; component_matching_metric;
            execution_accuracy_metric execution_timeout].
Proof.
  intros timeout c1 c2 st Hgt Hpred Hconn.
  assert (same_statements c1 c2) as Hsame by done.
  repeat apply Forall_cons_2; [| | |apply Forall_nil_2].
  - by rewrite (exact_match_ignores_question c1 c2 st Hsame).
  - by rewrite (component_matching_ignores_question c1 c2 st Hsame).
  - by rewrite (execution_accuracy_ignores_question timeout c1 c2 st Hsame).
Qed.

End Noninterference.


Lemma question_is_informational_witness :
  Forall (fun m : Metric (ExecutionAccuracy.DbState unit) =>
            score (evaluate m (Samples.rows_in_order Samples.table_connection)
                     Samples.fresh_state).1
            = score (evaluate m (Samples.rows_in_order_again Samples.table_connection)
                       Samples.fresh_state).1 /\
            is_correct (evaluate m (Samples.rows_in_order Samples.table_connection)
                          Samples.fresh_state).1
            = is_correct (evaluate m (Samples.rows_in_order_again Samples.table_connection)
                            Samples.fresh_state).1)
         [Samples.EM; Samples.CM; Samples.EX].
Proof.
  exact (question_is_informational Samples.sqlparse_sample Samples.no_analysis
           Samples.no_regex_extraction Samples.same_float unit
           Samples.table_execute_query Samples.no_cursor Samples.no_execute
           Samples.no_fetchall 60
           (Samples.rows_in_order Samples.table_connection)
           (Samples.rows_in_order_again Samples.table_connection)
           Samples.fresh_state eq_refl eq_refl eq_refl).
Defined.


(** * Properties of the column comparator *)

Section ColumnComparatorFacts.
Import PyStr ColumnComparator.





Lemma compare_individual_values gt_item pred_item :
  _compare_individual_items gt_item pred_item = 0%Q \/
  _compare_individual_items gt_item pred_item = 0.7%Q \/
  _compare_individual_items gt_item pred_item = 1%Q.
Proof.
  unfold _compare_individual_items.
  repeat (match goal with |- context [if ?b then _ else _] => destruct b end);
    auto.
Qed.

Lemma compare_individual_bounds gt_item pred_item :
  (0 <= _compare_individual_items gt_item pred_item <= 1)%Q.
Proof.
  destruct (compare_individual_values gt_item pred_item) as [->|[->| ->]];
    split; discriminate.
Qed.

Lemma qmax_l a b : (a <= qmax a b)%Q.
Proof.
  unfold qmax. destruct (Qle_bool b a) eqn:H; [apply Qle_refl|].
  destruct (Qlt_le_dec b a) as [Hlt|Hle]; [|done].
  apply Qlt_le_weak, Qle_bool_iff in Hlt. congruence.
Qed.

Lemma qmax_r a b : (b <= qmax a b)%Q.
Proof.
  unfold qmax. destruct (Qle_bool b a) eqn:H; [|apply Qle_refl].
  by apply Qle_bool_iff.
Qed.

Lemma qmax_cases a b : qmax a b = a \/ qmax a b = b.
Proof. unfold qmax. destruct (Qle_bool b a); auto. Qed.

Lemma fold_qmax_ge (f : string -> Q) l acc :
  (acc <= fold_left (fun best p => qmax best (f p)) l acc)%Q.
Proof.
  revert acc. induction l as [|p l IH]; intros acc; [apply Qle_refl|].
  simpl. eapply Qle_trans; [apply qmax_l|apply IH].
Qed.

Lemma fold_qmax_upper (f : string -> Q) l acc p :
  p ∈ l -> (f p <= fold_left (fun best p => qmax best (f p)) l acc)%Q.
Proof.
  revert acc. induction l as [|x l IH]; intros acc Hin;
    [by apply elem_of_nil in Hin|].
  simpl. apply elem_of_cons in Hin as [->|Hin].
  - eapply Qle_trans; [apply qmax_r|apply fold_qmax_ge].
  - by apply IH.
Qed.

Lemma fold_qmax_attained (f : string -> Q) l acc :
  fold_left (fun best p => qmax best (f p)) l acc = acc \/
  exists p, p ∈ l /\ fold_left (fun best p => qmax best (f p)) l acc = f p.
Proof.
  revert acc. induction l as [|x l IH]; intros acc; [by left|].
  simpl. destruct (IH (qmax acc (f x))) as [Heq|(p & Hin & Heq)].
  - rewrite Heq. destruct (qmax_cases acc (f x)) as [->| ->]; [by left|].
    right. exists x. split; [apply list_elem_of_here|done].
  - right. exists p. split; [by apply list_elem_of_further|done].
Qed.

(** The best match of a reference item is the greatest similarity it has
    with a predicted item. *)
Lemma best_match_is_maximum gt_item pred_normalized :
  (forall p, p ∈ pred_normalized ->
     (_compare_individual_items gt_item p <= best_match gt_item pred_normalized)%Q) /\
  (pred_normalized ≠ [] ->
   exists p, p ∈ pred_normalized /\
     best_match gt_item pred_normalized = _compare_individual_items gt_item p).
Proof.
  unfold best_match. split.
  - intros p Hin. by apply (fold_qmax_upper (_compare_individual_items gt_item)).
  - intros Hne.
    destruct (fold_qmax_attained (_compare_individual_items gt_item)
                pred_normalized 0%Q) as [Hzero|Hp]; [|done].
    destruct pred_normalized as [|p rest]; [done|].
    exists p. split; [apply list_elem_of_here|].
    pose proof (fold_qmax_upper (_compare_individual_items gt_item)
                  (p :: rest) 0%Q p (list_elem_of_here _ _)) as Hle.
    rewrite Hzero in Hle. rewrite Hzero.
    destruct (compare_individual_values gt_item p) as [H|[H|H]];
      rewrite H in Hle |- *; [done|by destruct Hle..].
Qed.

Lemma best_match_bounds gt_item pred_normalized :
  (0 <= best_match gt_item pred_normalized <= 1)%Q.
Proof.
  split; [apply fold_qmax_ge|].
  unfold best_match.
  destruct (fold_qmax_attained (_compare_individual_items gt_item)
              pred_normalized 0%Q) as [->|(p & _ & ->)]; [discriminate|].
  apply compare_individual_bounds.
Qed.

(** The sum the outer loop accumulates is the sum of the best matches. *)
Lemma total_similarity_from acc gt_normalized pred_normalized :
  (fold_left (fun total gt_item => total + best_match gt_item pred_normalized)
     gt_normalized acc
   == acc + Qsum (map (fun gt_item => best_match gt_item pred_normalized)
                      gt_normalized))%Q.
Proof.
  revert acc. induction gt_normalized as [|g l IH]; intros acc; simpl.
  - unfold Qsum. simpl. ring.
  - rewrite IH. unfold Qsum. simpl. ring.
Qed.

Lemma total_similarity_sum gt_normalized pred_normalized :
  (total_similarity gt_normalized pred_normalized
   == Qsum (map (fun gt_item => best_match gt_item pred_normalized)
                gt_normalized))%Q.
Proof.
  unfold total_similarity. rewrite total_similarity_from. ring.
Qed.

Lemma Qsum_bounds (l : list Q) :
  Forall (fun x => 0 <= x <= 1)%Q l ->
  (0 <= Qsum l <= inject_Z (Z.of_nat (length l)))%Q.
Proof.
  induction 1 as [|x l [Hx0 Hx1] _ [IH0 IH1]]; unfold Qsum; cbn [foldr].
  - split; apply Qle_refl.
  - fold (Qsum l). change (length (x :: l)) with (S (length l)).
    rewrite Nat2Z.inj_succ, <-Z.add_1_l, inject_Z_plus.
    split.
    + replace 0%Q with (0 + 0)%Q by done. by apply Qplus_le_compat.
    + by apply Qplus_le_compat.
Qed.


Lemma jaccard_formula (a b : gset string) :
  a ∪ b ≠ ∅ ->
  jaccard a b
  = (inject_Z (Z.of_nat (size (a ∩ b))) / inject_Z (Z.of_nat (size (a ∪ b))))%Q.
Proof.
  intros Hne. unfold jaccard.
  destruct (Nat.ltb_spec 0 (size (a ∪ b))) as [|Hle]; [done|].
  destruct Hne. apply leibniz_equiv, size_empty_iff. lia.
Qed.



























End ColumnComparatorFacts.


(** * Properties of Component Matching *)

Section ComponentMatchingFacts.
Import PyStr SQLNormalizer SQLParser ColumnComparator ComponentMatching.

Context {S : Type}.
Variable sqlparse_parse : string -> Exc (list Statement).
Variable _regex_component_extraction : string -> Components.

Local Abbreviation component_matching :=
  (@ComponentMatchingMetric S sqlparse_parse _regex_component_extraction).
Local Abbreviation components_of :=
  (extract_components sqlparse_parse _regex_component_extraction).
Local Abbreviation clause :=
  (clause_score sqlparse_parse _regex_component_extraction).











Lemma weighted_sum_clauses gt pred :
  (weighted_sum (evaluate_all sqlparse_parse (components_of gt) (components_of pred))
   == 0.25 * clause gt pred "select"
      + 0.20 * clause gt pred "from"
      + 0.20 * clause gt pred "where"
      + 0.15 * clause gt pred "joins"
      + 0.10 * clause gt pred "group_by"
      + 0.05 * clause gt pred "order_by"
      + 0.03 * clause gt pred "having"
      + 0.02 * clause gt pred "limit")%Q.
Proof.
  unfold weighted_sum, evaluate_all, clause_weights, clause_score.
  cbn [map fold_left fst snd score_of String.eqb Ascii.eqb Bool.eqb].
  ring.
Qed.


End ComponentMatchingFacts.



(** * Properties of the aggregation *)

Section AggregationFacts.
Import SQLNormalizer SQLParser ExecutionAccuracy Aggregation.

Variable sqlparse_parse : string -> Exc (list Statement).
Variable _analyze_differences : string -> string -> Exc (list (string * PyVal)).
Variable _regex_component_extraction : string -> Components.
Variable round10 : Qc -> Qc.
Variable World : Type.
Variable execute_query :
  Connection -> string -> World -> Exc (option (list Row) * option string) * World.
Variable open_cursor : Connection -> World -> Exc unit * World.
Variable cursor_execute : Connection -> string -> World -> Exc unit * World.
Variable cursor_fetchall : Connection -> World -> Exc (list Row) * World.

Local Abbreviation EM :=
  (exact_match_metric sqlparse_parse _analyze_differences World).
Local Abbreviation CM :=
  (component_matching_metric sqlparse_parse _regex_component_extraction World).
Local Abbreviation EX :=
  (execution_accuracy_metric round10 World execute_query open_cursor
     cursor_execute cursor_fetchall).

Lemma sum_scores_from acc scores :
  (fold_left Qplus scores acc == acc + Qsum scores)%Q.
Proof.
  revert acc. induction scores as [|s l IH]; intros acc; unfold Qsum; simpl.
  - ring.
  - rewrite IH. unfold Qsum. ring.
Qed.

Lemma sum_scores_Qsum scores : (sum_scores scores == Qsum scores)%Q.
Proof. unfold sum_scores. rewrite sum_scores_from. ring. Qed.






Lemma aggregated_metrics_lookup evaluate_questions metric_name scores :
  (metric_name, scores) ∈ metric_scores evaluate_questions ->
  (metric_name, metric_stats scores)
  ∈ aggregated_metrics (aggregate_results evaluate_questions).
Proof.
  intros Hin. unfold aggregate_results. cbn [aggregated_metrics].
  apply list_elem_of_fmap. by exists (metric_name, scores).
Qed.

Lemma metric_stats_nonempty scores :
  scores ≠ [] ->
  metric_stats scores
  = mkMetricStats
      (sum_scores scores / inject_Z (len scores))
      (inject_Z (count_if (fun s => Qle_bool 0.8 s) scores) / inject_Z (len scores))
      (count_if (fun s => Qeq_bool s 1) scores)
      (len scores).
Proof. by destruct scores. Qed.


End AggregationFacts.



(** * The normalizer is not idempotent *)

Section NormalizerFacts.
Import PyStr SQLNormalizer.

(** C6 (as the code behaves): [normalize_sql] is not idempotent.  The
    statement [SELECT 1 ;] normalizes to [SELECT 1 ] with a final space,
    because the terminator is removed after the text was stripped; and that
    result normalizes to [SELECT 1].  This is so on the parser's path and on
    the fallback path alike. *)
Theorem normalize_sql_not_idempotent :
  forall parse : string -> Exc (list Statement),
    parses_as_or_raises parse "SELECT 1 ;" Samples.select_1_terminated ->
    parses_as_or_raises parse "SELECT 1 " Samples.select_1_space ->
    normalize_sql parse "SELECT 1 ;" = "SELECT 1 " /\
    normalize_sql parse (normalize_sql parse "SELECT 1 ;") = "SELECT 1" /\
    String.eqb (normalize_sql parse (normalize_sql parse "SELECT 1 ;"))
               (normalize_sql parse "SELECT 1 ;") = false.
Proof.
  intros parse H1 H2.
  assert (normalize_sql parse "SELECT 1 ;" = "SELECT 1 ") as Hfirst.
  { unfold normalize_sql, first_statement. cbn [String.eqb Ascii.eqb Bool.eqb orb].
    destruct H1 as [[rest ->]|[e ->]]; vm_compute; reflexivity. }
  assert (normalize_sql parse "SELECT 1 " = "SELECT 1") as Hsecond.
  { unfold normalize_sql, first_statement. cbn [String.eqb Ascii.eqb Bool.eqb orb].
    destruct H2 as [[rest ->]|[e ->]]; vm_compute; reflexivity. }
  rewrite Hfirst, Hsecond. repeat split; reflexivity.
Qed.

(** A consequence for Exact Match: two statements that differ only by the
    space before the terminator's place do not match. *)
Lemma exact_match_sees_space_before_terminator :
  score (evaluate Samples.EM Samples.space_before_terminator
           Samples.fresh_state).1 = 0%Q.
Proof. vm_compute. reflexivity. Qed.

End NormalizerFacts.

Lemma normalize_sql_not_idempotent_witness :
  SQLNormalizer.normalize_sql Samples.sqlparse_sample "SELECT 1 ;" = "SELECT 1 " /\
  SQLNormalizer.normalize_sql Samples.sqlparse_sample
    (SQLNormalizer.normalize_sql Samples.sqlparse_sample "SELECT 1 ;") = "SELECT 1" /\
  String.eqb
    (SQLNormalizer.normalize_sql Samples.sqlparse_sample
       (SQLNormalizer.normalize_sql Samples.sqlparse_sample "SELECT 1 ;"))
    (SQLNormalizer.normalize_sql Samples.sqlparse_sample "SELECT 1 ;") = false.
Proof.
  apply (normalize_sql_not_idempotent Samples.sqlparse_sample).
  - left. exists []. reflexivity.
  - left. exists []. reflexivity.
Defined.


(** * Further properties of the task graph *)

Section MoreDagFacts.
Import Dag.

Context {Data : Type}.

Lemma add_node_present n g : n ∈ nodes g -> add_node n g = g.
Proof. intros Hin. unfold add_node. by rewrite bool_decide_eq_true_2. Qed.

Lemma add_edge_present u v g :
  u ∈ nodes g -> v ∈ nodes g ->
  nodes (add_edge u v g) = nodes g /\
  (forall e, e ∈ edges (add_edge u v g) <-> e ∈ edges g \/ e = (u, v)).
Proof.
  intros Hu Hv. unfold add_edge.
  rewrite (add_node_present u g Hu), (add_node_present v g Hv).
  case_bool_decide as Hin; cbn [nodes edges].
  - split; [done|]. intros e. split; [by left|]. by intros [?| ->].
  - split; [done|]. intros e. rewrite elem_of_app, list_elem_of_singleton. done.
Qed.

Lemma add_edges_present name deps g :
  name ∈ nodes g -> (forall dep, dep ∈ deps -> dep ∈ nodes g) ->
  let g' := fold_left (fun g dep => add_edge dep name g) deps g in
  nodes g' = nodes g /\
  (forall e, e ∈ edges g' <->
             e ∈ edges g \/ exists dep, dep ∈ deps /\ e = (dep, name)).
Proof.
  revert g. induction deps as [|dep deps IH]; intros g Hname Hdeps; cbn.
  - split; [done|]. intros e. split; [by left|].
    intros [?|(dep & Hin & _)]; [done|]. by apply elem_of_nil in Hin.
  - destruct (add_edge_present dep name g) as [Hn He];
      [apply Hdeps, list_elem_of_here|done|].
    destruct (IH (add_edge dep name g)) as [Hn' He'].
    { by rewrite Hn. }
    { intros d Hd. rewrite Hn. by apply Hdeps, list_elem_of_further. }
    split; [by rewrite Hn', Hn|].
    intros e. rewrite He', He. split.
    + intros [[?| ->]|(d & Hd & ->)].
      * by left.
      * right. exists dep. split; [apply list_elem_of_here|done].
      * right. exists d. split; [by apply list_elem_of_further|done].
    + intros [?|(d & [->|Hd]%elem_of_cons & ->)].
      * by left; left.
      * by left; right.
      * right. by exists d.
Qed.

Lemma missing_dependency_None (dag : EvaluationDAG Data) deps :
  missing_dependency Data dag deps = None <->
  forall dep, dep ∈ deps -> is_Some (tasks Data dag !! dep).
Proof.
  unfold missing_dependency. induction deps as [|d deps IH]; cbn.
  - split; [|done]. intros _ dep Hin. by apply elem_of_nil in Hin.
  - case_bool_decide as Hd.
    + split; [done|]. intros H. specialize (H d (list_elem_of_here _ _)).
      rewrite Hd in H. by destruct H.
    + rewrite IH. split.
      * intros H dep [->|Hin]%elem_of_cons; [|by apply H].
        by apply not_eq_None_Some.
      * intros H dep Hin. by apply H, list_elem_of_further.
Qed.

Lemma missing_dependency_Some (dag : EvaluationDAG Data) deps dep :
  missing_dependency Data dag deps = Some dep ->
  dep ∈ deps /\ tasks Data dag !! dep = None.
Proof.
  unfold missing_dependency. induction deps as [|d deps IH]; cbn; [done|].
  case_bool_decide as Hd.
  - intros [= <-]. split; [apply list_elem_of_here|done].
  - intros H. destruct (IH H) as [Hin Hnone].
    split; [by apply list_elem_of_further|done].
Qed.

(** What a call of [add_task] that returns has done. *)
Lemma add_task_Ret (dag dag' : EvaluationDAG Data) name func depends_on description :
  add_task Data dag name func depends_on description = Ret dag' ->
  tasks Data dag !! name = None /\
  (forall dep, dep ∈ default [] depends_on -> is_Some (tasks Data dag !! dep)) /\
  dag' = {| dag_name := dag_name Data dag;
            graph := fold_left (fun g dep => add_edge dep name g)
                               (default [] depends_on)
                               (add_node name (graph Data dag));
            tasks := <[name := mkTaskDefinition Data name func
                                 (default [] depends_on) description]>
                       (tasks Data dag);
            results := results Data dag |}.
Proof.
  unfold add_task. case_bool_decide as Hname; [done|].
  destruct (missing_dependency Data dag (default [] depends_on)) eqn:Hmiss; [done|].
  intros [= <-]. split; [|split; [|done]].
  - destruct (tasks Data dag !! name) eqn:E; [|done].
    exfalso. apply Hname. by eexists.
  - by apply missing_dependency_None.
Qed.

Lemma before_app_l l k u v : before l u v -> before (l ++ k) u v.
Proof.
  intros (i & j & Hi & Hj & Hij). exists i, j.
  split; [by apply lookup_app_l_Some|]. split; [by apply lookup_app_l_Some|done].
Qed.

Lemma before_last l u v : u ∈ l -> before (l ++ [v]) u v.
Proof.
  intros (i & Hi)%list_elem_of_lookup_1. exists i, (length l).
  split; [by apply lookup_app_l_Some|]. split.
  - rewrite lookup_app_r by lia. by rewrite Nat.sub_diag.
  - by apply lookup_lt_Some in Hi.
Qed.

Lemma before_trans l u v w :
  NoDup l -> before l u v -> before l v w -> before l u w.
Proof.
  intros Hnd (i & j & Hi & Hj & Hij) (j' & k & Hj' & Hk & Hjk).
  assert (j = j') as <- by (eapply NoDup_lookup; eauto).
  exists i, k. repeat split; [done|done|lia].
Qed.

Lemma before_irrefl l n : NoDup l -> ~ before l n n.
Proof.
  intros Hnd (i & j & Hi & Hj & Hij).
  assert (i = j) by (eapply NoDup_lookup; eauto). lia.
Qed.

Lemma consistent_new name : consistent (new_dag Data name).
Proof.
  unfold consistent, new_dag, edge. cbn.
  split; [constructor|]. split; [|split].
  - intros n. split; [by intros H%elem_of_nil|].
    rewrite lookup_empty. by intros [? ?].
  - intros u v. split; [by intros H%elem_of_nil|].
    intros (td & H & _). by rewrite lookup_empty in H.
  - by intros u v H%elem_of_nil.
Qed.

Lemma consistent_add (dag dag' : EvaluationDAG Data) name func depends_on description :
  consistent dag ->
  add_task Data dag name func depends_on description = Ret dag' ->
  consistent dag'.
Proof.
  intros (Hnd & Hnodes & Hedges & Hfwd) (Hnew & Hdeps & ->)%add_task_Ret.
  assert (name ∉ nodes (graph Data dag)) as Hnotin.
  { rewrite Hnodes, Hnew. by intros [? ?]. }
  assert (add_node name (graph Data dag)
          = mkDiGraph (nodes (graph Data dag) ++ [name]) (edges (graph Data dag)))
    as Hadd.
  { unfold add_node. by rewrite bool_decide_eq_false_2. }
  destruct (add_edges_present name (default [] depends_on)
              (add_node name (graph Data dag))) as [Hn He].
  { rewrite Hadd. cbn. apply elem_of_app. right. apply list_elem_of_here. }
  { intros dep Hdep. rewrite Hadd. cbn. apply elem_of_app. left.
    by apply Hnodes, Hdeps. }
  rewrite Hadd in Hn, He. cbn [nodes edges] in Hn, He.
  unfold consistent, edge. cbn [graph tasks]. rewrite Hadd, Hn.
  split; [|split; [|split]].
  - apply NoDup_app. split; [done|]. split; [|apply NoDup_singleton].
    intros x Hx ->%list_elem_of_singleton. done.
  - intros n. rewrite elem_of_app, list_elem_of_singleton, Hnodes.
    destruct (decide (n = name)) as [->|Hne].
    + rewrite lookup_insert_eq. split; [by eexists|by right].
    + rewrite lookup_insert_ne by done. split; [by intros [?|?]|by left].
  - intros u v. rewrite He. split.
    + intros [Hold|(dep & Hdep & [= -> ->])].
      * apply Hedges in Hold as (td & Htd & Hu).
        exists td. split; [|done]. rewrite lookup_insert_ne; [done|].
        intros <-. by rewrite Hnew in Htd.
      * eexists. rewrite lookup_insert_eq. split; [done|]. done.
    + intros (td & Htd & Hu).
      destruct (decide (v = name)) as [->|Hne].
      * rewrite lookup_insert_eq in Htd. injection Htd as <-.
        right. by exists u.
      * rewrite lookup_insert_ne in Htd by done.
        left. apply Hedges. by exists td.
  - intros u v [Hold|(dep & Hdep & [= -> ->])]%He.
    + by apply before_app_l, Hfwd.
    + by apply before_last, Hnodes, Hdeps.
Qed.

Lemma built_consistent (dag : EvaluationDAG Data) : built dag -> consistent dag.
Proof.
  induction 1 as [name|dag name func deps descr dag' _ IH Hadd].
  - apply consistent_new.
  - by eapply consistent_add.
Qed.

Lemma consistent_path (dag : EvaluationDAG Data) u v :
  consistent dag ->
  tc (edge (graph Data dag)) u v -> before (nodes (graph Data dag)) u v.
Proof.
  intros (Hnd & _ & _ & Hfwd). induction 1 as [u v H|u v w H _ IH].
  - by apply Hfwd.
  - eapply before_trans; [done|by apply Hfwd|done].
Qed.

End MoreDagFacts.

(** X1: a pipeline that was put together with [add_task] has a consistent
    graph without cycles: its nodes are the registered tasks, its edges the
    declared dependencies, every edge leads from a task to one that was
    added later, and so no task can be reached from itself. *)
Theorem add_task_builds_acyclic_graph :
  forall (Data : Type) (dag : Dag.EvaluationDAG Data),
    built dag ->
    consistent dag /\
    (forall u v, tc (edge (Dag.graph Data dag)) u v ->
                 before (Dag.nodes (Dag.graph Data dag)) u v) /\
    (forall n, ~ tc (edge (Dag.graph Data dag)) n n).
Proof.
  intros Data dag Hbuilt.
  pose proof (built_consistent dag Hbuilt) as Hc.
  split; [done|]. split.
  - intros u v. by apply consistent_path.
  - intros n Hcycle. apply consistent_path in Hcycle; [|done].
    destruct Hc as (Hnd & _). by eapply before_irrefl.
Qed.

(** The two-task pipeline of the samples was built with [add_task]. *)
Lemma pipeline_dag_built : built Samples.pipeline_dag.
Proof.
  pose (dag1 := try_except
                  (Dag.add_task _ (Dag.new_dag _ "Evaluation Pipeline")
                     "load_data" Samples.load_data None None)
                  (fun _ => Dag.new_dag _ "")).
  apply (built_add dag1 "generate_report" Samples.generate_report
           (Some ["load_data"]) None); [|vm_compute; reflexivity].
  apply (built_add (Dag.new_dag _ "Evaluation Pipeline") "load_data"
           Samples.load_data None None); [apply built_new|].
  vm_compute; reflexivity.
Qed.

(** In the two-task pipeline the only edge leads from [load_data] to
    [generate_report], and there is no way back. *)
Lemma add_task_builds_acyclic_graph_witness :
  built Samples.pipeline_dag /\
  consistent Samples.pipeline_dag /\
  ~ tc (edge (Dag.graph _ Samples.pipeline_dag)) "generate_report" "load_data".
Proof.
  pose proof pipeline_dag_built as Hbuilt.
  split; [exact Hbuilt|].
  destruct (add_task_builds_acyclic_graph _ Samples.pipeline_dag Hbuilt)
    as (Hc & Hpath & _).
  split; [exact Hc|].
  intros (i & j & Hi & Hj & Hij)%Hpath.
  destruct i as [|[|i]]; vm_compute in Hi; try discriminate Hi.
  destruct j as [|[|j]]; [lia|lia|]. vm_compute in Hj. discriminate Hj.
Defined.

(** X2: [add_task] returns exactly when the name is new and every
    dependency is already registered.  A name that is taken raises the
    "already exists" error, whatever the dependencies are; and a task can
    never be registered as its own dependency. *)
Theorem add_task_succeeds_iff :
  forall (Data : Type) (dag : Dag.EvaluationDAG Data) (name : string)
         (func : gmap string Data -> Exc Data) (depends_on : option (list string))
         (description : option string),
    ((exists dag', Dag.add_task Data dag name func depends_on description = Ret dag')
     <-> Dag.tasks Data dag !! name = None /\
         forall dep, dep ∈ default [] depends_on ->
                     is_Some (Dag.tasks Data dag !! dep)) /\
    (is_Some (Dag.tasks Data dag !! name) ->
     Dag.add_task Data dag name func depends_on description
     = Raise ("Task '" +:+ name +:+ "' already exists in DAG")) /\
    (name ∈ default [] depends_on ->
     exists msg, Dag.add_task Data dag name func depends_on description = Raise msg).
Proof.
  intros Data dag name func depends_on description.
  assert (is_Some (Dag.tasks Data dag !! name) ->
          Dag.add_task Data dag name func depends_on description
          = Raise ("Task '" +:+ name +:+ "' already exists in DAG")) as Hdup.
  { intros Hsome. unfold Dag.add_task. by rewrite bool_decide_eq_true_2. }
  split; [|split; [exact Hdup|]].
  - split.
    + intros [dag' (Hnew & Hdeps & _)%add_task_Ret]. done.
    + intros [Hnew Hdeps]. unfold Dag.add_task.
      rewrite bool_decide_eq_false_2 by (rewrite Hnew; by intros [? ?]).
      apply missing_dependency_None in Hdeps. rewrite Hdeps. by eexists.
  - intros Hself.
    destruct (Dag.add_task Data dag name func depends_on description)
      as [dag'|msg] eqn:Hadd; [|by exists msg].
    apply add_task_Ret in Hadd as (Hnew & Hdeps & _).
    destruct (Hdeps name Hself) as [td Htd]. by rewrite Hnew in Htd.
Qed.

Section ExecuteFlow.
Import Dag.

Context {Data : Type} (py_none : Data).

Lemma inputs_from_ext (initial_data : gmap string Data)
    (r1 r2 : gmap string (TaskResult Data)) deps :
  (forall dep, dep ∈ deps -> r1 !! dep = r2 !! dep) ->
  inputs_from initial_data r1 deps = inputs_from initial_data r2 deps.
Proof.
  unfold inputs_from. revert initial_data.
  induction deps as [|d deps IH]; intros initial_data Hagree; [done|].
  cbn. rewrite (Hagree d) by apply list_elem_of_here.
  apply IH. intros dep Hin. by apply Hagree, list_elem_of_further.
Qed.

(** The loop over the dependencies of a task that is not its own
    dependency: the inputs it collects. *)
Lemma visit_dependencies_inputs task_name deps :
  forall (task_inputs : gmap string Data) (results1 results0 : gmap string (TaskResult Data)),
    task_name ∉ deps ->
    (forall dep, dep ∈ deps -> results1 !! dep = results0 !! dep) ->
    fst (fold_left (visit_dependency Data py_none task_name) deps
                   (task_inputs, results1))
    = inputs_from task_inputs results0 deps.
Proof.
  induction deps as [|d deps IH]; intros task_inputs results1 results0 Hnotin Hagree;
    [done|].
  apply not_elem_of_cons in Hnotin as [Hne Hnotin].
  cbn [fold_left]. unfold inputs_from. cbn [fold_left].
  fold (inputs_from
          match results0 !! d with
          | Some dep_result =>
              if success Data dep_result
              then <[d:=data Data dep_result]> task_inputs else task_inputs
          | None => task_inputs
          end results0 deps).
  unfold visit_dependency at 2.
  rewrite (Hagree d) by apply list_elem_of_here.
  assert (forall dep, dep ∈ deps -> results1 !! dep = results0 !! dep) as Hrest
    by (intros dep Hin; by apply Hagree, list_elem_of_further).
  destruct (results0 !! d) as [r|]; [|by apply IH].
  destruct (success Data r); [by apply IH|].
  apply IH; [done|]. intros dep Hin.
  rewrite lookup_insert_ne; [by apply Hrest|]. by intros <-.
Qed.

Lemma execute_task_inputs tasks initial_data run task_name run' task_def :
  execute_task Data py_none tasks initial_data run task_name = Ret run' ->
  tasks !! task_name = Some task_def ->
  task_name ∉ depends_on Data task_def ->
  run_results Data run' !! task_name
  = Some (outcome py_none task_def task_name
            (inputs_from initial_data (run_results Data run)
               (depends_on Data task_def))).
Proof.
  unfold execute_task. intros Hrun Htd Hself. rewrite Htd in Hrun.
  pose proof (visit_dependencies_inputs task_name (depends_on Data task_def)
                initial_data (run_results Data run) (run_results Data run)
                Hself (fun _ _ => eq_refl)) as Hinputs.
  destruct (fold_left _ _ _) as [task_inputs results].
  injection Hrun as <-. cbn [run_results]. cbn [fst] in Hinputs. subst task_inputs.
  apply call_task_lookup.
Qed.

Lemma execute_order_inputs tasks initial_data order :
  forall done run run',
    NoDup (done ++ order) ->
    respects_dependencies tasks (done ++ order) ->
    execute_order Data py_none tasks initial_data order run = Ret run' ->
    forall task_name, task_name ∈ order ->
      exists task_def,
        tasks !! task_name = Some task_def /\
        run_results Data run' !! task_name
        = Some (outcome py_none task_def task_name
                  (inputs_from initial_data (run_results Data run')
                     (depends_on Data task_def))).
Proof.
  induction order as [|t rest IH]; intros done run run' Hnd Hresp Hrun task_name Hin.
  { by apply elem_of_nil in Hin. }
  cbn [execute_order] in Hrun.
  destruct (execute_task Data py_none tasks initial_data run t) as [run1|] eqn:Hstep;
    [|done].
  cbn [bind] in Hrun.
  assert (NoDup (t :: rest)) as Hnd' by (by apply NoDup_app in Hnd as (_ & _ & ?)).
  apply NoDup_cons in Hnd' as [Ht Hrest].
  pose proof Hstep as (_ & (td & ins & Htd & _) & Hother1)%execute_task_spec.
  pose proof (execute_order_spec py_none tasks initial_data rest run1 run' Hrest Hrun)
    as (_ & _ & Hother).
  apply elem_of_cons in Hin as [->|Hin].
  - exists td. split; [done|].
    assert (forall dep, dep ∈ depends_on Data td -> dep ∉ t :: rest) as Hdeps
      by (intros dep Hdep; by eapply Hresp).
    rewrite Hother by done.
    rewrite (execute_task_inputs _ _ _ _ _ td Hstep Htd).
    + do 2 f_equal. apply inputs_from_ext. intros dep Hdep.
      apply Hdeps, not_elem_of_cons in Hdep as [Hne Hnotin].
      rewrite Hother by done. symmetry. by apply Hother1.
    + intros Hself. apply Hdeps in Hself. apply Hself, list_elem_of_here.
  - apply (IH (done ++ [t]) run1 run'); try done.
    + by rewrite <-app_assoc.
    + by rewrite <-app_assoc.
Qed.

Lemma topological_respects (dag : EvaluationDAG Data) order :
  consistent dag ->
  topological_order (graph Data dag) order ->
  NoDup order /\ respects_dependencies (tasks Data dag) order.
Proof.
  intros (Hnd & _ & Hedges & _) [Hperm Hfwd].
  assert (NoDup order) as Hnd' by (by rewrite Hperm).
  split; [done|].
  intros done t todo td -> Htd dep Hdep Hin.
  assert (edge (graph Data dag) dep t) as He by (apply Hedges; by exists td).
  apply Hfwd in He as (i & j & Hi & Hj & Hij).
  assert (j = length done) as ->.
  { eapply NoDup_lookup; [done|exact Hj|].
    rewrite lookup_app_r by lia. by rewrite Nat.sub_diag. }
  rewrite lookup_app_l in Hi by done.
  apply list_elem_of_lookup_2 in Hi.
  apply NoDup_app in Hnd' as (_ & Hdisjoint & _). by eapply Hdisjoint.
Qed.

End ExecuteFlow.

(** X3: what a task is called with.  For a pipeline built with [add_task]
    and run in a topological order of its graph, [execute] calls every task
    on the initial data extended, under the name of each dependency that
    succeeded, with the data of that dependency, and records the outcome of
    that call; a failed dependency just leaves its entry out of the
    arguments. *)
Theorem execute_passes_results_of_successful_dependencies :
  forall (Data : Type) (py_none : Data)
         (is_dag : Dag.DiGraph -> bool) (topo : Dag.DiGraph -> list string)
         (dag : Dag.EvaluationDAG Data) (initial_data : option (gmap string Data))
         (run : Dag.Run Data),
    built dag ->
    topological_order (Dag.graph Data dag) (Dag.get_execution_order Data topo dag) ->
    Dag.execute Data py_none is_dag topo dag initial_data = Ret run ->
    Dag.invoked Data run = Dag.get_execution_order Data topo dag /\
    forall task_name, task_name ∈ Dag.nodes (Dag.graph Data dag) ->
      exists task_def,
        Dag.tasks Data dag !! task_name = Some task_def /\
        Dag.run_results Data run !! task_name
        = Some (outcome py_none task_def task_name
                  (inputs_from (default ∅ initial_data) (Dag.run_results Data run)
                     (Dag.depends_on Data task_def))).
Proof.
  intros Data py_none is_dag topo dag initial_data run Hbuilt Htopo Hrun.
  pose proof (built_consistent dag Hbuilt) as Hc.
  destruct (topological_respects dag _ Hc Htopo) as [Hnd Hresp].
  split.
  { by destruct (execute_calls_every_task py_none is_dag topo dag initial_data run
                   Hnd Hrun). }
  intros task_name Hin.
  unfold Dag.execute in Hrun.
  destruct (negb (Dag.validate Data is_dag dag)); [done|].
  apply (execute_order_inputs py_none _ _ _ [] _ _ Hnd Hresp Hrun).
  destruct Htopo as [Hperm _]. by rewrite Hperm.
Qed.

(** The run of the two-task pipeline in the order its tasks were added:
    [generate_report] is called although [load_data] failed, on arguments
    without an entry for [load_data]. *)
Lemma execute_passes_results_of_successful_dependencies_witness :
  exists run,
    Dag.execute _ None (fun _ => true) Dag.nodes Samples.pipeline_dag None = Ret run /\
    Dag.invoked _ run = ["load_data"; "generate_report"] /\
    exists task_def,
      Dag.tasks _ Samples.pipeline_dag !! "generate_report" = Some task_def /\
      Dag.run_results _ run !! "generate_report"
      = Some (outcome None task_def "generate_report"
                (inputs_from ∅ (Dag.run_results _ run)
                   (Dag.depends_on _ task_def))) /\
      inputs_from ∅ (Dag.run_results _ run) (Dag.depends_on _ task_def) = ∅.
Proof.
  pose proof pipeline_dag_built as Hbuilt.
  assert (topological_order (Dag.graph _ Samples.pipeline_dag)
            (Dag.get_execution_order _ Dag.nodes Samples.pipeline_dag)) as Htopo.
  { split; [done|]. by destruct (built_consistent _ Hbuilt) as (_ & _ & _ & ?). }
  destruct (Dag.execute _ None (fun _ => true) Dag.nodes Samples.pipeline_dag None)
    as [run|] eqn:Hrun; [|vm_compute in Hrun; discriminate Hrun].
  exists run. split; [reflexivity|].
  destruct (execute_passes_results_of_successful_dependencies
              _ None (fun _ => true) Dag.nodes Samples.pipeline_dag None run
              Hbuilt Htopo Hrun) as [Hinvoked Hall].
  split; [rewrite Hinvoked; vm_compute; reflexivity|].
  destruct (Hall "generate_report") as (task_def & Htd & Hres).
  { vm_compute. apply list_elem_of_further, list_elem_of_here. }
  exists task_def. split; [exact Htd|]. split; [exact Hres|].
  vm_compute in Htd. injection Htd as <-.
  vm_compute in Hrun. injection Hrun as <-.
  vm_compute. reflexivity.
Defined.

(** X4: [get_task_info] on a pipeline whose graph agrees with its task
    definitions (one built with [add_task], before or after a run).  An
    unknown name raises "not found"; for a registered task the dependencies
    reported are the declared ones, the dependents reported are exactly the
    tasks that declare it as a dependency, and [executed] tells whether the
    task has a result. *)
Theorem get_task_info_reports_dependents :
  forall (Data : Type) (dag : Dag.EvaluationDAG Data) (task_name : string),
    consistent dag ->
    (Dag.tasks Data dag !! task_name = None ->
     Dag.get_task_info Data dag task_name
     = Raise ("Task '" +:+ task_name +:+ "' not found")) /\
    (forall task_def,
       Dag.tasks Data dag !! task_name = Some task_def ->
       exists info,
         Dag.get_task_info Data dag task_name = Ret info /\
         Dag.info_name info = task_name /\
         Dag.info_description info = Dag.description Data task_def /\
         Dag.info_dependencies info = Dag.depends_on Data task_def /\
         (forall other,
            other ∈ Dag.info_dependents info <->
            exists other_def,
              Dag.tasks Data dag !! other = Some other_def /\
              task_name ∈ Dag.depends_on Data other_def) /\
         (Dag.info_executed info = true <->
          is_Some (Dag.results Data dag !! task_name))).
Proof.
  intros Data dag task_name (_ & Hnodes & Hedges & _).
  unfold Dag.get_task_info. split; [by intros ->|].
  intros task_def Htd. rewrite Htd. unfold Dag.successors.
  rewrite bool_decide_eq_true_2 by (apply Hnodes; by eexists).
  cbn [bind]. eexists. split; [reflexivity|]. cbn.
  repeat split; try done.
  - intros ((u & v) & -> & [Hu Hin]%list_elem_of_filter)%list_elem_of_fmap.
    cbn in Hu. subst u. by apply Hedges.
  - intros Hdep. apply Hedges in Hdep.
    apply list_elem_of_fmap. exists (task_name, other). split; [done|].
    by apply list_elem_of_filter.
  - intros H. by apply bool_decide_eq_true in H.
  - intros H. by apply bool_decide_eq_true.
Qed.

(** In the two-task pipeline, [load_data] has no dependency and one
    dependent, [generate_report]; it has not been executed. *)
Lemma get_task_info_reports_dependents_witness :
  consistent Samples.pipeline_dag /\
  Dag.get_task_info _ Samples.pipeline_dag "load_data"
  = Ret (Dag.mkTaskInfo "load_data" None [] ["generate_report"] false None) /\
  Dag.get_task_info _ Samples.pipeline_dag "save_results"
  = Raise "Task 'save_results' not found".
Proof.
  pose proof (built_consistent _ pipeline_dag_built) as Hc.
  split; [exact Hc|].
  destruct (get_task_info_reports_dependents _ Samples.pipeline_dag "save_results" Hc)
    as [Hunknown _].
  split; [vm_compute; reflexivity|].
  apply Hunknown. vm_compute. reflexivity.
Defined.

Section PipelineFacts.
Import Dag Pipeline.

Context {Data : Type}.
Variables load_configuration load_ground_truth initialize_database
  initialize_metrics initialize_agent evaluate_questions aggregate_results
  generate_report save_results cleanup_resources : gmap string Data -> Exc Data.

Local Abbreviation the_pipeline :=
  (create_evaluation_pipeline load_configuration load_ground_truth
     initialize_database initialize_metrics initialize_agent evaluate_questions
     aggregate_results generate_report save_results cleanup_resources).

(** One call of [add_task] in a sequence of calls on a built pipeline. *)
Ltac add_task_step :=
  lazymatch goal with
  | B : built ?dag
    |- context [bind (add_task ?D ?dag ?n ?f ?deps ?descr) _] =>
      let E := fresh "E" in
      let d := fresh "dag" in
      destruct (add_task D dag n f deps descr) as [d|] eqn:E;
      [ pose proof (built_add dag n f deps descr d B E);
        clear B; vm_compute in E; injection E as <-; cbn [bind]
      | exfalso; vm_compute in E; discriminate E ]
  end.

(** The pipeline of [create_evaluation_pipeline] is put together without
    an error, by ten calls of [add_task] that all return. *)
Lemma create_evaluation_pipeline_built :
  exists dag, the_pipeline = Ret dag /\ built dag.
Proof.
  unfold create_evaluation_pipeline, mbind, Exc_bind. cbn [bind].
  pose proof (built_new (Data := Data) "Text-to-SQL Evaluation Pipeline") as B.
  do 10 add_task_step.
  eexists. split; [reflexivity|assumption].
Qed.

End PipelineFacts.

(** X5: [create_evaluation_pipeline] never raises: every dependency it
    names is registered before the task that needs it.  The pipeline it
    returns holds the ten tasks in the order they are listed, its graph has
    no cycle, and [evaluate_questions] waits for the ground truth, the
    metrics, the agent and the database. *)
Theorem create_evaluation_pipeline_is_well_formed :
  forall (Data : Type)
         (load_configuration load_ground_truth initialize_database
          initialize_metrics initialize_agent evaluate_questions aggregate_results
          generate_report save_results cleanup_resources
          : gmap string Data -> Exc Data),
  exists dag,
    Pipeline.create_evaluation_pipeline load_configuration load_ground_truth
      initialize_database initialize_metrics initialize_agent evaluate_questions
      aggregate_results generate_report save_results cleanup_resources = Ret dag /\
    built dag /\
    Dag.nodes (Dag.graph Data dag)
    = ["load_configuration"; "load_ground_truth"; "initialize_database";
       "initialize_metrics"; "initialize_agent"; "evaluate_questions";
       "aggregate_results"; "generate_report"; "save_results";
       "cleanup_resources"] /\
    topological_order (Dag.graph Data dag) (Dag.nodes (Dag.graph Data dag)) /\
    (forall n, ~ tc (edge (Dag.graph Data dag)) n n) /\
    Dag.depends_on Data <$> Dag.tasks Data dag !! "evaluate_questions"
    = Some ["load_ground_truth"; "initialize_metrics"; "initialize_agent";
            "initialize_database"].
Proof.
  intros Data f1 f2 f3 f4 f5 f6 f7 f8 f9 f10.
  destruct (create_evaluation_pipeline_built f1 f2 f3 f4 f5 f6 f7 f8 f9 f10)
    as (dag & Hdag & Hbuilt).
  exists dag. split; [exact Hdag|]. split; [exact Hbuilt|].
  pose proof (built_consistent dag Hbuilt) as Hc.
  assert (Ret dag = Pipeline.create_evaluation_pipeline f1 f2 f3 f4 f5 f6 f7 f8 f9 f10)
    as Hvalue by done.
  vm_compute in Hvalue. injection Hvalue as ->.
  split; [vm_compute; reflexivity|].
  split; [split; [done|by destruct Hc as (_ & _ & _ & ?)]|].
  split; [|vm_compute; reflexivity].
  intros n Hcycle. apply consistent_path in Hcycle; [|done].
  destruct Hc as (Hnd & _). by eapply before_irrefl.
Qed.


(** * Further properties of the metrics *)

Section IdenticalStatements.
Import PyStr SQLNormalizer SQLParser ColumnComparator ComponentMatching.

Context {S : Type}.
Variable sqlparse_parse : string -> Exc (list Statement).
Variable _analyze_differences : string -> string -> Exc (list (string * PyVal)).
Variable _regex_component_extraction : string -> Components.

Lemma compare_individual_self item : _compare_individual_items item item = 1%Q.
Proof. unfold _compare_individual_items. by rewrite String.eqb_refl. Qed.

Lemma best_match_self item items :
  item ∈ items -> (best_match item items == 1)%Q.
Proof.
  intros Hin. apply Qle_antisym; [apply best_match_bounds|].
  rewrite <-(compare_individual_self item).
  by apply best_match_is_maximum.
Qed.

Lemma Qsum_all_one (l : list Q) :
  Forall (fun x => x == 1)%Q l -> (Qsum l == inject_Z (Z.of_nat (length l)))%Q.
Proof.
  induction 1 as [|x l Hx _ IH]; [reflexivity|].
  change (length (x :: l)) with (Datatypes.S (length l)).
  rewrite Nat2Z.inj_succ, <-Z.add_1_l, inject_Z_plus.
  unfold Qsum in *. cbn [foldr]. rewrite IH, Hx. reflexivity.
Qed.

Lemma flexible_similarity_self items :
  items ≠ [] -> (_calculate_flexible_similarity items items == 1)%Q.
Proof.
  intros Hne. unfold _calculate_flexible_similarity.
  rewrite Nat.eqb_refl. cbn [negb].
  destruct items as [|item rest] eqn:Hitems; [done|]. rewrite <-Hitems.
  rewrite total_similarity_sum, Qsum_all_one.
  - rewrite length_map. field.
    replace 0%Q with (inject_Z 0) by done. rewrite inject_Z_injective.
    subst items. cbn. lia.
  - apply Forall_forall. intros x (g & -> & Hg)%list_elem_of_fmap.
    by apply best_match_self.
Qed.

Lemma compare_select_items_self items :
  (jaccard_similarity (compare_select_items items items) == 1)%Q.
Proof.
  unfold compare_select_items.
  destruct (map _normalize_select_item items) as [|item rest] eqn:Hitems;
    cbn [is_nil andb orb jaccard_similarity]; [reflexivity|].
  by apply flexible_similarity_self.
Qed.

Lemma jaccard_self (a : gset string) : a ≠ ∅ -> (jaccard a a == 1)%Q.
Proof.
  intros Hne.
  assert (a ∪ a = a) as Hunion by apply (idemp_L (∪)).
  assert (a ∩ a = a) as Hintersection by apply (idemp_L (∩)).
  rewrite jaccard_formula by (by rewrite Hunion).
  rewrite Hunion, Hintersection. field.
  replace 0%Q with (inject_Z 0) by done. rewrite inject_Z_injective.
  intros Hsize. apply Hne, leibniz_equiv, size_empty_iff. lia.
Qed.

Lemma set_overlap_self gt_key pred_key items :
  ((set_overlap gt_key pred_key items items).1 == 1)%Q.
Proof.
  unfold set_overlap.
  case_bool_decide as Hempty; cbn [andb orb fst]; [reflexivity|].
  by apply jaccard_self.
Qed.

Lemma generic_clause_self clause :
  ((_evaluate_generic_clause sqlparse_parse clause clause).1 == 1)%Q.
Proof.
  unfold _evaluate_generic_clause.
  destruct (blank clause); cbn [andb orb fst]; [reflexivity|].
  by rewrite String.eqb_refl.
Qed.

(** A clause compared with itself scores 1, whichever clause it is. *)
Lemma component_score_self component_name component :
  ((_evaluate_component sqlparse_parse component_name component component).1 == 1)%Q.
Proof.
  unfold _evaluate_component, _evaluate_joins_clause.
  repeat (match goal with
          | |- context [if String.eqb component_name ?s then _ else _] =>
              destruct (String.eqb component_name s)
          | |- context [if in_list_str component_name ?l then _ else _] =>
              destruct (in_list_str component_name l)
          end);
    try apply generic_clause_self.
  - unfold _evaluate_select_clause.
    destruct (blank component); cbn [andb orb fst]; [reflexivity|].
    apply compare_select_items_self.
  - unfold _evaluate_from_clause.
    destruct (blank component); cbn [andb orb fst]; [reflexivity|].
    apply set_overlap_self.
  - unfold _evaluate_where_clause.
    destruct (blank component); cbn [andb orb fst]; [reflexivity|].
    apply set_overlap_self.
  - unfold _evaluate_limit_clause.
    destruct (blank component); cbn [andb orb fst]; [reflexivity|].
    by rewrite bool_decide_eq_true_2.
Qed.

End IdenticalStatements.

(** X6: a prediction that is the very text of the reference gets full
    marks from the two text-based metrics.  For every non-empty statement,
    whatever the parser does with it, Exact Match scores 1.0 and Component
    Matching scores 1.0 (every clause scores 1, and the weights add up to
    1); both judge the prediction correct. *)
Theorem identical_statements_score_one :
  forall (S : Type) (sqlparse_parse : string -> Exc (list SQLNormalizer.Statement))
         (_analyze_differences : string -> string -> Exc (list (string * PyVal)))
         (_regex_component_extraction : string -> SQLParser.Components)
         (context : EvaluationContext) (st : S) (sql : string),
    ground_truth_sql context = Some sql ->
    predicted_sql context = Some sql ->
    sql ≠ "" ->
    let em := (evaluate (ExactMatch.ExactMatchMetric sqlparse_parse
                           _analyze_differences) context st).1 in
    let cm := (evaluate (ComponentMatching.ComponentMatchingMetric sqlparse_parse
                           _regex_component_extraction) context st).1 in
    score em = 1%Q /\ is_correct em = true /\
    (score cm == 1)%Q /\ is_correct cm = true.
Proof.
  intros S parse analyze regex [qid q g p conn ti] st sql Hg Hp Hsql em cm.
  cbn [ground_truth_sql predicted_sql] in Hg, Hp. subst g p.
  assert (score em = 1%Q /\ is_correct em = true) as [Hem Hem'].
  { destruct (exact_match_cases parse analyze
                (mkContext qid q (Some sql) (Some sql) conn ti) st)
      as [(Hs & Hc & _)|(_ & _ & Hno)]; [done|].
    destruct Hno. by exists sql, sql. }
  split; [done|]. split; [done|].
  assert (score cm
          = ComponentMatching.weighted_sum
              (ComponentMatching.evaluate_all parse
                 (SQLParser.extract_components parse regex sql)
                 (SQLParser.extract_components parse regex sql)) /\
          is_correct cm = Qle_bool 0.8 (score cm)) as [Hscore Hcorrect].
  { unfold cm, evaluate, _safe_evaluate, ComponentMatching.ComponentMatchingMetric,
      pure_func, ComponentMatching._evaluate_components.
    cbn [inner name ground_truth_sql predicted_sql fst].
    rewrite !truthy_Some. destruct (String.eqb_spec sql ""); [done|].
    cbn [negb orb]. done. }
  assert (score cm == 1)%Q as Hone.
  { rewrite Hscore, weighted_sum_clauses. unfold clause_score.
    rewrite !component_score_self. reflexivity. }
  split; [done|].
  rewrite Hcorrect. apply Qle_bool_iff. rewrite Hone. discriminate.
Qed.

(** The statement [SELECT a FROM t] against itself. *)
Lemma identical_statements_score_one_witness :
  let context := Samples.context "q4" "Which values of a are there?"
                   "SELECT a FROM t" "SELECT a FROM t" None in
  score (evaluate Samples.EM context Samples.fresh_state).1 = 1%Q /\
  is_correct (evaluate Samples.EM context Samples.fresh_state).1 = true /\
  (score (evaluate Samples.CM context Samples.fresh_state).1 == 1)%Q /\
  is_correct (evaluate Samples.CM context Samples.fresh_state).1 = true.
Proof.
  apply (identical_statements_score_one _ Samples.sqlparse_sample
           Samples.no_analysis Samples.no_regex_extraction
           (Samples.context "q4" "Which values of a are there?"
              "SELECT a FROM t" "SELECT a FROM t" None)
           Samples.fresh_state "SELECT a FROM t");
    [reflexivity|reflexivity|discriminate].
Defined.

(** X7: Exact Match is symmetric: exchanging the reference and the
    predicted statement changes neither the score nor the verdict, also
    when the difference analysis raises on one of the two orders. *)
Theorem exact_match_is_symmetric :
  forall (S : Type) (sqlparse_parse : string -> Exc (list SQLNormalizer.Statement))
         (_analyze_differences : string -> string -> Exc (list (string * PyVal)))
         (c1 c2 : EvaluationContext) (st1 st2 : S),
    ground_truth_sql c2 = predicted_sql c1 ->
    predicted_sql c2 = ground_truth_sql c1 ->
    let r1 := (evaluate (ExactMatch.ExactMatchMetric sqlparse_parse
                           _analyze_differences) c1 st1).1 in
    let r2 := (evaluate (ExactMatch.ExactMatchMetric sqlparse_parse
                           _analyze_differences) c2 st2).1 in
    score r1 = score r2 /\ is_correct r1 = is_correct r2.
Proof.
  intros S parse analyze c1 c2 st1 st2 Hgt Hpred r1 r2.
  assert (statements_match parse c1 <-> statements_match parse c2) as Hiff.
  { unfold statements_match. rewrite Hgt, Hpred.
    split; intros (a & b & ? & ? & ? & ? & ?); by exists b, a. }
  destruct (exact_match_cases parse analyze c1 st1) as [(Hs1 & Hc1 & H1)|(Hs1 & Hc1 & H1)],
    (exact_match_cases parse analyze c2 st2) as [(Hs2 & Hc2 & H2)|(Hs2 & Hc2 & H2)];
    unfold r1, r2; rewrite ?Hs1, ?Hc1, ?Hs2, ?Hc2; try done.
  - destruct H2. by apply Hiff.
  - destruct H1. by apply Hiff.
Qed.

(** The two statements that differ by a space before the terminator, in
    both orders: no match either way. *)
Lemma exact_match_is_symmetric_witness :
  score (evaluate Samples.EM Samples.space_before_terminator Samples.fresh_state).1
  = score (evaluate Samples.EM
             (Samples.context "q2" "What is one?" "SELECT 1 " "SELECT 1 ;" None)
             Samples.fresh_state).1 /\
  is_correct (evaluate Samples.EM Samples.space_before_terminator
                Samples.fresh_state).1
  = is_correct (evaluate Samples.EM
                  (Samples.context "q2" "What is one?" "SELECT 1 " "SELECT 1 ;" None)
                  Samples.fresh_state).1.
Proof.
  apply (exact_match_is_symmetric _ Samples.sqlparse_sample Samples.no_analysis
           Samples.space_before_terminator
           (Samples.context "q2" "What is one?" "SELECT 1 " "SELECT 1 ;" None)
           Samples.fresh_state Samples.fresh_state); reflexivity.
Defined.

Section ExecutionFacts.
Import ExecutionAccuracy.

Variable round10 : Qc -> Qc.
Variable World : Type.
Variable execute_query :
  Connection -> string -> World -> Exc (option (list Row) * option string) * World.
Variable open_cursor : Connection -> World -> Exc unit * World.
Variable cursor_execute : Connection -> string -> World -> Exc unit * World.
Variable cursor_fetchall : Connection -> World -> Exc (list Row) * World.

Local Abbreviation run_query :=
  (_execute_query World execute_query open_cursor cursor_execute cursor_fetchall).

Lemma with_world_executed {A : Type} (f : World -> A * World) (st : DbState World) :
  executed World (with_world World f st).2 = executed World st.
Proof. unfold with_world. by destruct (f (world World st)). Qed.

(** A statement run through the [execute_query] method of the connection
    is submitted once, whatever comes of it. *)
Lemma execute_query_log timeout sql conn (st : DbState World) :
  conn_kind conn = HasExecuteQuery ->
  executed World (run_query timeout sql conn st).2 = executed World st ++ [sql].
Proof.
  intros Hkind. unfold _execute_query. rewrite Hkind.
  pose proof (with_world_executed (execute_query conn sql)
                (log_statement World sql st)) as Hlog.
  destruct (with_world World (execute_query conn sql) (log_statement World sql st))
    as [[r|e] st']; exact Hlog.
Qed.

End ExecutionFacts.

(** X8: on a connection with an [execute_query] method, as the pipeline's
    own connection class has one, Execution Accuracy submits the reference
    statement and then the predicted statement, each once and nothing else
    (no statement timeout is set on this path), also when the reference
    statement fails; and a failure of the reference statement is the one
    reported, with score 0.0, whatever became of the predicted one. *)
Theorem execution_accuracy_runs_both_statements :
  forall (round10 : Qc -> Qc) (World : Type)
         (execute_query : Connection -> string -> World ->
                          Exc (option (list ExecutionAccuracy.Row) * option string) * World)
         (open_cursor : Connection -> World -> Exc unit * World)
         (cursor_execute : Connection -> string -> World -> Exc unit * World)
         (cursor_fetchall : Connection -> World -> Exc (list ExecutionAccuracy.Row) * World)
         (execution_timeout : Z) (context : EvaluationContext)
         (st : ExecutionAccuracy.DbState World) (gt pred : string) (conn : Connection),
    ground_truth_sql context = Some gt -> gt ≠ "" ->
    predicted_sql context = Some pred -> pred ≠ "" ->
    database_connection context = Some conn ->
    conn_kind conn = HasExecuteQuery ->
    let run := evaluate (ExecutionAccuracy.ExecutionAccuracyMetric round10 World
                           execute_query open_cursor cursor_execute cursor_fetchall
                           execution_timeout) context st in
    let reference := ExecutionAccuracy._execute_query World execute_query open_cursor
                       cursor_execute cursor_fetchall execution_timeout gt conn st in
    ExecutionAccuracy.executed World run.2
    = ExecutionAccuracy.executed World st ++ [gt; pred] /\
    (forall e, reference.1.2 = Some e -> e ≠ "" ->
       score run.1 = 0%Q /\ is_correct run.1 = false /\
       error_message run.1 = Some ("Ground truth query failed: " +:+ e)).
Proof.
  intros round10 World execute_query open_cursor cursor_execute cursor_fetchall
    timeout [qid q g p c ti] st gt pred conn Hg Hgt Hp Hpred Hc Hkind run reference.
  cbn [ground_truth_sql predicted_sql database_connection] in Hg, Hp, Hc. subst g p c.
  unfold run, reference, evaluate, _safe_evaluate,
    ExecutionAccuracy.ExecutionAccuracyMetric, ExecutionAccuracy._evaluate_execution.
  cbn [inner name ground_truth_sql predicted_sql database_connection].
  rewrite !truthy_Some.
  destruct (String.eqb_spec gt ""); [done|].
  destruct (String.eqb_spec pred ""); [done|].
  cbn [negb orb].
  pose proof (execute_query_log World execute_query open_cursor cursor_execute
                cursor_fetchall timeout gt conn st Hkind) as Hlog1.
  destruct (ExecutionAccuracy._execute_query World execute_query open_cursor
              cursor_execute cursor_fetchall timeout gt conn st)
    as [[gt_result gt_error] st1].
  pose proof (execute_query_log World execute_query open_cursor cursor_execute
                cursor_fetchall timeout pred conn st1 Hkind) as Hlog2.
  destruct (ExecutionAccuracy._execute_query World execute_query open_cursor
              cursor_execute cursor_fetchall timeout pred conn st1)
    as [[pred_result pred_error] st2].
  cbn [fst snd] in *.
  assert (ExecutionAccuracy.executed World st2
          = ExecutionAccuracy.executed World st ++ [gt; pred]) as Hlog
    by (by rewrite Hlog2, Hlog1, <-app_assoc).
  split.
  - destruct (truthy gt_error); [done|]. destruct (truthy pred_error); [done|].
    by destruct (ExecutionAccuracy._compare_results round10 gt_result pred_result).
  - intros e -> He. rewrite truthy_Some.
    destruct (String.eqb_spec e ""); [done|]. done.
Qed.

(** Two statements on a database without their table: both are submitted,
    and the failure reported is the one of the reference statement. *)
Lemma execution_accuracy_runs_both_statements_witness :
  let run := evaluate MoreSamples.EX_no_table
               (Samples.rows_in_order Samples.table_connection)
               Samples.fresh_state in
  ExecutionAccuracy.executed unit run.2
  = ["SELECT id, name FROM t ORDER BY id";
     "SELECT id, name FROM t ORDER BY id DESC"] /\
  score run.1 = 0%Q /\
  error_message run.1 = Some "Ground truth query failed: no such table: t".
Proof.
  destruct (execution_accuracy_runs_both_statements Samples.same_float unit
              MoreSamples.failing_execute_query Samples.no_cursor
              Samples.no_execute Samples.no_fetchall 60
              (Samples.rows_in_order Samples.table_connection)
              Samples.fresh_state
              "SELECT id, name FROM t ORDER BY id"
              "SELECT id, name FROM t ORDER BY id DESC"
              (mkConnection HasExecuteQuery 0)
              eq_refl ltac:(discriminate) eq_refl ltac:(discriminate)
              eq_refl eq_refl) as [Hlog Hfail].
  destruct (Hfail "no such table: t" eq_refl ltac:(discriminate))
    as (Hscore & _ & Herror).
  split; [exact Hlog|]. split; [exact Hscore|exact Herror].
Defined.

(** X9: on a connection without an [execute_query] method,
    [_execute_query] works through a cursor and never raises.  The first
    statement it submits sets the statement timeout, in milliseconds; the
    query itself is submitted only after that succeeded; and the answer is
    either a list of rows or a message that starts with "Query execution
    error: ". *)
Theorem execute_query_sets_timeout_first :
  forall (World : Type)
         (execute_query : Connection -> string -> World ->
                          Exc (option (list ExecutionAccuracy.Row) * option string) * World)
         (open_cursor : Connection -> World -> Exc unit * World)
         (cursor_execute : Connection -> string -> World -> Exc unit * World)
         (cursor_fetchall : Connection -> World -> Exc (list ExecutionAccuracy.Row) * World)
         (execution_timeout : Z) (sql : string) (conn : Connection)
         (st : ExecutionAccuracy.DbState World),
    conn_kind conn <> HasExecuteQuery ->
    let set_timeout :=
      "SET statement_timeout = " +:+ pretty (execution_timeout * 1000)%Z in
    let answer := ExecutionAccuracy._execute_query World execute_query open_cursor
                    cursor_execute cursor_fetchall execution_timeout sql conn st in
    let failed :=
      exists e, answer.1 = (None, Some ("Query execution error: " +:+ e)) in
    (ExecutionAccuracy.executed World answer.2 = ExecutionAccuracy.executed World st /\
     failed) \/
    (ExecutionAccuracy.executed World answer.2
     = ExecutionAccuracy.executed World st ++ [set_timeout] /\ failed) \/
    (ExecutionAccuracy.executed World answer.2
     = ExecutionAccuracy.executed World st ++ [set_timeout; sql] /\
     (failed \/ exists rows, answer.1 = (Some rows, None))).
Proof.
  intros World execute_query open_cursor cursor_execute cursor_fetchall
    timeout sql conn st Hkind set_timeout answer failed.
  assert (answer = ExecutionAccuracy.run_on_cursor World open_cursor cursor_execute
                     cursor_fetchall timeout sql conn st) as Hanswer.
  { unfold answer, ExecutionAccuracy._execute_query.
    by destruct (conn_kind conn). }
  unfold failed. rewrite Hanswer. clear answer failed Hanswer.
  unfold ExecutionAccuracy.run_on_cursor. fold set_timeout.
  pose proof (with_world_executed World (open_cursor conn) st) as H1.
  destruct (ExecutionAccuracy.with_world World (open_cursor conn) st)
    as [[[]|e1] st1]; cbn [fst snd] in *.
  2: { left. rewrite H1. split; [done|]. by exists e1. }
  pose proof (with_world_executed World (cursor_execute conn set_timeout)
                (ExecutionAccuracy.log_statement World set_timeout st1)) as H2.
  destruct (ExecutionAccuracy.with_world World (cursor_execute conn set_timeout)
              (ExecutionAccuracy.log_statement World set_timeout st1))
    as [[[]|e2] st2]; cbn [fst snd ExecutionAccuracy.log_statement
                            ExecutionAccuracy.executed] in *.
  2: { right; left. rewrite H2, H1. split; [done|]. by exists e2. }
  pose proof (with_world_executed World (cursor_execute conn sql)
                (ExecutionAccuracy.log_statement World sql st2)) as H3.
  destruct (ExecutionAccuracy.with_world World (cursor_execute conn sql)
              (ExecutionAccuracy.log_statement World sql st2))
    as [[[]|e3] st3]; cbn [fst snd ExecutionAccuracy.log_statement
                            ExecutionAccuracy.executed] in *.
  2: { right; right. rewrite H3, H2, H1, <-app_assoc. split; [done|].
       left. by exists e3. }
  pose proof (with_world_executed World (cursor_fetchall conn) st3) as H4.
  destruct (ExecutionAccuracy.with_world World (cursor_fetchall conn) st3)
    as [[rows|e4] st4]; cbn [fst snd] in *;
    right; right; rewrite H4, H3, H2, H1, <-app_assoc;
    (split; [done|]); right; by eexists.
Qed.

(** A query on a plain connection, with the timeout of 60 seconds that the
    pipeline asks for. *)
Lemma execute_query_sets_timeout_first_witness :
  let answer := ExecutionAccuracy._execute_query unit Samples.table_execute_query
                  MoreSamples.cursor MoreSamples.cursor_execute
                  MoreSamples.cursor_fetchall 60 "SELECT id, name FROM t"
                  MoreSamples.raw_connection Samples.fresh_state in
  ExecutionAccuracy.executed unit answer.2
  = ["SET statement_timeout = 60000"; "SELECT id, name FROM t"] /\
  answer.1 = (Some Samples.reference_rows, None).
Proof.
  destruct (execute_query_sets_timeout_first unit Samples.table_execute_query
              MoreSamples.cursor MoreSamples.cursor_execute
              MoreSamples.cursor_fetchall 60 "SELECT id, name FROM t"
              MoreSamples.raw_connection Samples.fresh_state
              ltac:(discriminate))
    as [[Hlog _]|[[Hlog _]|[Hlog _]]].
  - vm_compute in Hlog. discriminate Hlog.
  - vm_compute in Hlog. discriminate Hlog.
  - split; [exact Hlog|]. vm_compute. reflexivity.
Defined.

Section RetryFacts.
Import ExecutionAccuracy Retry.

Variable World : Type.
Variable execute_query :
  Connection -> string -> World -> Exc (option (list Row) * option string) * World.
Variable open_cursor : Connection -> World -> Exc unit * World.
Variable cursor_execute : Connection -> string -> World -> Exc unit * World.
Variable cursor_fetchall : Connection -> World -> Exc (list Row) * World.

Local Abbreviation run_query :=
  (_execute_query World execute_query open_cursor cursor_execute cursor_fetchall).
Local Abbreviation loop :=
  (attempt_loop World execute_query open_cursor cursor_execute cursor_fetchall).

(** The loop makes at most [turns] attempts, and ends with rows and no
    error, or with an error and no rows. *)
Lemma attempt_loop_log timeout sql conn :
  conn_kind conn = HasExecuteQuery ->
  forall turns last_error st,
    exists n,
      (n <= turns)%nat /\
      (0 < turns -> 0 < n)%nat /\
      executed World (loop timeout turns last_error sql conn st).2
      = executed World st ++ replicate n sql /\
      ((loop timeout turns last_error sql conn st).1.2 = None \/
       (loop timeout turns last_error sql conn st).1.1 = None).
Proof.
  intros Hkind. induction turns as [|turns IH]; intros last_error st.
  - exists 0%nat. cbn. rewrite app_nil_r.
    split; [lia|]. split; [lia|]. split; [done|]. by right.
  - cbn [attempt_loop].
    pose proof (execute_query_log World execute_query open_cursor cursor_execute
                  cursor_fetchall timeout sql conn st Hkind) as Hlog.
    destruct (run_query timeout sql conn st) as [[result [e|]] st1]; cbn [snd] in Hlog.
    + destruct (non_transient e).
      * exists 1%nat. cbn.
        split; [lia|]. split; [lia|]. split; [done|]. by right.
      * destruct (IH (Some e) st1) as (n & Hle & _ & Hn & Hres).
        exists (Datatypes.S n). rewrite Hn, Hlog, <-app_assoc.
        split; [lia|]. split; [lia|]. split; [done|]. done.
    + exists 1%nat. cbn.
      split; [lia|]. split; [lia|]. split; [done|]. by left.
Qed.

End RetryFacts.

(** X10: [ExecutionAccuracyWithRetry._execute_query] with a limit of
    [max_retries] that is not negative, on a connection with an
    [execute_query] method: the statement is submitted at least once and at
    most [max_retries + 1] times, and nothing else is submitted; the answer
    has rows and no error, or an error and no rows. *)
Theorem retry_submits_at_most_max_retries_plus_one :
  forall (World : Type)
         (execute_query : Connection -> string -> World ->
                          Exc (option (list ExecutionAccuracy.Row) * option string) * World)
         (open_cursor : Connection -> World -> Exc unit * World)
         (cursor_execute : Connection -> string -> World -> Exc unit * World)
         (cursor_fetchall : Connection -> World -> Exc (list ExecutionAccuracy.Row) * World)
         (execution_timeout max_retries : Z) (sql : string) (conn : Connection)
         (st : ExecutionAccuracy.DbState World),
    (0 <= max_retries)%Z ->
    conn_kind conn = HasExecuteQuery ->
    let answer := Retry._execute_query_with_retry World execute_query open_cursor
                    cursor_execute cursor_fetchall execution_timeout max_retries
                    sql conn st in
    exists n : nat,
      (1 <= Z.of_nat n <= max_retries + 1)%Z /\
      ExecutionAccuracy.executed World answer.2
      = ExecutionAccuracy.executed World st ++ replicate n sql /\
      (answer.1.2 = None \/ answer.1.1 = None).
Proof.
  intros World execute_query open_cursor cursor_execute cursor_fetchall
    timeout max_retries sql conn st Hmax Hkind answer.
  destruct (attempt_loop_log World execute_query open_cursor cursor_execute
              cursor_fetchall timeout sql conn Hkind
              (Z.to_nat (max_retries + 1)) None st) as (n & Hle & Hpos & Hlog & Hres).
  exists n. split; [|split; [exact Hlog|exact Hres]].
  assert (0 < Z.to_nat (max_retries + 1))%nat as Hturns by lia.
  specialize (Hpos Hturns). lia.
Qed.

(** A server that turns down the first two statements, and a limit of
    three retries: the statement is submitted three times and the third
    attempt brings the rows. *)
Lemma retry_submits_at_most_max_retries_plus_one_witness :
  let answer := Retry._execute_query_with_retry nat MoreSamples.busy_execute_query
                  MoreSamples.busy_cursor MoreSamples.busy_execute
                  MoreSamples.busy_fetchall 30 3 "SELECT id, name FROM t"
                  (mkConnection HasExecuteQuery 0)
                  (ExecutionAccuracy.mkDbState nat 0%nat []) in
  (exists n : nat,
     (1 <= Z.of_nat n <= 3 + 1)%Z /\
     ExecutionAccuracy.executed nat answer.2
     = [] ++ replicate n "SELECT id, name FROM t" /\
     (answer.1.2 = None \/ answer.1.1 = None)) /\
  ExecutionAccuracy.executed nat answer.2
  = replicate 3 "SELECT id, name FROM t" /\
  answer.1 = (Some Samples.reference_rows, None).
Proof.
  split; [|split; vm_compute; reflexivity].
  apply (retry_submits_at_most_max_retries_plus_one nat
           MoreSamples.busy_execute_query MoreSamples.busy_cursor
           MoreSamples.busy_execute MoreSamples.busy_fetchall 30 3
           "SELECT id, name FROM t" (mkConnection HasExecuteQuery 0)
           (ExecutionAccuracy.mkDbState nat 0%nat []));
    [lia|reflexivity].
Defined.

(** X11: the first attempt decides in two cases.  If it succeeds, its rows
    are the answer and there is no second attempt; if it fails with a
    message that contains "syntax error", "column", "table", "function" or
    "does not exist" in any case of letters, the error is the answer,
    without rows, and there is no retry either. *)
Theorem retry_stops_after_decisive_first_attempt :
  forall (World : Type)
         (execute_query : Connection -> string -> World ->
                          Exc (option (list ExecutionAccuracy.Row) * option string) * World)
         (open_cursor : Connection -> World -> Exc unit * World)
         (cursor_execute : Connection -> string -> World -> Exc unit * World)
         (cursor_fetchall : Connection -> World -> Exc (list ExecutionAccuracy.Row) * World)
         (execution_timeout max_retries : Z) (sql : string) (conn : Connection)
         (st : ExecutionAccuracy.DbState World),
    (0 <= max_retries)%Z ->
    let first := ExecutionAccuracy._execute_query World execute_query open_cursor
                   cursor_execute cursor_fetchall execution_timeout sql conn st in
    let answer := Retry._execute_query_with_retry World execute_query open_cursor
                    cursor_execute cursor_fetchall execution_timeout max_retries
                    sql conn st in
    (first.1.2 = None -> answer = first) /\
    (forall e, first.1.2 = Some e -> Retry.non_transient e = true ->
               answer = ((None, Some e), first.2)).
Proof.
  intros World execute_query open_cursor cursor_execute cursor_fetchall
    timeout max_retries sql conn st Hmax first answer.
  unfold answer, Retry._execute_query_with_retry.
  destruct (Z.to_nat (max_retries + 1)) as [|turns] eqn:Hturns; [lia|].
  cbn [Retry.attempt_loop]. fold first.
  destruct first as [[result error] st1]. cbn [fst snd].
  split.
  - by intros ->.
  - intros e -> ->. done.
Qed.

(** A statement with a syntax error on a plain connection, and a limit of
    three retries: one attempt. *)
Lemma retry_stops_after_decisive_first_attempt_witness :
  let answer := Retry._execute_query_with_retry unit Samples.table_execute_query
                  MoreSamples.cursor MoreSamples.cursor_execute
                  MoreSamples.cursor_fetchall 30 3 "SELECT broken"
                  MoreSamples.raw_connection Samples.fresh_state in
  answer.1
  = (None, Some "Query execution error: syntax error at or near broken") /\
  ExecutionAccuracy.executed unit answer.2
  = ["SET statement_timeout = 30000"; "SELECT broken"].
Proof.
  destruct (retry_stops_after_decisive_first_attempt unit
              Samples.table_execute_query MoreSamples.cursor
              MoreSamples.cursor_execute MoreSamples.cursor_fetchall 30 3
              "SELECT broken" MoreSamples.raw_connection Samples.fresh_state
              ltac:(lia)) as [_ Hstop].
  rewrite (Hstop "Query execution error: syntax error at or near broken"
             eq_refl eq_refl).
  split; vm_compute; reflexivity.
Defined.

Section CellFacts.
Import ExecutionAccuracy.

Variable round10 : Qc -> Qc.

Lemma similar_normalize_value v v' :
  similar v v' -> _normalize_value round10 v = _normalize_value round10 v'.
Proof.
  destruct 1 as [v|s s' Hs|[]|[]]; cbn [_normalize_value]; try done.
  by rewrite Hs.
Qed.

Lemma similar_normalize_results gt pred :
  Forall2 (Forall2 similar) gt pred ->
  _normalize_results round10 gt = _normalize_results round10 pred.
Proof.
  unfold _normalize_results.
  induction 1 as [|row row' gt pred Hrow _ IH]; [done|].
  cbn [map]. f_equal; [|done].
  induction Hrow as [|v v' row row' Hv _ IHrow]; [done|].
  cbn [map]. f_equal; [by apply similar_normalize_value|done].
Qed.

End CellFacts.

(** X12: what the comparison of result sets does not see.  Two result
    sets that agree row by row and value by value, except for white space
    around text values and for booleans given as the integers 1 and 0, are
    reported as a match. *)
Theorem compare_results_ignores_padding :
  forall (round10 : Qc -> Qc) (gt pred : list ExecutionAccuracy.Row),
    Forall2 (Forall2 similar) gt pred ->
    (ExecutionAccuracy._compare_results round10 (Some gt) (Some pred)).1 = true.
Proof.
  intros round10 gt pred Hsimilar.
  assert (length gt = length pred) as Hlen by apply (Forall2_length _ _ _ Hsimilar).
  pose proof (similar_normalize_results round10 gt pred Hsimilar) as Hnorm.
  unfold ExecutionAccuracy._compare_results. cbn [ExecutionAccuracy.or_empty].
  rewrite Hlen, Nat.eqb_refl. cbn [negb].
  destruct (length pred =? 0)%nat; [done|].
  rewrite Hnorm. by rewrite bool_decide_eq_true_2.
Qed.

(** A row with a padded name and a boolean, against the same row with the
    bare name and the integer 1. *)
Lemma compare_results_ignores_padding_witness :
  (ExecutionAccuracy._compare_results Samples.same_float
     (Some [[ExecutionAccuracy.VStr "Ana "; ExecutionAccuracy.VBool true]])
     (Some [[ExecutionAccuracy.VStr "Ana"; ExecutionAccuracy.VInt 1]])).1 = true.
Proof.
  apply (compare_results_ignores_padding Samples.same_float
           [[ExecutionAccuracy.VStr "Ana "; ExecutionAccuracy.VBool true]]
           [[ExecutionAccuracy.VStr "Ana"; ExecutionAccuracy.VInt 1]]).
  constructor; [|constructor].
  constructor; [apply similar_text; reflexivity|].
  constructor; [apply (similar_bool_int true)|constructor].
Defined.

(** X13: a value that is neither a number, a text nor a date (for the
    driver, a [Decimal] is one) is compared by its [str()]: a row that holds
    such a value never matches a row that holds an [int], a [float] or a
    [bool] in its place, whatever the two values are. *)
Theorem compare_results_tells_objects_from_numbers :
  forall (round10 : Qc -> Qc) (text : string) (z : Z) (x : Qc) (b : bool),
    let object_row := Some [[ExecutionAccuracy.VObject text]] in
    (ExecutionAccuracy._compare_results round10 object_row
       (Some [[ExecutionAccuracy.VInt z]])).1 = false /\
    (ExecutionAccuracy._compare_results round10 object_row
       (Some [[ExecutionAccuracy.VFloat x]])).1 = false /\
    (ExecutionAccuracy._compare_results round10 object_row
       (Some [[ExecutionAccuracy.VBool b]])).1 = false.
Proof.
  intros round10 text z x b object_row.
  assert (forall q : Qc,
            bool_decide
              ((list_to_set_disj [[ExecutionAccuracy.NStr text]]
                : gmultiset ExecutionAccuracy.NRow)
               = list_to_set_disj [[ExecutionAccuracy.NNum q]]) = false) as Hne.
  { intros q. apply bool_decide_eq_false_2. intros Heq.
    apply counter_eq_permutation, Permutation_singleton_l in Heq.
    discriminate Heq. }
  unfold object_row, ExecutionAccuracy._compare_results.
  cbn [ExecutionAccuracy.or_empty length Nat.eqb negb
       ExecutionAccuracy._normalize_results map ExecutionAccuracy._normalize_value].
  rewrite !Hne. done.
Qed.


(** * Further properties of the normalizer *)

Section NormalizerShape.
Import PyStr SQLNormalizer.

Lemma lstrip_length s : (String.length (lstrip s) <= String.length s)%nat.
Proof. induction s as [|c s IH]; cbn; [lia|]. destruct (is_space c); cbn; lia. Qed.

Lemma collapse_ws_from_length b s :
  (String.length (collapse_ws_from b s) <= String.length s)%nat.
Proof.
  revert b. induction s as [|c s IH]; intros b; cbn; [lia|].
  destruct (is_space c); [destruct b|]; cbn;
    (pose proof (IH true); pose proof (IH false); lia).
Qed.

(** A text that [lstrip] leaves alone is empty or starts with a character
    that is not white space. *)
Lemma lstrip_fixed_head c s : lstrip (String c s) = String c s -> is_space c = false.
Proof.
  cbn. destruct (is_space c); [|done]. intros H.
  pose proof (lstrip_length s) as Hlen. rewrite H in Hlen. cbn in Hlen. lia.
Qed.

Lemma lstrip_idemp s : lstrip (lstrip s) = lstrip s.
Proof.
  induction s as [|c s IH]; [done|]. cbn.
  destruct (is_space c) eqn:Hc; [done|]. cbn. by rewrite Hc.
Qed.

Lemma rstrip_with_cons p c s :
  rstrip_with p (String c s)
  = match rstrip_with p s with
    | "" => if p c then "" else String c ""
    | t => String c t
    end.
Proof. reflexivity. Qed.

Lemma rstrip_with_idemp p s : rstrip_with p (rstrip_with p s) = rstrip_with p s.
Proof.
  induction s as [|c s IH]; [done|]. rewrite rstrip_with_cons.
  destruct (rstrip_with p s) as [|d t] eqn:Ht.
  - destruct (p c) eqn:Hc; [done|]. cbn. by rewrite Hc.
  - by rewrite rstrip_with_cons, IH.
Qed.

(** What [rstrip_with] returns starts as its argument does. *)
Lemma rstrip_with_head p c s :
  rstrip_with p (String c s) = "" \/
  exists t, rstrip_with p (String c s) = String c t.
Proof.
  rewrite rstrip_with_cons. destruct (rstrip_with p s) as [|d t].
  - destruct (p c); [by left|right; by eexists].
  - right. by eexists.
Qed.

Lemma lstrip_rstrip_with p s :
  lstrip s = s -> lstrip (rstrip_with p s) = rstrip_with p s.
Proof.
  destruct s as [|c s]; [done|]. intros Hc%lstrip_fixed_head.
  destruct (rstrip_with_head p c s) as [->|[t ->]]; [done|].
  cbn. by rewrite Hc.
Qed.

Lemma lstrip_collapse_ws s : lstrip s = s -> lstrip (collapse_ws s) = collapse_ws s.
Proof.
  destruct s as [|c s]; [done|]. intros Hc%lstrip_fixed_head.
  unfold collapse_ws. cbn. rewrite Hc. cbn. by rewrite Hc.
Qed.

Lemma collapse_ws_from_idemp s :
  collapse_ws_from true (collapse_ws_from true s) = collapse_ws_from true s /\
  collapse_ws_from false (collapse_ws_from false s) = collapse_ws_from false s.
Proof.
  induction s as [|c s [IHt IHf]]; [done|]. cbn [collapse_ws_from].
  destruct (is_space c) eqn:Hc.
  - split; [done|]. cbn [collapse_ws_from].
    change (is_space " ") with true. cbn iota. by rewrite IHt.
  - cbn [collapse_ws_from]. rewrite Hc, IHf. done.
Qed.

(** Cutting characters off the end of a text in which white space is
    collapsed leaves it collapsed. *)
Lemma collapse_ws_from_rstrip_with p s :
  forall b, collapse_ws_from b s = s ->
            collapse_ws_from b (rstrip_with p s) = rstrip_with p s.
Proof.
  induction s as [|c s IH]; intros b Hfixed; [done|].
  cbn [collapse_ws_from] in Hfixed.
  assert (exists b', collapse_ws_from b (String c "") = String c "" /\
                     collapse_ws_from b' s = s /\
                     forall t, collapse_ws_from b (String c t)
                               = String c (collapse_ws_from b' t))
    as (b' & Hone & Hrest & Hstep).
  { destruct (is_space c) eqn:Hc.
    - destruct b.
      + pose proof (collapse_ws_from_length true s) as Hlen.
        rewrite Hfixed in Hlen. cbn in Hlen. lia.
      + injection Hfixed as <- Hs. exists true.
        split; [done|]. split; [done|]. intros t. cbn [collapse_ws_from].
        change (is_space " ") with true. done.
    - injection Hfixed as Hs. exists false.
      split; [cbn; by rewrite Hc|]. split; [done|].
      intros t. cbn [collapse_ws_from]. by rewrite Hc. }
  rewrite rstrip_with_cons. specialize (IH b' Hrest).
  destruct (rstrip_with p s) as [|d t].
  - by destruct (p c).
  - by rewrite Hstep, IH.
Qed.

(** The last three steps of both ways through [normalize_sql]: strip,
    collapse the white space, remove the final semicolons. *)
Lemma tidy_shape s :
  let r := rstrip_with is_semicolon (collapse_ws (strip s)) in
  lstrip r = r /\ collapse_ws r = r /\ rstrip_with is_semicolon r = r.
Proof.
  intros r. unfold r. split; [|split].
  - apply lstrip_rstrip_with, lstrip_collapse_ws. unfold strip. apply lstrip_idemp.
  - unfold collapse_ws. apply collapse_ws_from_rstrip_with, collapse_ws_from_idemp.
  - apply rstrip_with_idemp.
Qed.

End NormalizerShape.

(** X14: the shape of every normalized statement, on the parser's way and
    on the fallback way alike: it does not start with white space, all its
    white space is single spaces (a further [re.sub(r'\s+', ' ', _)] leaves
    it unchanged), and it does not end with a semicolon.  An empty or blank
    statement normalizes to the empty string. *)
Theorem normalize_sql_shape :
  forall (sqlparse_parse : string -> Exc (list SQLNormalizer.Statement))
         (sql_query : string),
    let normalized := SQLNormalizer.normalize_sql sqlparse_parse sql_query in
    PyStr.lstrip normalized = normalized /\
    PyStr.collapse_ws normalized = normalized /\
    PyStr.rstrip_with PyStr.is_semicolon normalized = normalized /\
    (PyStr.strip sql_query = "" -> normalized = "").
Proof.
  intros parse sql normalized. unfold normalized, SQLNormalizer.normalize_sql.
  destruct (String.eqb_spec sql "") as [->|_]; [done|].
  destruct (String.eqb_spec (PyStr.strip sql) "") as [->|Hblank]; [done|].
  cbn [orb].
  assert (forall s, let r := PyStr.rstrip_with PyStr.is_semicolon
                               (PyStr.collapse_ws (PyStr.strip s)) in
                    PyStr.lstrip r = r /\ PyStr.collapse_ws r = r /\
                    PyStr.rstrip_with PyStr.is_semicolon r = r /\
                    (PyStr.strip sql = "" -> r = "")) as Htidy.
  { intros s r. destruct (tidy_shape s) as (H1 & H2 & H3). by repeat split. }
  destruct (SQLNormalizer.first_statement parse sql) as [parsed|e];
    cbn [bind try_except]; apply Htidy.
Qed.


(** * Further properties of the aggregation *)

Section BreakdownFacts.
Import Aggregation.

Lemma count_if_app {A : Type} (p : A -> bool) (l k : list A) :
  count_if p (l ++ k) = (count_if p l + count_if p k)%Z.
Proof. unfold count_if. rewrite filter_app, length_app. lia. Qed.

Lemma count_if_singleton {A : Type} (p : A -> bool) (x : A) :
  count_if p [x] = if p x then 1%Z else 0%Z.
Proof.
  unfold count_if. rewrite filter_cons, filter_nil.
  destruct (p x); by case_decide.
Qed.

Lemma count_if_nonneg {A : Type} (p : A -> bool) (l : list A) : (0 <= count_if p l)%Z.
Proof. unfold count_if. lia. Qed.

Lemma count_if_le_len {A : Type} (p : A -> bool) (l : list A) :
  (count_if p l <= len l)%Z.
Proof. unfold count_if, len. apply inj_le, length_filter. Qed.

Lemma count_if_le {A : Type} (p q : A -> bool) (l : list A) :
  (forall x, p x = true -> q x = true) -> (count_if p l <= count_if q l)%Z.
Proof.
  intros Hpq. induction l as [|x l IH]; [done|].
  change (x :: l) with ([x] ++ l). rewrite !count_if_app, !count_if_singleton.
  specialize (Hpq x). destruct (p x), (q x); try lia;
    try (by specialize (Hpq eq_refl)).
Qed.

Lemma tally_snoc l v :
  tally (l ++ [v])
  = Some (let old := default (mkDifficultyMetric 0 0 []) (tally l) in
          mkDifficultyMetric
            (if qm_is_correct v then dm_correct old + 1 else dm_correct old)%Z
            (dm_total old + 1)%Z
            (dm_scores old ++ [qm_score v])).
Proof.
  destruct l as [|x l]; cbn [tally app default].
  - rewrite count_if_singleton. by destruct (qm_is_correct v).
  - change (x :: l ++ [v]) with ((x :: l) ++ [v]).
    rewrite count_if_app, count_if_singleton, map_app.
    unfold default, from_option, id. cbn [dm_correct dm_total dm_scores].
    unfold len. rewrite length_app. cbn [length map].
    f_equal. f_equal; [destruct (qm_is_correct v); lia|lia].
Qed.

(** The loop over the metric results of one question. *)
Lemma add_metrics_lookup entries :
  forall (acc : gmap string DifficultyMetric) (seen : string -> list QuestionMetric),
    (forall m, acc !! m = tally (seen m)) ->
    forall m,
      fold_left add_metric entries acc !! m
      = tally (seen m ++ map snd (filter (fun entry => fst entry = m) entries)).
Proof.
  induction entries as [|[k v] entries IH]; intros acc seen Hacc m.
  - cbn. by rewrite app_nil_r.
  - cbn [fold_left].
    rewrite (IH (add_metric acc (k, v))
               (fun m => seen m ++ if decide (k = m) then [v] else [])).
    + rewrite filter_cons. cbn [fst]. rewrite <-app_assoc.
      by destruct (decide (k = m)).
    + intros m'. unfold add_metric. destruct (decide (k = m')) as [<-|Hne].
      * rewrite lookup_insert_eq, Hacc. symmetry. apply tally_snoc.
      * rewrite lookup_insert_ne by done. by rewrite app_nil_r.
Qed.

Lemma metric_results_of_snoc d m results r :
  metric_results_of d m (results ++ [r])
  = metric_results_of d m results ++
    if of_difficulty d r && agent_success r
    then map snd (filter (fun entry => fst entry = m) (metrics r)) else [].
Proof.
  unfold metric_results_of. rewrite flat_map_app. cbn [flat_map].
  by rewrite app_nil_r.
Qed.

Lemma metric_results_of_none d m results :
  count_if (of_difficulty d) results = 0%Z -> metric_results_of d m results = [].
Proof.
  unfold metric_results_of. induction results as [|x l IH]; [done|].
  change (x :: l) with ([x] ++ l).
  rewrite count_if_app, count_if_singleton.
  pose proof (count_if_nonneg (of_difficulty d) l).
  cbn [flat_map app]. destruct (of_difficulty d x); [lia|].
  intros Hzero. cbn [andb app]. apply IH. lia.
Qed.

Lemma add_question_breakdown d results r (acc : gmap string DifficultyStats) :
  breakdown_of d results (acc !! d) ->
  breakdown_of d (results ++ [r]) (add_question acc r !! d).
Proof.
  intros Hacc. unfold add_question.
  pose proof (count_if_nonneg (of_difficulty d) results) as Hnonneg.
  destruct (String.eqb_spec (difficulty r) d) as [Hd|Hd].
  - rewrite Hd, lookup_insert_eq.
    assert (of_difficulty d r = true) as Hof
      by (unfold of_difficulty; rewrite Hd; apply String.eqb_refl).
    assert (let old := default (mkDifficultyStats 0 0 ∅) (acc !! d) in
            d_total old = count_if (of_difficulty d) results /\
            d_agent_success old
            = count_if (fun r => of_difficulty d r && agent_success r) results /\
            forall m, d_metrics old !! m = tally (metric_results_of d m results))
      as (Htotal & Hsuccess & Hmetrics).
    { destruct (acc !! d) as [old|]; cbn in *.
      - by destruct Hacc as (? & _ & ? & ?).
      - split; [done|]. split.
        + symmetry. apply Z.le_antisymm; [|apply count_if_nonneg].
          rewrite <-Hacc. by apply count_if_le; intros x [? _]%andb_prop.
        + intros m. rewrite lookup_empty.
          by rewrite metric_results_of_none. }
    unfold breakdown_of.
    rewrite !count_if_app, !count_if_singleton, Hof. cbn [andb].
    destruct (agent_success r) eqn:Hr; cbn [d_total d_agent_success d_metrics].
    + split; [lia|]. split; [lia|]. split; [lia|].
      intros m. rewrite metric_results_of_snoc, Hof, Hr. cbn [andb].
      exact (add_metrics_lookup (metrics r) _
               (fun m => metric_results_of d m results) Hmetrics m).
    + split; [lia|]. split; [lia|]. split; [lia|].
      intros m. rewrite metric_results_of_snoc, Hof, Hr. cbn [andb].
      by rewrite app_nil_r.
  - rewrite lookup_insert_ne by done.
    assert (of_difficulty d r = false) as Hof
      by (unfold of_difficulty; by apply String.eqb_neq).
    unfold breakdown_of in *.
    destruct (acc !! d) as [stats|].
    + rewrite !count_if_app, !count_if_singleton, Hof. cbn [andb].
      rewrite !Z.add_0_r. destruct Hacc as (? & ? & ? & Hm).
      split; [done|]. split; [done|]. split; [done|].
      intros m. rewrite metric_results_of_snoc, Hof. cbn [andb].
      by rewrite app_nil_r.
    + rewrite count_if_app, count_if_singleton, Hof. lia.
Qed.

Lemma difficulty_breakdown_of d results :
  breakdown_of d results (fold_left add_question results ∅ !! d).
Proof.
  induction results as [|r results IH] using rev_ind.
  - cbn. by rewrite lookup_empty.
  - rewrite fold_left_app. cbn [fold_left]. by apply add_question_breakdown.
Qed.

End BreakdownFacts.

(** X15: the difficulty breakdown of [aggregate_results].  A difficulty
    has an entry exactly when some question has it; the entry counts the
    questions of that difficulty and, among them, those the agent answered;
    and for every metric it holds the scores that the answered questions of
    that difficulty got, in order, with their number and the number of
    them judged correct.  Questions the agent did not answer contribute to
    no metric of the breakdown. *)
Theorem difficulty_breakdown_counts :
  forall (evaluate_questions : Aggregation.EvaluateQuestions) (d : string),
    let results := Aggregation.detailed_results evaluate_questions in
    let questions := Aggregation.count_if (of_difficulty d) results in
    match Aggregation.difficulty_breakdown
            (Aggregation.aggregate_results evaluate_questions) !! d with
    | None => questions = 0%Z
    | Some stats =>
        Aggregation.d_total stats = questions /\
        (0 < questions)%Z /\
        Aggregation.d_agent_success stats
        = Aggregation.count_if
            (fun r => of_difficulty d r && Aggregation.agent_success r) results /\
        (0 <= Aggregation.d_agent_success stats <= Aggregation.d_total stats)%Z /\
        forall metric_name,
          Aggregation.d_metrics stats !! metric_name
          = tally (metric_results_of d metric_name results)
    end.
Proof.
  intros evaluate_questions d results questions.
  pose proof (difficulty_breakdown_of d results) as H.
  unfold Aggregation.aggregate_results. cbn [Aggregation.difficulty_breakdown].
  fold results. unfold breakdown_of in H.
  destruct (fold_left Aggregation.add_question results ∅ !! d) as [stats|]; [|done].
  destruct H as (Htotal & Hpos & Hsuccess & Hmetrics).
  split; [done|]. split; [done|]. split; [done|]. split; [|done].
  rewrite Hsuccess, Htotal. split; [apply count_if_nonneg|].
  by apply count_if_le; intros x [? _]%andb_prop.
Qed.

(** X16: the statistics of one metric in [aggregate_results].  Without
    scores all four numbers are 0.  Otherwise the accuracy lies between 0
    and 1, the number of perfect matches is at most the number of scores
    that reach 0.8, which is at most the number of scores; and if every
    score lies between 0 and 1, so does the average. *)
Theorem metric_stats_bounds :
  forall scores : list Q,
    let stats := Aggregation.metric_stats scores in
    let accurate := Aggregation.count_if (fun s => Qle_bool 0.8 s) scores in
    (scores = [] -> stats = Aggregation.mkMetricStats 0 0 0 0) /\
    Aggregation.total_evaluated stats = Aggregation.len scores /\
    (0 <= Aggregation.accuracy stats <= 1)%Q /\
    (0 <= Aggregation.perfect_matches stats <= accurate)%Z /\
    (accurate <= Aggregation.total_evaluated stats)%Z /\
    (Forall (fun s => 0 <= s <= 1)%Q scores ->
     (0 <= Aggregation.average_score stats <= 1)%Q).
Proof.
  intros scores stats accurate.
  split; [by intros ->|].
  destruct scores as [|s scores]; [by repeat split|].
  unfold stats, accurate. rewrite metric_stats_nonempty by done.
  cbn [Aggregation.total_evaluated Aggregation.accuracy
       Aggregation.perfect_matches Aggregation.average_score].
  set (l := s :: scores).
  assert (0 < Aggregation.len l)%Z as Hlen by (unfold Aggregation.len; cbn; lia).
  assert (0 < inject_Z (Aggregation.len l))%Q as HlenQ.
  { replace 0%Q with (inject_Z 0) by done. by rewrite <-Zlt_Qlt. }
  pose proof (count_if_nonneg (fun s => Qle_bool 0.8 s) l) as H0.
  pose proof (count_if_le_len (fun s => Qle_bool 0.8 s) l) as H1.
  split; [done|]. split; [|split; [|split; [done|]]].
  - split.
    + apply Qle_shift_div_l; [done|]. rewrite Qmult_0_l.
      replace 0%Q with (inject_Z 0) by done. by rewrite <-Zle_Qle.
    + apply Qle_shift_div_r; [done|]. rewrite Qmult_1_l. by rewrite <-Zle_Qle.
  - split; [apply count_if_nonneg|].
    apply count_if_le. intros x Hx. apply Qeq_bool_iff in Hx.
    apply Qle_bool_iff. rewrite Hx. discriminate.
  - intros Hrange. apply Qsum_bounds in Hrange.
    change (Z.of_nat (length l)) with (Aggregation.len l) in Hrange.
    rewrite sum_scores_Qsum. split.
    + apply Qle_shift_div_l; [done|]. rewrite Qmult_0_l. apply Hrange.
    + apply Qle_shift_div_r; [done|]. rewrite Qmult_1_l. apply Hrange.
Qed.


(** * Properties of the evaluation loop *)

Section QuestionsFacts.
Import Aggregation Questions.

Lemma alist_get_update {V : Type} (k k' : string) (f : option V -> V)
    (d : list (string * V)) :
  alist_get k' (alist_update k f d)
  = if String.eqb k' k then Some (f (alist_get k d)) else alist_get k' d.
Proof.
  induction d as [|[k0 v] d IH]; cbn [alist_update alist_get].
  - by destruct (String.eqb k' k).
  - destruct (String.eqb_spec k k0) as [->|Hk]; cbn [alist_get].
    + by destruct (String.eqb k' k0).
    + rewrite IH. destruct (String.eqb_spec k' k0) as [->|Hk']; [|done].
      by rewrite (proj2 (String.eqb_neq k0 k)).
Qed.

Lemma alist_get_None {V : Type} (k : string) (d : list (string * V)) :
  alist_get k d = None <-> k ∉ map fst d.
Proof.
  induction d as [|[k0 v] d IH]; cbn [alist_get map fst].
  - split; [intros _ H; by apply elem_of_nil in H|done].
  - rewrite not_elem_of_cons, <-IH.
    destruct (String.eqb_spec k k0) as [->|Hk]; [split; [done|by intros [? _]]|].
    split; [done|by intros [_ ?]].
Qed.

Lemma alist_update_keys {V : Type} (k : string) (f : option V -> V)
    (d : list (string * V)) :
  map fst (alist_update k f d)
  = if bool_decide (k ∈ map fst d) then map fst d else map fst d ++ [k].
Proof.
  induction d as [|[k0 v] d IH]; cbn [alist_update map fst app].
  - rewrite bool_decide_eq_false_2; [done|]. by intros H%elem_of_nil.
  - destruct (String.eqb_spec k k0) as [->|Hk]; cbn [map fst].
    + rewrite bool_decide_eq_true_2; [done|]. apply list_elem_of_here.
    + rewrite IH. case_bool_decide as Hin.
      * rewrite bool_decide_eq_true_2; [done|]. by apply list_elem_of_further.
      * rewrite bool_decide_eq_false_2; [done|].
        by intros [?|?]%elem_of_cons.
Qed.

Context {A S : Type}.
Variable process_query : string -> A -> Exc AgentResult * A.
Variable time_added : Question -> A -> Q.

(** A question counts as a success of the agent exactly when there is a
    prediction to evaluate. *)
Lemma predict_counted question_data a :
  (predict process_query question_data a).1.2
  = nonblank (predict process_query question_data a).1.1.
Proof.
  unfold predict.
  destruct (process_query (q_question question_data) a) as [[[[sql|] success|text]|e] a'];
    cbn [fst snd]; try done.
  - destruct success; cbn [andb]; [|done].
    by destruct (nonblank sql) eqn:Hsql.
  - by destruct (nonblank text) eqn:Htext.
Qed.

(** The loop over the metrics leaves the entries of other names alone. *)
Lemma evaluate_metrics_other (context : EvaluationContext) predicted_sql
    (metrics : list (Metric S)) :
  forall question_metrics scores st k,
    k ∉ map name metrics ->
    alist_get k (fold_left (evaluate_metric context predicted_sql) metrics
                           ((question_metrics, scores), st)).1.1
    = alist_get k question_metrics.
Proof.
  induction metrics as [|m metrics IH]; intros qms scs st k Hk; [done|].
  cbn [map] in Hk. apply not_elem_of_cons in Hk as [Hne Hk].
  cbn [fold_left]. unfold evaluate_metric at 2.
  destruct (evaluate m context st) as [result st1].
  rewrite IH by done. rewrite alist_get_update.
  by rewrite (proj2 (String.eqb_neq k (name m))).
Qed.

(** The loop over the metrics, for metrics with different names. *)
Lemma evaluate_metrics_spec (context : EvaluationContext) predicted_sql
    (metrics : list (Metric S)) :
  forall question_metrics scores st,
    NoDup (map name metrics) ->
    (forall k, k ∈ map name metrics -> k ∉ map fst question_metrics) ->
    (forall k, k ∈ map name metrics -> is_Some (alist_get k scores)) ->
    let out := fold_left (evaluate_metric context predicted_sql) metrics
                         ((question_metrics, scores), st) in
    map fst out.1.1 = map fst question_metrics ++ map name metrics /\
    (forall k, k ∉ map name metrics -> alist_get k out.1.2 = alist_get k scores) /\
    (forall k, k ∈ map name metrics ->
       exists question_metric,
         alist_get k out.1.1 = Some question_metric /\
         alist_get k out.1.2
         = Some (default [] (alist_get k scores) ++
                 if nonblank predicted_sql then [qm_score question_metric] else [])).
Proof.
  induction metrics as [|m metrics IH]; intros qms scs st Hnd Hfresh Hscores out.
  { unfold out. cbn. rewrite app_nil_r. split; [done|]. split; [done|].
    intros k Hk. by apply elem_of_nil in Hk. }
  cbn [map] in Hnd. apply NoDup_cons in Hnd as [Hm Hnd].
  destruct (evaluate m context st) as [result st1] eqn:Hevaluate.
  set (qm := mkQuestionMetric (score result) (is_correct result) (error_message result)).
  set (qms1 := alist_update (name m) (fun _ => qm) qms).
  set (scs1 := if nonblank predicted_sql
               then alist_update (name m)
                      (fun scores => default [] scores ++ [score result]) scs
               else scs).
  assert (evaluate_metric context predicted_sql (qms, scs, st) m
          = (qms1, scs1, st1)) as Hstep
    by (unfold evaluate_metric; by rewrite Hevaluate).
  unfold out. cbn [fold_left]. rewrite Hstep.
  assert (map fst qms1 = map fst qms ++ [name m]) as Hkeys.
  { unfold qms1. rewrite alist_update_keys, bool_decide_eq_false_2; [done|].
    apply Hfresh, list_elem_of_here. }
  assert (forall k, alist_get k scs1
                    = if String.eqb k (name m)
                      then Some (default [] (alist_get (name m) scs) ++
                                 if nonblank predicted_sql then [score result] else [])
                      else alist_get k scs) as Hscs1.
  { intros k. unfold scs1. destruct (nonblank predicted_sql).
    - by rewrite alist_get_update.
    - destruct (String.eqb_spec k (name m)) as [->|]; [|done].
      destruct (Hscores (name m) (list_elem_of_here _ _)) as [old ->].
      cbn. by rewrite app_nil_r. }
  destruct (IH qms1 scs1 st1 Hnd) as (IHkeys & IHother & IHin).
  { intros k Hk. rewrite Hkeys, elem_of_app, list_elem_of_singleton.
    intros [Hin| ->]; [|done].
    revert Hin. apply Hfresh. by apply list_elem_of_further. }
  { intros k Hk. rewrite Hscs1. destruct (String.eqb k (name m)); [by eexists|].
    apply Hscores. by apply list_elem_of_further. }
  pose proof (fun k => evaluate_metrics_other context predicted_sql metrics
                         qms1 scs1 st1 k) as IHqms.
  split; [|split].
  - cbn [map]. rewrite IHkeys, Hkeys, <-app_assoc. done.
  - intros k Hk. cbn [map] in Hk. apply not_elem_of_cons in Hk as [Hne Hk].
    rewrite IHother by done. rewrite Hscs1.
    by rewrite (proj2 (String.eqb_neq k (name m))).
  - intros k Hk. cbn [map] in Hk. apply elem_of_cons in Hk as [->|Hk].
    + exists qm. rewrite IHqms, IHother by done. split.
      * unfold qms1. rewrite alist_get_update. by rewrite String.eqb_refl.
      * rewrite Hscs1. by rewrite String.eqb_refl.
    + destruct (IHin k Hk) as (qm' & Hqm' & Hsc'). exists qm'.
      split; [done|]. rewrite Hsc', Hscs1.
      rewrite (proj2 (String.eqb_neq k (name m))); [done|].
      intros ->. done.
Qed.

Lemma empty_scores_get (metrics : list (Metric S)) :
  forall d k,
    alist_get k (fold_left (fun d metric =>
                              alist_update (name metric) (fun _ => ([] : list Q)) d)
                           metrics d)
    = if bool_decide (k ∈ map name metrics) then Some [] else alist_get k d.
Proof.
  induction metrics as [|m metrics IH]; intros d k; cbn [fold_left map].
  - rewrite bool_decide_eq_false_2; [done|]. by intros H%elem_of_nil.
  - rewrite IH. case_bool_decide as Hin.
    + rewrite bool_decide_eq_true_2; [done|]. by apply list_elem_of_further.
    + rewrite alist_get_update.
      destruct (String.eqb_spec k (name m)) as [->|Hne].
      * rewrite bool_decide_eq_true_2; [done|]. apply list_elem_of_here.
      * rewrite bool_decide_eq_false_2; [done|]. by intros [?|?]%elem_of_cons.
Qed.

Lemma scores_of_snoc metric_name results r :
  scores_of metric_name (results ++ [r])
  = scores_of metric_name results ++
    if agent_success r
    then match alist_get metric_name (metrics r) with
         | Some question_metric => [qm_score question_metric]
         | None => []
         end
    else [].
Proof.
  unfold scores_of. rewrite flat_map_app. cbn [flat_map]. by rewrite app_nil_r.
Qed.

(** One turn of the loop over the questions keeps its variables as
    described. *)
Lemma evaluate_question_evaluated (metrics : list (Metric S)) db_connection
    questions question_data progress a st :
  NoDup (map name metrics) ->
  evaluated metrics questions progress ->
  evaluated metrics (questions ++ [question_data])
    (evaluate_question process_query time_added metrics db_connection
       (progress, (a, st)) question_data).1.
Proof.
  intros Hnd (Hids & Hsuccess & Htotal & Hresults & Hscores).
  unfold evaluate_question.
  pose proof (predict_counted question_data a) as Hcounted.
  destruct (predict process_query question_data a) as [[sql counted] a'].
  cbn [fst snd] in Hcounted. subst counted.
  set (context := mkContext _ _ _ _ _ _).
  pose proof (evaluate_metrics_spec context sql metrics []
                (metric_scores progress) st Hnd) as Hloop.
  destruct (fold_left (evaluate_metric context sql) metrics
              ([], metric_scores progress, st)) as [[qms scs] st'].
  cbn [fst snd] in Hloop.
  destruct Hloop as (Hkeys & _ & Hin).
  { intros k _ H. by apply elem_of_nil in H. }
  { intros k Hk. rewrite Hscores by done. by eexists. }
  cbn [fst]. unfold evaluated.
  cbn [results metric_scores success_count failure_count].
  split; [|split; [|split; [|split]]].
  - rewrite !map_app, Hids. done.
  - rewrite count_if_app, count_if_singleton. cbn [agent_success].
    destruct (nonblank sql); lia.
  - unfold len in *. rewrite length_app. cbn [length].
    destruct (nonblank sql); lia.
  - intros r [Hr| ->%list_elem_of_singleton]%elem_of_app; [by apply Hresults|].
    cbn [agent_success Questions.predicted_sql Questions.metrics]. split; [done|].
    by rewrite Hkeys.
  - intros k Hk. destruct (Hin k Hk) as (qm & Hqm & Hsc).
    rewrite Hsc, scores_of_snoc, Hscores by done.
    cbn [agent_success Questions.metrics default]. rewrite Hqm. done.
Qed.

Lemma evaluate_questions_evaluated (metrics : list (Metric S)) db_connection a st
    questions :
  NoDup (map name metrics) ->
  evaluated metrics questions
    (_evaluate_questions_sequential process_query time_added questions metrics
       db_connection a st).1.
Proof.
  intros Hnd. unfold _evaluate_questions_sequential.
  induction questions as [|question_data questions IH] using rev_ind.
  - cbn [fold_left fst]. unfold evaluated.
    cbn [results metric_scores success_count failure_count map].
    split; [done|]. split; [done|]. split; [done|]. split.
    + intros r Hr. by apply elem_of_nil in Hr.
    + intros k Hk. unfold empty_scores. rewrite empty_scores_get.
      by rewrite bool_decide_eq_true_2.
  - rewrite fold_left_app. cbn [fold_left].
    destruct (fold_left _ questions _) as [progress [a' st']].
    by apply evaluate_question_evaluated.
Qed.

Lemma scores_of_length (metrics : list (Metric S)) metric_name results :
  metric_name ∈ map name metrics ->
  (forall r, r ∈ results -> map fst (Questions.metrics r) = map name metrics) ->
  len (scores_of metric_name results) = count_if agent_success results.
Proof.
  intros Hm. induction results as [|r results IH] using rev_ind; intros Hkeys; [done|].
  rewrite scores_of_snoc, count_if_app, count_if_singleton.
  unfold len in *. rewrite length_app, Nat2Z.inj_add, IH.
  - destruct (agent_success r); [|cbn; lia].
    destruct (alist_get metric_name (Questions.metrics r)) eqn:Hget; [done|].
    apply alist_get_None in Hget. destruct Hget.
    rewrite Hkeys; [done|]. apply elem_of_app. right. apply list_elem_of_here.
  - intros r' Hr'. apply Hkeys, elem_of_app. by left.
Qed.

Lemma metric_stats_total (scores : list Q) :
  Aggregation.total_evaluated (Aggregation.metric_stats scores) = len scores.
Proof. by destruct scores. Qed.

End QuestionsFacts.

(** X17: the sequential evaluation loop, for metrics with different
    names.  It returns one result per question, in the order of the
    questions; every question counts once, as a success of the agent when
    there is a non-blank prediction and as a failure otherwise; every
    result has one entry per metric; and the list of scores it collects
    for a metric holds the scores of the questions the agent answered, in
    order, so that [aggregate_results] computes the statistics of every
    metric over [success_count] scores, not over all the questions. *)
Theorem evaluate_questions_counts :
  forall (A S : Type) (process_query : string -> A -> Exc Questions.AgentResult * A)
         (time_added : Questions.Question -> A -> Q)
         (questions : list Questions.Question) (metrics : list (Metric S))
         (db_connection : option Connection) (a : A) (st : S),
    NoDup (map name metrics) ->
    let progress := (Questions._evaluate_questions_sequential process_query
                       time_added questions metrics db_connection a st).1 in
    let aggregate := Aggregation.aggregate_results
                       (Questions.evaluation questions progress) in
    evaluated metrics questions progress /\
    (forall metric,
       metric ∈ metrics ->
       (name metric,
        Aggregation.metric_stats (scores_of (name metric) (Questions.results progress)))
       ∈ Aggregation.aggregated_metrics aggregate /\
       Aggregation.total_evaluated
         (Aggregation.metric_stats (scores_of (name metric) (Questions.results progress)))
       = Questions.success_count progress).
Proof.
  intros A S process_query time_added questions metrics db_connection a st Hnd
    progress aggregate.
  pose proof (evaluate_questions_evaluated process_query time_added metrics
                db_connection a st questions Hnd) as Hev.
  fold progress in Hev. split; [exact Hev|].
  destruct Hev as (_ & Hsuccess & _ & Hresults & Hscores).
  intros metric Hmetric.
  assert (name metric ∈ map name metrics) as Hname
    by (apply list_elem_of_fmap; by exists metric).
  split.
  - apply aggregated_metrics_lookup. cbn [Aggregation.metric_scores Questions.evaluation].
    specialize (Hscores _ Hname). clear -Hscores.
    induction (Questions.metric_scores progress) as [|[k v] d IH]; [done|].
    cbn [Questions.alist_get] in Hscores.
    destruct (String.eqb_spec (name metric) k) as [->|Hne].
    + injection Hscores as ->. apply list_elem_of_here.
    + by apply list_elem_of_further, IH.
  - rewrite metric_stats_total, Hsuccess. apply (scores_of_length metrics); [done|].
    intros r Hr. by apply Hresults.
Qed.


Lemma evaluate_questions_counts_witness :
  let progress := (Questions._evaluate_questions_sequential
                     QuestionSamples.process_query QuestionSamples.no_time
                     QuestionSamples.two_questions QuestionSamples.two_metrics
                     None 0%nat (ExecutionAccuracy.mkDbState unit tt [])).1 in
  NoDup (map name QuestionSamples.two_metrics) /\
  (evaluated QuestionSamples.two_metrics QuestionSamples.two_questions progress /\
   forall metric,
     metric ∈ QuestionSamples.two_metrics ->
     (name metric,
      Aggregation.metric_stats (scores_of (name metric) (Questions.results progress)))
     ∈ Aggregation.aggregated_metrics
         (Aggregation.aggregate_results
            (Questions.evaluation QuestionSamples.two_questions progress)) /\
     Aggregation.total_evaluated
       (Aggregation.metric_stats (scores_of (name metric) (Questions.results progress)))
     = Questions.success_count progress) /\
  Questions.success_count progress = 1%Z /\
  Questions.failure_count progress = 1%Z /\
  map Questions.agent_success (Questions.results progress) = [true; false].
Proof.
  assert (NoDup (map name QuestionSamples.two_metrics)) as Hnd.
  { apply NoDup_cons. split; [|apply NoDup_singleton].
    intros H%list_elem_of_singleton. discriminate H. }
  split; [exact Hnd|]. split.
  - apply (evaluate_questions_counts nat (ExecutionAccuracy.DbState unit)
             QuestionSamples.process_query QuestionSamples.no_time
             QuestionSamples.two_questions QuestionSamples.two_metrics
             None 0%nat (ExecutionAccuracy.mkDbState unit tt []) Hnd).
  - vm_compute. done.
Defined.
